(** * Analytics summarizer: scoring, filtering, ranking and history

    A shallow embedding of [skills/analytics-summarizer/scripts/
    analytics_summarizer.py] and the properties its specification states
    about it.

    Conventions of the embedding.
    - Python [int] is [Z].
    - Python [float] is IEEE-754 binary64; it is modelled by [pyfloat]
      below: the exact value of a finite double, counted in units of
      [2^-1074] (the smallest subnormal), so every finite double is an
      integer, and every operation is "compute exactly, then round to
      nearest, ties to even".  The two zeros are one value: the code only
      compares and adds, where they behave alike.  The model is checked
      against the kernel's hardware doubles in [model_matches_binary64].
    - Python exceptions are the [Raise] case of [result].
    - [str] is [string]; texts are taken to be ASCII.
    - [dict] rows read with [.get] are [gmap string pyval]; dicts whose
      iteration order matters are association lists. *)

From Stdlib Require Import ZArith Lia Bool Ascii String DecimalString Floats.
From Stdlib Require DecimalPos.
From stdpp Require Import base option list sorting strings gmap.

Local Open Scope string_scope.
Local Open Scope Z_scope.

(** ** Exceptions *)

Inductive exn :=
| ZeroDivisionError
| OverflowError
| ValueError
| TypeError
| AttributeError
| StatisticsError.

Inductive result (A : Type) :=
| Ok (a : A)
| Raise (e : exn).
Arguments Ok {A} a.
Arguments Raise {A} e.

#[export] Instance result_ret : MRet result := fun _ a => Ok a.
#[export] Instance result_bind : MBind result := fun _ _ f m =>
  match m with
  | Ok a => f a
  | Raise e => Raise e
  end.
#[export] Instance result_fmap : FMap result := fun _ _ f m =>
  match m with
  | Ok a => Ok (f a)
  | Raise e => Raise e
  end.

#[export] Instance exn_eq_dec : EqDecision exn.
Proof. solve_decision. Defined.

(** [try: m except (E1, E2): d] *)
Definition try_except {A} (m : result A) (caught : list exn) (d : result A) : result A :=
  match m with
  | Ok a => Ok a
  | Raise e => if bool_decide (e ∈ caught) then d else Raise e
  end.

(** [for x in xs: acc = body(acc, x)], stopping at the first exception. *)
Fixpoint for_each {A S} (body : S -> A -> result S) (xs : list A) (acc : S) : result S :=
  match xs with
  | [] => Ok acc
  | x :: xs' => acc' ← body acc x; for_each body xs' acc'
  end.

(** ** binary64 *)

(** Round-half-even of the rational [a / c] ([0 < c]) to an integer. *)
Definition rhe (a c : Z) : Z :=
  let q := a / c in
  match 2 * (a mod c) ?= c with
  | Lt => q
  | Gt => q + 1
  | Eq => if Z.even q then q else q + 1
  end.

(** Exponent of the spacing of doubles around [a / c] units: below
    [2^53] units (subnormals and the first normal binade) the spacing is
    one unit, and it doubles with every binade above. *)
Definition ulp_exp (a c : Z) : Z := Z.max 0 (Z.log2 (Z.abs a / c) - 52).

(** The nearest point of the binary64 grid to [a / c] units, exponent
    range unbounded above. *)
Definition rnd_fin (a c : Z) : Z :=
  let k := ulp_exp a c in rhe a (c * 2 ^ k) * 2 ^ k.

Inductive pyfloat :=
| Fin (n : Z)     (* n * 2^-1074 *)
| PInf
| NInf
| NaN.

#[export] Instance pyfloat_eq_dec : EqDecision pyfloat.
Proof. solve_decision. Defined.

(** [1.0] in units, and the overflow threshold [2^1024]. *)
Definition one_u : Z := 2 ^ 1074.
Definition huge_u : Z := 2 ^ 2098.

(** Rounding of [a / c] units to binary64, overflowing to an infinity. *)
Definition rnd (a c : Z) : pyfloat :=
  let n := rnd_fin a c in
  if huge_u <=? n then PInf else if n <=? - huge_u then NInf else Fin n.

(** A float literal or an exact small integer: the double nearest to
    [a / c]. *)
Definition lit (a c : Z) : pyfloat := rnd (a * one_u) c.
Definition of_Z (n : Z) : pyfloat := lit n 1.

(** Comparisons, as Python's [<], [<=], [>], [>=] on floats (false on NaN). *)
Definition fltb (x y : pyfloat) : bool :=
  match x, y with
  | NaN, _ | _, NaN => false
  | Fin a, Fin b => a <? b
  | NInf, NInf => false
  | NInf, _ => true
  | PInf, _ => false
  | Fin _, PInf => true
  | Fin _, NInf => false
  end.

Definition fleb (x y : pyfloat) : bool :=
  match x, y with
  | NaN, _ | _, NaN => false
  | Fin a, Fin b => a <=? b
  | NInf, _ => true
  | PInf, PInf => true
  | PInf, _ => false
  | Fin _, PInf => true
  | Fin _, NInf => false
  end.

Definition fgtb (x y : pyfloat) : bool := fltb y x.
Definition fgeb (x y : pyfloat) : bool := fleb y x.

Definition fopp (x : pyfloat) : pyfloat :=
  match x with
  | Fin n => Fin (- n)
  | PInf => NInf
  | NInf => PInf
  | NaN => NaN
  end.

Definition fadd (x y : pyfloat) : pyfloat :=
  match x, y with
  | NaN, _ | _, NaN => NaN
  | Fin a, Fin b => rnd (a + b) 1
  | PInf, NInf | NInf, PInf => NaN
  | PInf, _ | _, PInf => PInf
  | NInf, _ | _, NInf => NInf
  end.

Definition fsub (x y : pyfloat) : pyfloat := fadd x (fopp y).

(** [sgn_inf s] is the infinity with the sign of [s] ([s <> 0]). *)
Definition sgn_inf (s : Z) : pyfloat := if 0 <? s then PInf else NInf.

Definition fmul (x y : pyfloat) : pyfloat :=
  match x, y with
  | NaN, _ | _, NaN => NaN
  | Fin a, Fin b => rnd (a * b) one_u
  | Fin a, PInf | PInf, Fin a => if a =? 0 then NaN else sgn_inf a
  | Fin a, NInf | NInf, Fin a => if a =? 0 then NaN else sgn_inf (- a)
  | PInf, PInf | NInf, NInf => PInf
  | PInf, NInf | NInf, PInf => NaN
  end.

(** Float division; Python raises on a zero divisor instead of returning
    an infinity or NaN. *)
Definition fdiv (x y : pyfloat) : result pyfloat :=
  match x, y with
  | _, Fin 0 => Raise ZeroDivisionError
  | NaN, _ | _, NaN => Ok NaN
  | Fin a, Fin b => Ok (if 0 <? b then rnd (a * one_u) b else rnd (- a * one_u) (- b))
  | Fin _, PInf | Fin _, NInf => Ok (Fin 0)
  | PInf, Fin b => Ok (sgn_inf b)
  | NInf, Fin b => Ok (sgn_inf (- b))
  | _, _ => Ok NaN
  end.

(** [a / b] on ints: the correctly rounded quotient. *)
Definition int_truediv (a b : Z) : result pyfloat :=
  if b =? 0 then Raise ZeroDivisionError
  else
    match (if 0 <? b then rnd (a * one_u) b else rnd (- a * one_u) (- b)) with
    | Fin n => Ok (Fin n)
    | _ => Raise OverflowError
    end.

(** [round(x, ndigits)] for [ndigits >= 0]: the exact value is rounded
    half-even to [ndigits] decimals and the decimal result converted back
    to the nearest double; infinities and NaN are returned unchanged.
    CPython raises OverflowError when the conversion back overflows; on
    a double it never does ([py_round_no_overflow] below), so that
    branch is not represented. *)
Definition py_round (ndigits : Z) (x : pyfloat) : pyfloat :=
  match x with
  | Fin n => rnd (rhe (n * 10 ^ ndigits) one_u * one_u) (10 ^ ndigits)
  | _ => x
  end.

(** [min(a, b)] and [max(a, b)] of two arguments: the first one wins
    unless the second is strictly smaller (larger). *)
Definition py_min (a b : pyfloat) : pyfloat := if fltb b a then b else a.
Definition py_max (a b : pyfloat) : pyfloat := if fltb a b then b else a.

Definition is_finite (x : pyfloat) : bool :=
  match x with Fin _ => true | _ => false end.

Definition units_of (x : pyfloat) : Z :=
  match x with Fin n => n | _ => 0 end.

(** [statistics.mean]: an exact rational sum of the finite data divided
    by the count and rounded once; if some datum is not finite, the
    float sum of the non-finite data, divided by the count. *)
Definition mean (xs : list pyfloat) : result pyfloat :=
  match xs with
  | [] => Raise StatisticsError
  | _ =>
    let n := Z.of_nat (length xs) in
    match filter (fun x => is_finite x = false) xs with
    | [] => Ok (rnd (foldr Z.add 0 (units_of <$> xs)) n)
    | specials => fdiv (foldl fadd (of_Z 0) specials) (of_Z n)
    end
  end.

(** ** Text helpers (ASCII model of the [str] methods the code calls) *)

Definition is_space (c : ascii) : bool :=
  let n := nat_of_ascii c in
  ((9 <=? n)%nat && (n <=? 13)%nat) || ((28 <=? n)%nat && (n <=? 32)%nat).

Definition lower_char (c : ascii) : ascii :=
  let n := nat_of_ascii c in
  if ((65 <=? n)%nat && (n <=? 90)%nat) then ascii_of_nat (n + 32) else c.

(** [s.lower()] *)
Fixpoint lower (s : string) : string :=
  match s with
  | EmptyString => EmptyString
  | String c s' => String (lower_char c) (lower s')
  end.

Fixpoint lstrip (s : string) : string :=
  match s with
  | String c s' => if is_space c then lstrip s' else s
  | EmptyString => EmptyString
  end.

Fixpoint rstrip (s : string) : string :=
  match s with
  | EmptyString => EmptyString
  | String c s' =>
    match rstrip s' with
    | EmptyString => if is_space c then EmptyString else String c EmptyString
    | t => String c t
    end
  end.

(** [s.strip()] *)
Definition strip (s : string) : string := rstrip (lstrip s).

(** [s.replace(c, "")] for a one-character [c] *)
Fixpoint remove_char (c : ascii) (s : string) : string :=
  match s with
  | EmptyString => EmptyString
  | String d s' => if Ascii.eqb c d then remove_char c s' else String d (remove_char c s')
  end.

(** [s.split(c)] for a one-character separator *)
Fixpoint split_on (c : ascii) (s : string) : list string :=
  match s with
  | EmptyString => [EmptyString]
  | String d s' =>
    if Ascii.eqb c d then EmptyString :: split_on c s'
    else
      match split_on c s' with
      | [] => [String d EmptyString]
      | t :: ts => String d t :: ts
      end
  end.

(** [s[:n]] *)
Definition str_take (n : nat) (s : string) : string := substring 0 n s.

(** [needle in s] *)
Fixpoint contains (needle s : string) : bool :=
  String.prefix needle s ||
  match s with
  | EmptyString => false
  | String _ s' => contains needle s'
  end.

Definition digit_val (c : ascii) : option Z :=
  let n := nat_of_ascii c in
  if ((48 <=? n)%nat && (n <=? 57)%nat) then Some (Z.of_nat (n - 48)) else None.

(** Digits of an [int] literal: at least one digit, single underscores
    allowed between digits. [after_digit] tells whether the previous
    character was a digit. *)
Fixpoint int_digits (acc : Z) (after_digit : bool) (s : string) : option Z :=
  match s with
  | EmptyString => if after_digit then Some acc else None
  | String c s' =>
    match digit_val c with
    | Some d => int_digits (10 * acc + d) true s'
    | None =>
      if Ascii.eqb c "_" && after_digit
      then match s' with
           | EmptyString => None
           | String c' _ =>
             match digit_val c' with
             | Some _ => int_digits acc false s'
             | None => None
             end
           end
      else None
    end
  end.

(** CPython's default limit on the number of digits of an int that is
    read from or written as decimal text
    ([sys.int_info.default_max_str_digits]): beyond it [int(s)] and
    [str(n)] raise ValueError. *)
Definition int_max_str_digits : Z := 4300.

Fixpoint digit_count (s : string) : nat :=
  match s with
  | EmptyString => 0
  | String c s' =>
    match digit_val c with
    | Some _ => S (digit_count s')
    | None => digit_count s'
    end
  end.

(** [int(s)] for a string: surrounding whitespace, an optional sign and
    decimal digits, no more of them than the limit; anything else is a
    ValueError. *)
Definition py_int (s : string) : result Z :=
  let body sign t :=
    match int_digits 0 false t with
    | Some n =>
      if Z.of_nat (digit_count t) <=? int_max_str_digits then Ok (sign * n)%Z
      else Raise ValueError
    | None => Raise ValueError
    end in
  match strip s with
  | String "-" t => body (-1)%Z t
  | String "+" t => body 1%Z t
  | t => body 1%Z t
  end.

(** Decimal text of an [int]. *)
Definition str_of_Z (n : Z) : string :=
  NilZero.string_of_int (Z.to_int n).

(** [str(n)] on an int: a ValueError beyond the digit limit. *)
Definition py_str_int (n : Z) : result string :=
  let s := str_of_Z n in
  if Z.of_nat (digit_count s) <=? int_max_str_digits then Ok s else Raise ValueError.

(** [max(xs, key=key)]: the first element whose key is maximal; [None]
    stands for the ValueError on an empty sequence. *)
Definition max_by {A} (key : A -> Z) (xs : list A) : option A :=
  match xs with
  | [] => None
  | x :: xs' => Some (foldl (fun best y => if key best <? key y then y else best) x xs')
  end.

(** ** Data model *)

(** A value found in a parsed JSON or CSV row.  A list is a list of
    texts, as the hashtags of a row are; lists of other values and
    nested objects are not represented. *)
Inductive pyval :=
| VNone
| VBool (b : bool)
| VInt (n : Z)
| VFloat (x : pyfloat)
| VStr (s : string)
| VList (items : list string).

Record PostMetrics := {
  post_id : string;
  niche : string;
  platform : string;
  published_at : string;
  content_preview : string;
  format_type : string;
  hook_words : string;
  impressions : Z;
  reach : Z;
  likes : Z;
  comments : Z;
  shares : Z;
  saves : Z;
  clicks : Z;
  engagement_rate : pyfloat;
  comment_rate : pyfloat;
  save_rate : pyfloat;
  share_rate : pyfloat;
  click_rate : pyfloat;
  benchmark_delta : pyfloat;
  composite_score : pyfloat;
  hashtags : pyval;
  notes : string;
}.

(** The assignments [post.engagement_rate = ...] etc. of [_compute_rates]. *)
Definition set_rates (p : PostMetrics) (er cr sr shr clr : pyfloat) : PostMetrics :=
  {| post_id := post_id p; niche := niche p; platform := platform p;
     published_at := published_at p; content_preview := content_preview p;
     format_type := format_type p; hook_words := hook_words p;
     impressions := impressions p; reach := reach p; likes := likes p;
     comments := comments p; shares := shares p; saves := saves p;
     clicks := clicks p;
     engagement_rate := er; comment_rate := cr; save_rate := sr;
     share_rate := shr; click_rate := clr;
     benchmark_delta := benchmark_delta p; composite_score := composite_score p;
     hashtags := hashtags p; notes := notes p |}.

(** The assignments [post.composite_score = ...; post.benchmark_delta = ...]
    of [_score_post]. *)
Definition set_score (p : PostMetrics) (score delta : pyfloat) : PostMetrics :=
  {| post_id := post_id p; niche := niche p; platform := platform p;
     published_at := published_at p; content_preview := content_preview p;
     format_type := format_type p; hook_words := hook_words p;
     impressions := impressions p; reach := reach p; likes := likes p;
     comments := comments p; shares := shares p; saves := saves p;
     clicks := clicks p;
     engagement_rate := engagement_rate p; comment_rate := comment_rate p;
     save_rate := save_rate p; share_rate := share_rate p;
     click_rate := click_rate p;
     benchmark_delta := delta; composite_score := score;
     hashtags := hashtags p; notes := notes p |}.

(** One entry of [NICHE_BENCHMARKS]. *)
Record benchmark := {
  bench_name : string;
  engagement_target : pyfloat;
  comment_rate_target : pyfloat;
  save_rate_target : pyfloat;
  share_rate_target : pyfloat;
  platform_scale : list (string * pyfloat);
  pillars : list string;
}.

Definition scales (li ig tw : pyfloat) : list (string * pyfloat) :=
  [("linkedin", li); ("instagram", ig); ("twitter", tw)].

Definition bench_ttbp : benchmark :=
  {| bench_name := "The Tunde Gbotosho Post (Leadership/Career)";
     engagement_target := lit 30 10;
     comment_rate_target := lit 5 10;
     save_rate_target := lit 3 10;
     share_rate_target := lit 2 10;
     platform_scale := scales (lit 10 10) (lit 14 10) (lit 6 10);
     pillars := ["leadership"; "career"; "management"; "promotion"; "africa"] |}.

Definition bench_cb : benchmark :=
  {| bench_name := "Connecting Bridges (Literature/Culture)";
     engagement_target := lit 25 10;
     comment_rate_target := lit 4 10;
     save_rate_target := lit 4 10;
     share_rate_target := lit 3 10;
     platform_scale := scales (lit 10 10) (lit 16 10) (lit 7 10);
     pillars := ["books"; "literature"; "africa"; "culture"; "publishing"; "chinua"; "achebe"] |}.

Definition bench_tundexai : benchmark :=
  {| bench_name := "TundeX AI (AI Strategy)";
     engagement_target := lit 35 10;
     comment_rate_target := lit 6 10;
     save_rate_target := lit 5 10;
     share_rate_target := lit 3 10;
     platform_scale := scales (lit 10 10) (lit 12 10) (lit 8 10);
     pillars := ["ai"; "claude"; "chatgpt"; "llm"; "automation"; "benchmark"; "enterprise"] |}.

Definition bench_wellwithtunde : benchmark :=
  {| bench_name := "Well With Tunde (Wellness)";
     engagement_target := lit 20 10;
     comment_rate_target := lit 3 10;
     save_rate_target := lit 5 10;
     share_rate_target := lit 4 10;
     platform_scale := scales (lit 10 10) (lit 18 10) (lit 5 10);
     pillars := ["wellness"; "health"; "mindfulness"; "habit"; "body"; "nutrition"; "chronic"] |}.

Definition bench_tundestalksmen : benchmark :=
  {| bench_name := "Tunde Talks Men (Men's Growth)";
     engagement_target := lit 25 10;
     comment_rate_target := lit 5 10;
     save_rate_target := lit 4 10;
     share_rate_target := lit 3 10;
     platform_scale := scales (lit 10 10) (lit 15 10) (lit 7 10);
     pillars := ["men"; "father"; "relationship"; "accountability"; "brotherhood"; "faith"] |}.

(** The dict literal, in its insertion (= iteration) order. *)
Definition NICHE_BENCHMARKS : list (string * benchmark) :=
  [("ttbp", bench_ttbp); ("cb", bench_cb); ("tundexai", bench_tundexai);
   ("wellwithtunde", bench_wellwithtunde); ("tundestalksmen", bench_tundestalksmen)].

(** [d.get(k, dflt)] on a dict literal. *)
Fixpoint assoc_get {V} (d : list (string * V)) (k : string) (dflt : V) : V :=
  match d with
  | [] => dflt
  | (k', v) :: d' => if String.eqb k k' then v else assoc_get d' k dflt
  end.

(** ** Parsers *)

(** The text [str(val)] of a value whose text is fixed by its kind; a
    float or a list prints through [repr], which is not modelled.  (The
    ints of a row come out of [json.load], which reads none beyond the
    digit limit, so the text of an int is taken as it is here; the
    counter reader [int_of_cleaned] below goes through [py_str_int].) *)
Definition py_str_plain (val : pyval) : option string :=
  match val with
  | VNone => Some "None"
  | VBool true => Some "True"
  | VBool false => Some "False"
  | VInt n => Some (str_of_Z n)
  | VStr s => Some s
  | VFloat _ | VList _ => None
  end.

(** [int(str(val).replace(",", "").strip())].  The text of a float always
    holds a ".", an exponent, "inf" or "nan", and the text of a list its
    brackets, so [int] rejects both with a ValueError: these two cases are
    written out. *)
Definition int_of_cleaned (val : pyval) : result Z :=
  match val with
  | VInt n => s ← py_str_int n; py_int (strip (remove_char "," s))
  | _ =>
    match py_str_plain val with
    | Some s => py_int (strip (remove_char "," s))
    | None => Raise ValueError
    end
  end.

Definition _safe_int (val : pyval) : result Z :=
  try_except (int_of_cleaned val) [ValueError; TypeError] (Ok 0).

Definition _detect_niche (content : string) : string :=
  let text := lower content in
  let scores :=
    omap (fun '(name, config) =>
            let score := Z.of_nat (length (filter (fun pillar => contains pillar text = true) (pillars config))) in
            if 0 <? score then Some (name, score) else None)
         NICHE_BENCHMARKS in
  match max_by snd scores with
  | Some (name, _) => name
  | None => "ttbp"
  end.

Definition newline : ascii := ascii_of_nat 10.

Definition _extract_hook (content : string) : string :=
  let lines := filter (fun ln => ln <> "") (strip <$> split_on newline content) in
  match lines with
  | ln :: _ => str_take 120 ln
  | [] => str_take 120 content
  end.

Definition rate_base (post : PostMetrics) : Z :=
  if 0 <? impressions post then impressions post else Z.max (reach post) 1.

(** [round((num / base) * 100, 2)] *)
Definition rate_of (num base : Z) : result pyfloat :=
  q ← int_truediv num base;
  mret (py_round 2 (fmul q (of_Z 100))).

Definition _compute_rates (post : PostMetrics) : result PostMetrics :=
  let base := rate_base post in
  let total_eng := likes post + comments post + shares post + saves post in
  er ← rate_of total_eng base;
  cr ← rate_of (comments post) base;
  sr ← rate_of (saves post) base;
  shr ← rate_of (shares post) base;
  clr ← rate_of (clicks post) base;
  mret (set_rates post er cr sr shr clr).

Definition bench_of (niche_name : string) : benchmark :=
  assoc_get NICHE_BENCHMARKS niche_name bench_ttbp.

Definition scaled_target_of (niche_name platform_name : string) : pyfloat :=
  let bench := bench_of niche_name in
  fmul (engagement_target bench) (assoc_get (platform_scale bench) platform_name (lit 10 10)).

(** [min(cap, (rate / target) * cap) if target > 0 else 0]; the int
    results [cap] and [0] are kept as the equal floats. *)
Definition capped_component (cap : Z) (rate target : pyfloat) : result pyfloat :=
  if fgtb target (of_Z 0)
  then q ← fdiv rate target; mret (py_min (of_Z cap) (fmul q (of_Z cap)))
  else mret (of_Z 0).

Definition _score_post (post : PostMetrics) : result PostMetrics :=
  let bench := bench_of (niche post) in
  let scaled_target := scaled_target_of (niche post) (platform post) in
  eng_score ← capped_component 50 (engagement_rate post) scaled_target;
  comment_score ← capped_component 15 (comment_rate post) (comment_rate_target bench);
  save_score ← capped_component 15 (save_rate post) (save_rate_target bench);
  share_score ← capped_component 10 (share_rate post) (share_rate_target bench);
  let click_score := py_min (of_Z 10) (fmul (click_rate post) (of_Z 5)) in
  mret (set_score post
          (py_round 1 (fadd (fadd (fadd (fadd eng_score comment_score) save_score) share_score) click_score))
          (py_round 2 (fsub (engagement_rate post) scaled_target))).

Definition dict_get (d : gmap string pyval) (k : string) (dflt : pyval) : pyval :=
  default dflt (d !! k).

Definition truthy (val : pyval) : bool :=
  match val with
  | VNone | VBool false | VInt 0 | VStr "" | VList [] => false
  | VFloat x => negb (bool_decide (x = Fin 0))
  | _ => true
  end.

(** A value used where the code needs a [str] (it calls a string method
    on it or slices it): any other kind of value raises there. *)
Definition as_text (e : exn) (val : pyval) : result string :=
  match val with
  | VStr s => Ok s
  | _ => Raise e
  end.

(** What [json.load] hands to [_parse_contentstudio_json]. *)
Inductive raw_export :=
| RawList (items : list (gmap string pyval))
| RawDict (d : gmap string (list (gmap string pyval))).

Section Normalizer.

(** [_detect_format] classifies the text with [re.search] over
    [FORMAT_PATTERNS]; the regular-expression engine is not modelled, the
    classifier is any total function of the text.  [py_repr] is [repr] on
    floats and lists. *)
Variable _detect_format : string -> string.
Variable py_repr : pyval -> string.

Definition py_str (val : pyval) : string :=
  match py_str_plain val with
  | Some s => s
  | None => py_repr val
  end.

(** The body of the loop of [_parse_contentstudio_json] for one [item].
    The fields [niche] and [platform] of [PostMetrics] are texts here, so
    a row is read under the assumption that a truthy [niche] it gives is
    a string: a truthy niche of another kind, which the code would carry
    along unread, is outside the model and the row counts as rejected
    (TypeError). *)
Definition parse_contentstudio_item (item : gmap string pyval) : result PostMetrics :=
  let content_v :=
    dict_get item "message" (dict_get item "content" (dict_get item "caption" (VStr ""))) in
  let niche_v := dict_get item "niche" VNone in
  niche_name ← (if truthy niche_v then as_text TypeError niche_v
                else content ← as_text AttributeError content_v; mret (_detect_niche content));
  platform_name ← lower <$> as_text AttributeError
      (dict_get item "platform" (dict_get item "social_account_type" (VStr "linkedin")));
  content ← as_text TypeError content_v;
  n_impressions ← _safe_int (dict_get item "impressions" (dict_get item "reach" (VInt 0)));
  n_reach ← _safe_int (dict_get item "reach" (VInt 0));
  n_likes ← _safe_int (dict_get item "likes" (dict_get item "reactions" (VInt 0)));
  n_comments ← _safe_int (dict_get item "comments" (VInt 0));
  n_shares ← _safe_int (dict_get item "shares" (dict_get item "reposts" (VInt 0)));
  n_saves ← _safe_int (dict_get item "saves" (dict_get item "bookmarks" (VInt 0)));
  n_clicks ← _safe_int (dict_get item "link_clicks" (dict_get item "clicks" (VInt 0)));
  let p :=
    {| post_id := py_str (dict_get item "id" (dict_get item "post_id" (VStr "")));
       niche := niche_name;
       platform := platform_name;
       published_at := py_str (dict_get item "published_at" (dict_get item "created_at" (VStr "")));
       content_preview := str_take 120 content;
       format_type := _detect_format content;
       hook_words := _extract_hook content;
       impressions := n_impressions; reach := n_reach; likes := n_likes;
       comments := n_comments; shares := n_shares; saves := n_saves;
       clicks := n_clicks;
       engagement_rate := of_Z 0; comment_rate := of_Z 0; save_rate := of_Z 0;
       share_rate := of_Z 0; click_rate := of_Z 0;
       benchmark_delta := of_Z 0; composite_score := of_Z 0;
       hashtags := dict_get item "hashtags" (VList []);
       notes := "" |} in
  p' ← _compute_rates p;
  _score_post p'.

Definition _parse_contentstudio_json (raw : raw_export) : result (list PostMetrics) :=
  let items :=
    match raw with
    | RawList items => items
    | RawDict d => default (default [] (d !! "posts")) (d !! "data")
    end in
  for_each (fun posts item => p ← parse_contentstudio_item item; mret (posts ++ [p])%list) items [].

End Normalizer.

(** ** Period filter *)

(** Outcome of [datetime.fromisoformat(text)]: a ValueError, a naive
    datetime or a timezone-aware one.  Datetimes are microseconds since
    0001-01-01T00:00:00, in UTC for an aware one. *)
Inductive iso_result :=
| IsoValueError
| IsoNaive (t : Z)
| IsoAware (t : Z).

Definition day_us : Z := 86400 * 1000000.

(** [published_at.split("T")[0]] *)
Definition date_part (s : string) : string :=
  match split_on "T" s with
  | d :: _ => d
  | [] => ""
  end.

(** [l or dflt] on lists: an empty list is falsy. *)
Definition list_or {A} (l dflt : list A) : list A :=
  match l with
  | [] => dflt
  | _ => l
  end.

Section Period.

(** The standard library's parser, whose accepted formats depend on the
    Python version, is a parameter. *)
Variable fromisoformat : string -> iso_result.

(** Does the loop of [_filter_by_period] append [p]?  Comparing the
    naive [cutoff] with an aware datetime raises TypeError, which the
    [except (ValueError, AttributeError)] clause does not catch. *)
Definition period_keeps (cutoff : Z) (p : PostMetrics) : result bool :=
  match fromisoformat (date_part (published_at p)) with
  | IsoValueError => Ok true
  | IsoNaive dt => Ok (cutoff <=? dt)
  | IsoAware _ => Raise TypeError
  end.

Definition period_cutoff (now : Z) (period : string) : Z :=
  now - (if String.eqb period "week" then 7 else 30) * day_us.

(** [now] is the value [datetime.now()] returns inside the call. *)
Definition _filter_by_period (now : Z) (posts : list PostMetrics) (period : string)
  : result (list PostMetrics) :=
  if String.eqb period "all" then Ok posts
  else
    let cutoff := period_cutoff now period in
    kept ← for_each (fun acc p => keep ← period_keeps cutoff p;
                                  mret (if keep : bool then (acc ++ [p])%list else acc))
                    posts [];
    mret (list_or kept posts).

End Period.

(** The date-only fragment of [datetime.fromisoformat]: ["YYYY-MM-DD"]
    gives midnight of that day, any other text here a ValueError. *)
Definition is_leap (y : Z) : bool :=
  (y mod 4 =? 0) && (negb (y mod 100 =? 0) || (y mod 400 =? 0)).

Definition days_in_month (y m : Z) : Z :=
  if m =? 2 then (if is_leap y then 29 else 28)
  else if (m =? 4) || (m =? 6) || (m =? 9) || (m =? 11) then 30 else 31.

Definition days_before_year (y : Z) : Z :=
  let y' := y - 1 in y' * 365 + y' / 4 - y' / 100 + y' / 400.

Definition days_before_month (y m : Z) : Z :=
  foldr Z.add 0 (days_in_month y <$> (Z.of_nat <$> seq 1 (Z.to_nat (m - 1)))).

Definition ymd_to_ordinal (y m d : Z) : Z :=
  days_before_year y + days_before_month y m + d.

Definition digits_fixed (s : string) : option Z :=
  if forallb (fun c => bool_decide (is_Some (digit_val c))) (list_ascii_of_string s)
  then int_digits 0 false s else None.

Definition fromisoformat_date (s : string) : iso_result :=
  match digits_fixed (substring 0 4 s), digits_fixed (substring 5 2 s),
        digits_fixed (substring 8 2 s) with
  | Some y, Some m, Some d =>
    if (String.length s =? 10)%nat
       && bool_decide (substring 4 1 s = "-") && bool_decide (substring 7 1 s = "-")
       && (1 <=? y) && (1 <=? m) && (m <=? 12) && (1 <=? d) && (d <=? days_in_month y m)
    then IsoNaive ((ymd_to_ordinal y m d - 1) * day_us)
    else IsoValueError
  | _, _, _ => IsoValueError
  end.

(** ** Sorting and statistics *)

(** A stable insertion sort; [before y x] says that [y] has to stay ahead
    of [x].  On keys that are totally ordered it returns what [sorted]
    returns. *)
Fixpoint insert_by {A} (before : A -> A -> bool) (x : A) (l : list A) : list A :=
  match l with
  | [] => [x]
  | y :: l' => if before y x then y :: insert_by before x l' else x :: l
  end.

Definition sort_by {A} (before : A -> A -> bool) (l : list A) : list A :=
  foldr (insert_by before) [] l.

(** [sorted(l, key=key, reverse=True)] *)
Definition sorted_desc {A} (key : A -> pyfloat) (l : list A) : list A :=
  sort_by (fun y x => fltb (key x) (key y)) l.

(** [sorted(l)] on floats *)
Definition sorted_floats (l : list pyfloat) : list pyfloat :=
  sort_by (fun y x => fltb y x) l.

(** [statistics.median] *)
Definition median (xs : list pyfloat) : result pyfloat :=
  let data := sorted_floats xs in
  let n := length data in
  match n with
  | O => Raise StatisticsError
  | _ =>
    if Nat.odd n then Ok (default NaN (data !! (n / 2)%nat))
    else
      let i := (n / 2)%nat in
      fdiv (fadd (default NaN (data !! (i - 1)%nat)) (default NaN (data !! i))) (of_Z 2)
  end.

(** ** Pattern detector *)

(** The texts [_detect_patterns] appends, by template: each constructor
    is one f-string, its arguments the values formatted into it. *)
Inductive finding :=
| FormatOverperforms (fmt : string) (avg others_avg gap : pyfloat)
| FormatUnderperforms (fmt : string) (avg others_avg : pyfloat)
| HighSave (dominant : string)
| HighComment (dominant : string)
| LowPerformers (dominant : string).

(** [d.setdefault(k, []).append(v)] on a dict kept in insertion order. *)
Fixpoint setdefault_append (k : string) (v : pyfloat) (d : list (string * list pyfloat))
  : list (string * list pyfloat) :=
  match d with
  | [] => [(k, [v])]
  | (k', vs) :: d' =>
    if String.eqb k k' then (k', (vs ++ [v])%list) :: d'
    else (k', vs) :: setdefault_append k v d'
  end.

Definition format_engagement (posts : list PostMetrics) : list (string * list pyfloat) :=
  foldl (fun d p => setdefault_append (format_type p) (engagement_rate p) d) [] posts.

Section Patterns.

(** The iteration order of [set(formats)] follows string hashes, which
    change from run to run: it is the order of an arbitrary ranking,
    which may differ from one list to the next. *)
Variable set_rank : list string -> string -> Z.

Definition set_elements (formats : list string) : list string :=
  sort_by (fun y x => set_rank formats y <? set_rank formats x) (remove_dups formats).

(** [max(set(formats), key=formats.count)] *)
Definition dominant_format (formats : list string) : result string :=
  match max_by (fun f => Z.of_nat (length (filter (fun g => g = f) formats)))
               (set_elements formats) with
  | Some f => Ok f
  | None => Raise ValueError
  end.

(** The body of the loop over [fmt_eng.items()] for one format. *)
Definition format_gap (fmt_eng : list (string * list pyfloat))
    (patterns : list finding) (entry : string * list pyfloat) : result (list finding) :=
  let '(fmt, rates) := entry in
  avg ← mean rates;
  let others := concat ((fun kv => if String.eqb (fst kv) fmt then [] else snd kv) <$> fmt_eng) in
  match others with
  | [] => mret patterns
  | _ =>
    others_avg ← mean others;
    if fgtb avg (fmul others_avg (lit 15 10))
    then mret (patterns ++ [FormatOverperforms fmt avg others_avg (fsub avg others_avg)])%list
    else if fltb avg (fmul others_avg (lit 7 10))
    then mret (patterns ++ [FormatUnderperforms fmt avg others_avg])%list
    else mret patterns
  end.

Definition _detect_patterns (posts : list PostMetrics) : result (list finding) :=
  match posts with
  | [] => Ok []
  | _ =>
    let fmt_eng := format_engagement posts in
    patterns ← for_each (format_gap fmt_eng) fmt_eng [];
    let high_save := filter (fun p => fgtb (save_rate p) (lit 5 10) = true) posts in
    patterns ← (if (2 <=? length high_save)%nat
                then dominant ← dominant_format (format_type <$> high_save);
                     mret (patterns ++ [HighSave dominant])%list
                else mret patterns);
    let high_comment := filter (fun p => fgtb (comment_rate p) (lit 5 10) = true) posts in
    patterns ← (match high_comment with
                | [] => mret patterns
                | _ => dominant ← dominant_format (format_type <$> high_comment);
                       mret (patterns ++ [HighComment dominant])%list
                end);
    let low := filter (fun p => fltb (benchmark_delta p) (lit (-15) 10) = true) posts in
    patterns ← (if (2 <=? length low)%nat
                then dominant ← dominant_format (format_type <$> low);
                     mret (patterns ++ [LowPerformers dominant])%list
                else mret patterns);
    mret (take 5 patterns)
  end.

End Patterns.

(** ** Format breakdown *)

(** [max(xs, key=key)] and [min(xs, key=key)] with float keys: the first
    element that no later one beats. *)
Definition max_by_float {A} (key : A -> pyfloat) (xs : list A) : option A :=
  match xs with
  | [] => None
  | x :: xs' => Some (foldl (fun best y => if fgtb (key y) (key best) then y else best) x xs')
  end.

Definition min_by_float {A} (key : A -> pyfloat) (xs : list A) : option A :=
  match xs with
  | [] => None
  | x :: xs' => Some (foldl (fun best y => if fltb (key y) (key best) then y else best) x xs')
  end.

(** [_analyze_formats]: the dict comprehension keeps the insertion order
    of [fmt_eng]; [breakdown[k]] is the second component of the entry. *)
Definition _analyze_formats (posts : list PostMetrics)
  : result (list (string * pyfloat) * string * string) :=
  let fmt_eng := format_engagement posts in
  breakdown ← for_each (fun acc '(fmt, rates) =>
                          match rates with
                          | [] => mret acc
                          | _ => avg ← mean rates; mret (acc ++ [(fmt, py_round 2 avg)])%list
                          end)
                       fmt_eng [];
  match max_by_float snd breakdown, min_by_float snd breakdown with
  | Some best, Some worst => mret (breakdown, fst best, fst worst)
  | _, _ => mret ([], "unknown", "unknown")
  end.

(** ** Hashtag performance *)

(** [sorted(l)] on strings and [" ".join(l)]. *)
Definition sorted_strings (l : list string) : list string :=
  sort_by (fun y x => String.ltb y x) l.

Definition chars (s : string) : list string :=
  (fun c => String c EmptyString) <$> list_ascii_of_string s.

(** [" ".join(sorted(p.hashtags[:4]))] under [if p.hashtags:].  [None]
    is a falsy value, which the loop skips; a text is sliced and sorted
    by character, a list (of texts, as [pyval] has them) by element;
    slicing a bool, an int or a float raises TypeError. *)
Definition hashtag_key (tags : pyval) : result (option string) :=
  if truthy tags then
    match tags with
    | VStr s => Ok (Some (String.concat " " (sorted_strings (chars (str_take 4 s)))))
    | VList items => Ok (Some (String.concat " " (sorted_strings (take 4 items))))
    | _ => Raise TypeError
    end
  else Ok None.

(** [_analyze_hashtag_performance] *)
Definition _analyze_hashtag_performance (posts : list PostMetrics)
  : result (list (string * pyfloat)) :=
  set_eng ← for_each (fun set_eng p =>
                        key ← hashtag_key (hashtags p);
                        mret (match key with
                              | Some k => setdefault_append k (engagement_rate p) set_eng
                              | None => set_eng
                              end))
                     posts [];
  for_each (fun acc '(k, v) =>
              match v with
              | [] => mret acc
              | _ => avg ← mean v; mret (acc ++ [(k, py_round 2 avg)])%list
              end)
           set_eng [].

(** ** Niche aggregator *)

(** [a < b] on datetimes: a naive and an aware one do not compare. *)
Definition datetime_ltb (a b : iso_result) : result bool :=
  match a, b with
  | IsoNaive x, IsoNaive y | IsoAware x, IsoAware y => Ok (x <? y)
  | _, _ => Raise TypeError
  end.

(** [min(l)] and [max(l)]: each item is compared with the best one so
    far; [None] stands for the empty list, on which the code does not
    call them. *)
Definition min_datetime (l : list iso_result) : result (option iso_result) :=
  match l with
  | [] => Ok None
  | d :: ds =>
    Some <$> for_each (fun best item => lt ← datetime_ltb item best;
                                        mret (if lt : bool then item else best)) ds d
  end.

Definition max_datetime (l : list iso_result) : result (option iso_result) :=
  match l with
  | [] => Ok None
  | d :: ds =>
    Some <$> for_each (fun best item => gt ← datetime_ltb best item;
                                        mret (if gt : bool then item else best)) ds d
  end.

(** The fields of [NichePerformance] that depend on the ranking, the
    averages, the formats, the hashtags and the patterns.  Not kept:
    the timing breakdown, whose loop catches the only exception its
    parser raises; [period_start] and [period_end], of which the
    comparison of the dates is modelled and the [strftime] text is not;
    and the recommendation texts, which are f-strings over fields
    computed before.  None of the three feeds a field kept here. *)
Record NichePerformance := {
  np_niche : string;
  np_platform : string;
  post_count : nat;
  avg_engagement_rate : pyfloat;
  median_engagement_rate : pyfloat;
  benchmark_target : pyfloat;
  benchmark_status : string;
  top_performers : list PostMetrics;
  bottom_performers : list PostMetrics;
  format_breakdown : list (string * pyfloat);
  best_format : string;
  worst_format : string;
  patterns : list finding;
  hashtag_performance : list (string * pyfloat);
}.

(** [l[-n:]] *)
Definition last_n {A} (n : nat) (l : list A) : list A := drop (length l - n) l.

Definition niche_group (posts : list PostMetrics) (niche_name platform_name : string)
  : list PostMetrics :=
  filter (fun p => niche p = niche_name /\ platform p = platform_name) posts.

Section Niche.

Variable set_rank : list string -> string -> Z.
Variable fromisoformat : string -> iso_result.

(** The dates [_analyze_niche] collects: those of the posts whose date
    part parses. *)
Definition published_dates (posts : list PostMetrics) : list iso_result :=
  omap (fun p => match fromisoformat (date_part (published_at p)) with
                 | IsoValueError => None
                 | dt => Some dt
                 end) posts.

Definition _analyze_niche (posts : list PostMetrics) (niche_name platform_name : string)
  : result (option NichePerformance) :=
  let filtered := niche_group posts niche_name platform_name in
  match filtered with
  | [] => Ok None
  | _ =>
    let target := scaled_target_of niche_name platform_name in
    let sorted_posts := sorted_desc composite_score filtered in
    avg_eng ← py_round 2 <$> mean (engagement_rate <$> filtered);
    med_eng ← py_round 2 <$> median (engagement_rate <$> filtered);
    let status :=
      if fgeb avg_eng target then "ABOVE"
      else if fgeb avg_eng (fmul target (lit 85 100)) then "MEETING"
      else "BELOW" in
    '(fmt_breakdown, best_fmt, worst_fmt) ← _analyze_formats filtered;
    hashtag_perf ← _analyze_hashtag_performance filtered;
    found ← _detect_patterns set_rank filtered;
    let dates := published_dates filtered in
    _ ← min_datetime dates;
    _ ← max_datetime dates;
    mret (Some {| np_niche := niche_name;
                  np_platform := platform_name;
                  post_count := length filtered;
                  avg_engagement_rate := avg_eng;
                  median_engagement_rate := med_eng;
                  benchmark_target := py_round 2 target;
                  benchmark_status := status;
                  top_performers := take 3 sorted_posts;
                  bottom_performers := reverse (last_n 3 sorted_posts);
                  format_breakdown := fmt_breakdown;
                  best_format := best_fmt;
                  worst_format := worst_fmt;
                  patterns := found;
                  hashtag_performance := hashtag_perf |})
  end.

End Niche.

(** ** Overall recommendations *)

(** The de-duplicating loops of [summarize_week] (its "aggregate +
    de-dup" block) and the final [all_recs[:8]].  [perf_recs] holds
    [perf.recommendations] for each entry of [performances], in order;
    [responses] holds [comp.suggested_response] for each competitor
    insight. *)
Definition summarize_week_recommendations
    (perf_recs : list (list string)) (responses : list string) : list string :=
  let '(all_recs, seen_recs) :=
    foldl (fun '(all_recs, seen_recs) rec =>
             if bool_decide (rec ∈ (seen_recs : gset string)) then (all_recs, seen_recs)
             else ((all_recs ++ [rec])%list, {[rec]} ∪ seen_recs))
          ([], ∅) (concat perf_recs) in
  let all_recs :=
    foldl (fun all_recs response =>
             let suggestion := "[competitor] " +:+ response in
             if bool_decide (suggestion ∈ seen_recs) then all_recs
             else (all_recs ++ [suggestion])%list)
          all_recs responses in
  take 8 all_recs.

(** ** History *)

(** The history file as [_save_to_history] finds it: absent, not
    decodable as JSON, or a stored list of flattened posts. *)
Inductive history_file :=
| Missing
| Undecodable
| Stored (entries : list PostMetrics).

Definition read_history (file : history_file) : list PostMetrics :=
  match file with
  | Stored entries => entries
  | Missing | Undecodable => []
  end.

(** The file [_save_to_history] leaves behind. *)
Definition _save_to_history (posts : list PostMetrics) (file : history_file) : history_file :=
  let history := read_history file in
  let existing_ids : gset string := list_to_set (post_id <$> history) in
  let new_posts := filter (fun p => post_id p ∉ existing_ids) posts in
  Stored (history ++ new_posts)%list.

(** ** CSV parsers *)

(** A row of [csv.DictReader]: header to cell text.  (A row shorter than
    the header, whose missing cells are [None], is not represented.) *)
Definition csv_text (row : gmap string string) (k dflt : string) : string :=
  default dflt (row !! k).

(** [row.get(k, dflt)] where the default is not a text. *)
Definition csv_get (row : gmap string string) (k : string) (dflt : pyval) : pyval :=
  default dflt (VStr <$> row !! k).

(** [PostMetrics(...)] with the computed fields at their defaults. *)
Definition new_post (id niche_name platform_name published content fmt hook : string)
    (n_impressions n_reach n_likes n_comments n_shares n_saves n_clicks : Z)
    (tags : pyval) : PostMetrics :=
  {| post_id := id; niche := niche_name; platform := platform_name;
     published_at := published; content_preview := str_take 120 content;
     format_type := fmt; hook_words := hook;
     impressions := n_impressions; reach := n_reach; likes := n_likes;
     comments := n_comments; shares := n_shares; saves := n_saves;
     clicks := n_clicks;
     engagement_rate := of_Z 0; comment_rate := of_Z 0; save_rate := of_Z 0;
     share_rate := of_Z 0; click_rate := of_Z 0;
     benchmark_delta := of_Z 0; composite_score := of_Z 0;
     hashtags := tags; notes := "" |}.

Section CsvParsers.

Variable _detect_format : string -> string.

(** The body of the loop of [_parse_linkedin_csv]. *)
Definition parse_linkedin_row (row : gmap string string) : result PostMetrics :=
  let content := csv_text row "Post Content" (csv_text row "content" "") in
  n_impressions ← _safe_int (csv_get row "Impressions" (VInt 0));
  n_reach ← _safe_int (csv_get row "Unique Views" (csv_get row "Reach" (VInt 0)));
  n_likes ← _safe_int (csv_get row "Likes" (csv_get row "Reactions" (VInt 0)));
  n_comments ← _safe_int (csv_get row "Comments" (VInt 0));
  n_shares ← _safe_int (csv_get row "Shares" (csv_get row "Reposts" (VInt 0)));
  n_clicks ← _safe_int (csv_get row "Clicks" (csv_get row "Link Clicks" (VInt 0)));
  p ← _compute_rates
        (new_post (csv_text row "Post ID" (csv_text row "id" ""))
           (_detect_niche content) "linkedin"
           (csv_text row "Date" (csv_text row "Published Date" ""))
           content (_detect_format content) (_extract_hook content)
           n_impressions n_reach n_likes n_comments n_shares 0 n_clicks (VList []));
  _score_post p.

(** The body of the loop of [_parse_instagram_csv]. *)
Definition parse_instagram_row (row : gmap string string) : result PostMetrics :=
  let content := csv_text row "Description" (csv_text row "Caption" (csv_text row "Text" "")) in
  n_impressions ← _safe_int (csv_get row "Impressions" (VInt 0));
  n_reach ← _safe_int (csv_get row "Reach" (csv_get row "Accounts Reached" (VInt 0)));
  n_likes ← _safe_int (csv_get row "Likes" (VInt 0));
  n_comments ← _safe_int (csv_get row "Comments" (VInt 0));
  n_shares ← _safe_int (csv_get row "Shares" (VInt 0));
  n_saves ← _safe_int (csv_get row "Saves" (csv_get row "Bookmarks" (VInt 0)));
  n_clicks ← _safe_int (csv_get row "Profile Visits" (csv_get row "Link Clicks" (VInt 0)));
  p ← _compute_rates
        (new_post (csv_text row "Post ID" (csv_text row "Media ID" ""))
           (_detect_niche content) "instagram"
           (csv_text row "Date Published" (csv_text row "Publish Time" ""))
           content (_detect_format content) (_extract_hook content)
           n_impressions n_reach n_likes n_comments n_shares n_saves n_clicks (VList []));
  _score_post p.

(** The body of the loop of [_parse_twitter_csv]. *)
Definition parse_twitter_row (row : gmap string string) : result PostMetrics :=
  let content := csv_text row "Tweet text" (csv_text row "text" "") in
  n_impressions ← _safe_int (csv_get row "impressions" (VInt 0));
  n_reach ← _safe_int (csv_get row "impressions" (VInt 0));
  n_likes ← _safe_int (csv_get row "likes" (csv_get row "favorites" (VInt 0)));
  n_comments ← _safe_int (csv_get row "replies" (VInt 0));
  n_shares ← _safe_int (csv_get row "retweets" (VInt 0));
  n_saves ← _safe_int (csv_get row "bookmarks" (VInt 0));
  n_clicks ← _safe_int (csv_get row "url clicks" (csv_get row "link_clicks" (VInt 0)));
  p ← _compute_rates
        (new_post (csv_text row "Tweet id" (csv_text row "id" ""))
           (_detect_niche content) "twitter"
           (csv_text row "time" (csv_text row "created_at" ""))
           content (_detect_format content) (_extract_hook content)
           n_impressions n_reach n_likes n_comments n_shares n_saves n_clicks (VList []));
  _score_post p.

Definition parse_rows (parse_row : gmap string string -> result PostMetrics)
    (rows : list (gmap string string)) : result (list PostMetrics) :=
  for_each (fun posts row => p ← parse_row row; mret (posts ++ [p])%list) rows [].

Definition _parse_linkedin_csv := parse_rows parse_linkedin_row.
Definition _parse_instagram_csv := parse_rows parse_instagram_row.
Definition _parse_twitter_csv := parse_rows parse_twitter_row.

(** The [.csv] branch of [load_posts_from_file], from the rows
    [_load_csv] returns: the platform is the given [source] or is read
    off the header of the first row, and a [source] that names none of
    the three parsers gets the LinkedIn one. *)
Definition csv_source (source : string) (first_row : gmap string string) : string :=
  let has k := bool_decide (is_Some (first_row !! k)) in
  if negb (String.eqb source "auto") then lower source
  else if has "Tweet text" || has "Tweet id" then "twitter"
  else if has "Description" || has "Media ID" || has "Accounts Reached" then "instagram"
  else "linkedin".

Definition load_csv_posts (source : string) (rows : list (gmap string string))
  : result (list PostMetrics) :=
  match rows with
  | [] => Ok []
  | first_row :: _ =>
    let src := csv_source source first_row in
    if String.eqb src "instagram" then _parse_instagram_csv rows
    else if String.eqb src "twitter" then _parse_twitter_csv rows
    else _parse_linkedin_csv rows
  end.

End CsvParsers.

(** ** The analysis loop of [summarize_week] and the top topics *)

(** [list(dict.fromkeys(xs))]: the distinct elements in first-seen order. *)
Definition dict_fromkeys (xs : list string) : list string :=
  foldl (fun keys x => if bool_decide (x ∈ keys) then keys else (keys ++ [x])%list) [] xs.

(** The optional niche and platform filters of [summarize_week]; the
    empty string stands for [None] (both are falsy). *)
Definition apply_filters (niche_filter platform_filter : string) (posts : list PostMetrics)
  : result (list PostMetrics) :=
  let posts := if bool_decide (niche_filter = "") then posts
               else filter (fun p => niche p = niche_filter) posts in
  let posts := if bool_decide (platform_filter = "") then posts
               else filter (fun p => platform p = platform_filter) posts in
  match posts with
  | [] => Raise ValueError
  | _ => Ok posts
  end.

Section AnalysisLoop.

Variable set_rank : list string -> string -> Z.
Variable fromisoformat : string -> iso_result.

(** "Analyze per niche x platform": the nested loop that fills
    [performances]. *)
Definition summarize_week_performances (posts : list PostMetrics)
  : result (list NichePerformance) :=
  let niches := dict_fromkeys (niche <$> posts) in
  let platforms := dict_fromkeys (platform <$> posts) in
  for_each (fun performances niche_name =>
              for_each (fun performances plat =>
                          perf ← _analyze_niche set_rank fromisoformat posts niche_name plat;
                          mret (match perf with
                                | Some pf => (performances ++ [pf])%list
                                | None => performances
                                end))
                       platforms performances)
           niches [].

End AnalysisLoop.

Record TopicInsight := {
  title : string;
  avg_engagement : pyfloat;
  topic_post_count : Z;
  topic_format_type : string;
  best_post_id : string;
}.

(** [_extract_top_topics] *)
Definition _extract_top_topics (performances : list NichePerformance) : list TopicInsight :=
  let '(topics, _) :=
    foldl (fun '(topics, seen) post =>
             let key := lower (str_take 60 (content_preview post)) in
             if bool_decide (key ∈ (seen : gset string)) then (topics, seen)
             else ((topics ++ [{| title := str_take 80 (content_preview post);
                                  avg_engagement := engagement_rate post;
                                  topic_post_count := 1;
                                  topic_format_type := format_type post;
                                  best_post_id := post_id post |}])%list,
                   {[key]} ∪ seen))
          ([], ∅)
          (concat ((fun perf => take 2 (top_performers perf)) <$> performances)) in
  take 6 (sorted_desc avg_engagement topics).

(** [get_top_topics(brief, niche, n)] for [n >= 0], from
    [brief.top_topics] and [brief.niche_performances]; the empty string
    stands for [niche=None]. *)
Definition get_top_topics (top_topics : list TopicInsight)
    (niche_performances : list NichePerformance) (niche_name : string) (n : nat)
  : list TopicInsight :=
  let topics :=
    if bool_decide (niche_name = "") then top_topics
    else
      match filter (fun p => np_niche p = niche_name) niche_performances with
      | [] => top_topics
      | perfs =>
        let niche_post_ids : gset string :=
          list_to_set (post_id <$> concat (top_performers <$> perfs)) in
        filter (fun t => best_post_id t ∈ niche_post_ids) top_topics
      end in
  take n topics.

(** The exit code of [main] after the report is printed: 1 when some
    niche is below its benchmark. *)
Definition exit_code (niche_performances : list NichePerformance) : Z :=
  match filter (fun p => benchmark_status p = "BELOW") niche_performances with
  | [] => 0
  | _ => 1
  end.

(** ** Vocabulary of the statements *)

Definition is_pos_fin (x : pyfloat) : bool :=
  match x with Fin t => 0 <? t | _ => false end.

(** Every benchmark a lookup in [NICHE_BENCHMARKS] can return. *)
Definition all_benchmarks : list benchmark := bench_ttbp :: (snd <$> NICHE_BENCHMARKS).

(** The click bonus and the sum of the five components of [_score_post]. *)
Definition click_component (rate : pyfloat) : pyfloat :=
  py_min (of_Z 10) (fmul rate (of_Z 5)).

Definition sum5 (e c s sh cl : pyfloat) : pyfloat :=
  fadd (fadd (fadd (fadd e c) s) sh) cl.

(** [rate_le x y]: the rate is held fixed or raised. *)
Definition rate_le (x y : pyfloat) : Prop := x = y \/ fleb x y = true.

(** [raise_one_rate p p']: [p'] is [p] with exactly one of its five rates
    replaced by a rate at least as large; niche, platform and the other
    four rates are those of [p]. *)
Inductive raise_one_rate : PostMetrics -> PostMetrics -> Prop :=
| raise_engagement_rate p r :
    fleb (engagement_rate p) r = true ->
    raise_one_rate p (set_rates p r (comment_rate p) (save_rate p) (share_rate p) (click_rate p))
| raise_comment_rate p r :
    fleb (comment_rate p) r = true ->
    raise_one_rate p (set_rates p (engagement_rate p) r (save_rate p) (share_rate p) (click_rate p))
| raise_save_rate p r :
    fleb (save_rate p) r = true ->
    raise_one_rate p (set_rates p (engagement_rate p) (comment_rate p) r (share_rate p) (click_rate p))
| raise_share_rate p r :
    fleb (share_rate p) r = true ->
    raise_one_rate p (set_rates p (engagement_rate p) (comment_rate p) (save_rate p) r (click_rate p))
| raise_click_rate p r :
    fleb (click_rate p) r = true ->
    raise_one_rate p (set_rates p (engagement_rate p) (comment_rate p) (save_rate p) (share_rate p) r).

(** A post with the given identity, likes and rates, every other counter
    as in the scenarios of the specification. *)
Definition sample_post (id niche_name platform_name : string)
    (n_impressions n_reach n_likes n_comments : Z) : PostMetrics :=
  {| post_id := id; niche := niche_name; platform := platform_name;
     published_at := ""; content_preview := ""; format_type := "unknown";
     hook_words := "";
     impressions := n_impressions; reach := n_reach; likes := n_likes;
     comments := n_comments; shares := 0; saves := 0; clicks := 0;
     engagement_rate := of_Z 0; comment_rate := of_Z 0; save_rate := of_Z 0;
     share_rate := of_Z 0; click_rate := of_Z 0;
     benchmark_delta := of_Z 0; composite_score := of_Z 0;
     hashtags := VList []; notes := "" |}.

(** [round((num / base) * 100, 2)] as a value, [num / base] being the
    double nearest to the quotient. *)
Definition rate_formula (num base : Z) : pyfloat :=
  py_round 2 (fmul (lit num base) (of_Z 100)).

(** Hashtags the code cannot slice: a true bool, a non-zero int, a
    non-zero float or NaN (a falsy value is skipped before the slice). *)
Definition unsliceable (tags : pyval) : bool :=
  match tags with
  | VBool b => b
  | VInt n => negb (n =? 0)
  | VFloat x => negb (bool_decide (x = Fin 0))
  | _ => false
  end.

Definition is_naive (d : iso_result) : bool :=
  match d with IsoNaive _ => true | _ => false end.

Definition is_aware (d : iso_result) : bool :=
  match d with IsoAware _ => true | _ => false end.

(** Dates that [min] and [max] can compare: all naive, or all aware. *)
Definition dates_comparable (l : list iso_result) : bool :=
  forallb is_naive l || forallb is_aware l.

(** A group on which the niche aggregator returns: every post has
    hashtags it can slice (or none), and the dates that parse can be
    compared with each other. *)
Definition summarizable (fromisoformat : string -> iso_result) (group : list PostMetrics)
  : bool :=
  forallb (fun p => negb (unsliceable (hashtags p))) group
  && dates_comparable (published_dates fromisoformat group).

(** Every (niche, platform) group the analysis loop of [summarize_week]
    visits is summarizable. *)
Definition all_summarizable (fromisoformat : string -> iso_result) (posts : list PostMetrics)
  : bool :=
  forallb (fun niche_name =>
             forallb (fun plat =>
                        summarizable fromisoformat (niche_group posts niche_name plat))
                     (dict_fromkeys (platform <$> posts)))
          (dict_fromkeys (niche <$> posts)).

(** De-duplication as the specification words it: every text once, at
    the place of its first occurrence. *)
Fixpoint first_occurrences (l : list string) : list string :=
  match l with
  | [] => []
  | x :: l' => x :: filter (fun y => y <> x) (first_occurrences l')
  end.



(** What the parsers do with a freshly built post: rates, then score. *)
Definition rate_and_score (p : PostMetrics) : result PostMetrics :=
  p' ← _compute_rates p; _score_post p'.

(** The three LinkedIn posts of the scenario, in the order given. *)
Definition post_likes_10 : PostMetrics := sample_post "likes-10" "ttbp" "linkedin" 1000 0 10 5.
Definition post_likes_50 : PostMetrics := sample_post "likes-50" "ttbp" "linkedin" 1000 0 50 5.
Definition post_likes_100 : PostMetrics := sample_post "likes-100" "ttbp" "linkedin" 1000 0 100 5.

Definition scenario_scored : result (list PostMetrics) :=
  mapM rate_and_score [post_likes_10; post_likes_50; post_likes_100].

(** A ranking that tells no two strings apart. *)
Definition flat_rank : list string -> string -> Z := fun _ _ => 0.

(** The rule of [_detect_patterns] that emits a finding: 1 for the format
    gap, 2 high saves, 3 high comments, 4 low performers. *)
Definition rule_priority (f : finding) : nat :=
  match f with
  | FormatOverperforms _ _ _ _ | FormatUnderperforms _ _ _ => 1
  | HighSave _ => 2
  | HighComment _ => 3
  | LowPerformers _ => 4
  end.

(** The format a format-gap finding is about. *)
Definition gap_format (f : finding) : option string :=
  match f with
  | FormatOverperforms fmt _ _ _ | FormatUnderperforms fmt _ _ => Some fmt
  | _ => None
  end.

(** [score_ge p q]: [p] ranks at least as high as [q]. *)
Definition score_ge (p q : PostMetrics) : Prop :=
  fleb (composite_score q) (composite_score p) = true.

(** The date of a post as the period filter reads it, and what the
    filter decides from it. *)
Definition parsed_date (fromisoformat : string -> iso_result) (p : PostMetrics) : iso_result :=
  fromisoformat (date_part (published_at p)).

Definition timezone_free (fromisoformat : string -> iso_result) (posts : list PostMetrics) : Prop :=
  Forall (fun p => forall t, parsed_date fromisoformat p <> IsoAware t) posts.

Definition in_period (fromisoformat : string -> iso_result) (cutoff : Z) (p : PostMetrics) : bool :=
  match parsed_date fromisoformat p with
  | IsoValueError => true
  | IsoNaive dt => cutoff <=? dt
  | IsoAware _ => false
  end.

(** A post published on the given date. *)
Definition dated_post (id date : string) : PostMetrics :=
  {| post_id := id; niche := "ttbp"; platform := "linkedin";
     published_at := date; content_preview := ""; format_type := "unknown";
     hook_words := "";
     impressions := 0; reach := 0; likes := 0; comments := 0; shares := 0;
     saves := 0; clicks := 0;
     engagement_rate := of_Z 0; comment_rate := of_Z 0; save_rate := of_Z 0;
     share_rate := of_Z 0; click_rate := of_Z 0;
     benchmark_delta := of_Z 0; composite_score := of_Z 0;
     hashtags := VList []; notes := "" |}.

(** 2024-06-10T12:00:00 *)
Definition noon_2024_06_10 : Z :=
  (ymd_to_ordinal 2024 6 10 - 1) * day_us + 12 * 3600 * 1000000.

(** Keys under which [_parse_contentstudio_json] reads a counter. *)
Definition numeric_keys : list string :=
  ["impressions"; "reach"; "likes"; "reactions"; "comments"; "shares";
   "reposts"; "saves"; "bookmarks"; "link_clicks"; "clicks"].

(** A value that does not read as an int. *)
Definition malformed (val : pyval) : Prop := exists e, int_of_cleaned val = Raise e.

(** The content and the platform of a row, as the parser looks them up. *)
Definition item_content (item : gmap string pyval) : pyval :=
  dict_get item "message" (dict_get item "content" (dict_get item "caption" (VStr ""))).

Definition item_platform (item : gmap string pyval) : pyval :=
  dict_get item "platform" (dict_get item "social_account_type" (VStr "linkedin")).

(** The text fields of the row are strings (a niche may be absent or
    empty). *)
Definition text_fields_ok (item : gmap string pyval) : Prop :=
  (exists s, item_content item = VStr s) /\
  (exists s, item_platform item = VStr s) /\
  (truthy (dict_get item "niche" VNone) = true ->
   exists s, dict_get item "niche" VNone = VStr s).

(** Every counter of the row is missing or malformed. *)
Definition counters_missing_or_malformed (item : gmap string pyval) : Prop :=
  forall k, k ∈ numeric_keys ->
    match item !! k with
    | None => True
    | Some val => malformed val
    end.

(** A row that names a platform outside linkedin, instagram, twitter. *)
Definition tiktok_row : gmap string pyval :=
  <["platform" := VStr "TikTok"]> (<["message" := VStr "hello"]> (<["likes" := VStr "12"]> ∅)).

(** The value of a hardware double, to compare the model with the
    kernel's binary64 arithmetic. *)
Definition of_prim (x : PrimFloat.float) : pyfloat :=
  match Prim2SF x with
  | S754_zero _ => Fin 0
  | S754_infinity false => PInf
  | S754_infinity true => NInf
  | S754_nan => NaN
  | S754_finite s m e =>
    let v := Z.pos m * 2 ^ (e + 1074) in Fin (if s then - v else v)
  end.

Definition value_of (m : result pyfloat) : pyfloat :=
  match m with
  | Ok x => x
  | Raise _ => NaN
  end.

(** The post with every raw counter multiplied by [k]. *)
Definition scale_counters (k : Z) (p : PostMetrics) : PostMetrics :=
  {| post_id := post_id p; niche := niche p; platform := platform p;
     published_at := published_at p; content_preview := content_preview p;
     format_type := format_type p; hook_words := hook_words p;
     impressions := k * impressions p; reach := k * reach p; likes := k * likes p;
     comments := k * comments p; shares := k * shares p; saves := k * saves p;
     clicks := k * clicks p;
     engagement_rate := engagement_rate p; comment_rate := comment_rate p;
     save_rate := save_rate p; share_rate := share_rate p; click_rate := click_rate p;
     benchmark_delta := benchmark_delta p; composite_score := composite_score p;
     hashtags := hashtags p; notes := notes p |}.

(** The post filed under another niche and platform. *)
Definition refile (niche_name platform_name : string) (p : PostMetrics) : PostMetrics :=
  {| post_id := post_id p; niche := niche_name; platform := platform_name;
     published_at := published_at p; content_preview := content_preview p;
     format_type := format_type p; hook_words := hook_words p;
     impressions := impressions p; reach := reach p; likes := likes p;
     comments := comments p; shares := shares p; saves := saves p;
     clicks := clicks p;
     engagement_rate := engagement_rate p; comment_rate := comment_rate p;
     save_rate := save_rate p; share_rate := share_rate p; click_rate := click_rate p;
     benchmark_delta := benchmark_delta p; composite_score := composite_score p;
     hashtags := hashtags p; notes := notes p |}.

Definition known_niches : list string := fst <$> NICHE_BENCHMARKS.
Definition known_platforms : list string := ["linkedin"; "instagram"; "twitter"].

(** The two fields [_score_post] writes. *)
Definition verdict (p : PostMetrics) : pyfloat * pyfloat :=
  (composite_score p, benchmark_delta p).

(** Number of pillar keywords of a niche found in the text, as
    [_detect_niche] counts them. *)
Definition pillar_hits (content : string) (config : benchmark) : Z :=
  Z.of_nat (length (filter (fun pillar => contains pillar (lower content) = true) (pillars config))).

(** Some line of the text is not blank. *)
Definition has_text (content : string) : Prop :=
  exists ln, ln ∈ split_on newline content /\ strip ln <> "".

(** A parser that, beside plain dates, reads one date and time with a
    UTC offset (no "T" in it, so the filter hands it over whole) as the
    timezone-aware datetime Python makes of it. *)
Definition fromisoformat_zoned (s : string) : iso_result :=
  if String.eqb s "2024-06-10 09:00:00+00:00"
  then IsoAware ((ymd_to_ordinal 2024 6 10 - 1) * day_us + 9 * 3600 * 1000000)
  else fromisoformat_date s.

(** The text [summarize_week] makes of a competitor's suggested response. *)
Definition competitor_suggestion (response : string) : string :=
  "[competitor] " +:+ response.

(** A row whose platform is a number: [.lower()] fails on it. *)
Definition numeric_platform_row : gmap string pyval :=
  <["platform" := VInt 5]> (<["message" := VStr "hello"]> ∅).

(** A LinkedIn CSV row with every interaction above the impressions. *)
Definition busy_linkedin_row : gmap string string :=
  <["Post Content" := "Stop guessing."]>
    (<["Impressions" := "100"]> (<["Likes" := "90"]> (<["Comments" := "40"]>
      (<["Shares" := "30"]> (<["Clicks" := "20"]> ∅))))).

(** The topic [_extract_top_topics] makes of a post, and the key under
    which it remembers it. *)
Definition topic_of (post : PostMetrics) : TopicInsight :=
  {| title := str_take 80 (content_preview post);
     avg_engagement := engagement_rate post;
     topic_post_count := 1;
     topic_format_type := format_type post;
     best_post_id := post_id post |}.

Definition topic_key (t : TopicInsight) : string := lower (str_take 60 (title t)).

(** * Properties *)

(** ** Rounding *)

Lemma rhe_spec a c : 0 < c ->
  let n := rhe a c in
  2 * a - c <= 2 * c * n <= 2 * a + c /\
  (2 * c * n = 2 * a + c -> Z.even n = true) /\
  (2 * c * n = 2 * a - c -> Z.even n = true).
Proof.
  intros Hc. cbv zeta. unfold rhe.
  pose proof (Z.div_mod a c ltac:(lia)) as Hdm.
  pose proof (Z.mod_pos_bound a c Hc) as Hb.
  set (q := a / c) in *. set (r := a mod c) in *.
  destruct (Z.compare_spec (2 * r) c) as [He|Hl|Hg].
  - destruct (Z.even q) eqn:Hev.
    + split; [nia|]. split; intros; [nia | assumption].
    + assert (Z.even (q + 1) = true).
      { rewrite Z.even_add, Hev. reflexivity. }
      split; [nia|]. split; intros; [assumption | nia].
  - split; [nia|]. split; intros; nia.
  - split; [nia|]. split; intros; nia.
Qed.

Lemma rhe_mono a c a' c' : 0 < c -> 0 < c' -> a * c' <= a' * c -> rhe a c <= rhe a' c'.
Proof.
  intros Hc Hc' Hle.
  destruct (rhe_spec a c Hc) as ([L U] & Eu & El).
  destruct (rhe_spec a' c' Hc') as ([L' U'] & Eu' & El').
  set (n := rhe a c) in *. set (n' := rhe a' c') in *.
  destruct (Z_le_gt_dec n n') as [|Hgt]; [assumption|exfalso].
  assert (H1 : 2 * c * c' * n <= (2 * a + c) * c') by nia.
  assert (H2 : (2 * a' - c') * c <= 2 * c * c' * n') by nia.
  assert (H3 : 2 * c * c' * (n' + 1) <= 2 * c * c' * n) by nia.
  assert (Hn : n = n' + 1) by nia.
  assert (E1 : 2 * c * n = 2 * a + c) by nia.
  assert (E2 : 2 * c' * n' = 2 * a' - c') by nia.
  specialize (Eu E1). specialize (El' E2).
  subst n. rewrite Hn, Z.even_add, El' in Eu. discriminate.
Qed.

Lemma rhe_exact n c : 0 < c -> rhe (n * c) c = n.
Proof.
  intros Hc. unfold rhe. rewrite Z.mod_mul, Z.div_mul by lia.
  destruct (Z.compare_spec (2 * 0) c); lia.
Qed.

Lemma rhe_opp a c : 0 < c -> rhe (- a) c = - rhe a c.
Proof.
  intros Hc.
  apply Z.le_antisymm.
  - destruct (rhe_spec a c Hc) as ([L U] & Eu & El).
    destruct (rhe_spec (-a) c Hc) as ([L' U'] & Eu' & El').
    set (n := rhe a c) in *. set (m := rhe (- a) c) in *.
    destruct (Z_le_gt_dec m (- n)) as [|Hgt]; [assumption|exfalso].
    assert (Hn : m = - n + 1) by nia.
    assert (E1 : 2 * c * m = 2 * (-a) + c) by nia.
    assert (E2 : 2 * c * n = 2 * a + c) by nia.
    specialize (Eu' E1). specialize (Eu E2).
    rewrite Hn, Z.even_add, Z.even_opp, Eu in Eu'. discriminate.
  - destruct (rhe_spec a c Hc) as ([L U] & Eu & El).
    destruct (rhe_spec (-a) c Hc) as ([L' U'] & Eu' & El').
    set (n := rhe a c) in *. set (m := rhe (- a) c) in *.
    destruct (Z_le_gt_dec (- n) m) as [|Hgt]; [assumption|exfalso].
    assert (Hn : - n = m + 1) by nia.
    assert (E1 : 2 * c * m = 2 * (-a) - c) by nia.
    assert (E2 : 2 * c * n = 2 * a - c) by nia.
    specialize (El' E1). specialize (El E2).
    assert (Hn' : n = - (m + 1)) by lia.
    rewrite Hn', Z.even_opp, Z.even_add, El' in El. discriminate.
Qed.

Lemma ulp_exp_nonneg a c : 0 <= ulp_exp a c.
Proof. unfold ulp_exp. lia. Qed.

Lemma ulp_exp_opp a c : ulp_exp (- a) c = ulp_exp a c.
Proof. unfold ulp_exp. rewrite Z.abs_opp. reflexivity. Qed.

(* magnitude bounds of a/c in its binade *)
Lemma ulp_exp_upper a c : 0 <= a -> 0 < c -> a < 2 ^ (53 + ulp_exp a c) * c.
Proof.
  intros Ha Hc. unfold ulp_exp. rewrite Z.abs_eq by lia.
  set (q := a / c).
  assert (Hq : 0 <= q) by (apply Z.div_pos; lia).
  assert (Hlt : q < 2 ^ (53 + Z.max 0 (Z.log2 q - 52))).
  { destruct (Z.eq_dec q 0) as [->|Hne].
    - apply Z.pow_pos_nonneg; lia.
    - pose proof (Z.log2_spec q ltac:(lia)) as [_ Hu].
      eapply Z.lt_le_trans; [exact Hu|].
      apply Z.pow_le_mono_r; lia. }
  pose proof (Z.div_mod a c ltac:(lia)) as Hdm.
  pose proof (Z.mod_pos_bound a c Hc) as Hb.
  fold q in Hdm. nia.
Qed.

Lemma ulp_exp_lower a c : 0 <= a -> 0 < c -> 0 < ulp_exp a c ->
  2 ^ (52 + ulp_exp a c) * c <= a.
Proof.
  intros Ha Hc. unfold ulp_exp. rewrite Z.abs_eq by lia.
  set (q := a / c). intros Hk.
  assert (Hq : 0 <= q) by (apply Z.div_pos; lia).
  assert (Hl2 : 52 < Z.log2 q) by lia.
  assert (Hqpos : 0 < q).
  { destruct (Z.eq_dec q 0) as [E|]; [rewrite E in Hl2; simpl in Hl2; lia | lia]. }
  pose proof (Z.log2_spec q Hqpos) as [Hl _].
  replace (52 + Z.max 0 (Z.log2 q - 52)) with (Z.log2 q) by lia.
  pose proof (Z.div_mod a c ltac:(lia)) as Hdm.
  pose proof (Z.mod_pos_bound a c Hc) as Hb.
  fold q in Hdm. nia.
Qed.

Lemma ulp_exp_mono a c a' c' : 0 <= a -> 0 < c -> 0 < c' -> a * c' <= a' * c ->
  ulp_exp a c <= ulp_exp a' c'.
Proof.
  intros Ha Hc Hc' Hle. unfold ulp_exp.
  assert (Ha' : 0 <= a') by nia.
  rewrite !Z.abs_eq by lia.
  assert (a / c <= a' / c').
  { apply Z.div_le_lower_bound; [lia|].
    pose proof (Z.div_mod a c ltac:(lia)) as Hdm.
    pose proof (Z.mod_pos_bound a c Hc) as Hb.
    (* c' * (a/c) <= a' *)
    assert (c * (c' * (a / c)) <= c * a') by nia.
    nia. }
  pose proof (Z.log2_le_mono _ _ H). lia.
Qed.

Lemma rnd_fin_mono_nonneg a c a' c' : 0 <= a -> 0 < c -> 0 < c' -> a * c' <= a' * c ->
  rnd_fin a c <= rnd_fin a' c'.
Proof.
  intros Ha Hc Hc' Hle. unfold rnd_fin.
  assert (Ha' : 0 <= a') by nia.
  pose proof (ulp_exp_mono a c a' c' Ha Hc Hc' Hle) as Hk.
  pose proof (ulp_exp_nonneg a c) as Hk0.
  pose proof (ulp_exp_upper a c Ha Hc) as Hup.
  set (k := ulp_exp a c) in *. set (k' := ulp_exp a' c') in *.
  assert (Hp : 0 < 2 ^ k) by (apply Z.pow_pos_nonneg; lia).
  assert (Hp' : 0 < 2 ^ k') by (apply Z.pow_pos_nonneg; lia).
  destruct (Z.eq_dec k k') as [E|Hne].
  - rewrite <- E. apply Z.mul_le_mono_nonneg_r; [lia|].
    apply rhe_mono; nia.
  - assert (Hlt : k < k') by lia.
    pose proof (ulp_exp_lower a' c' Ha' Hc' ltac:(fold k'; lia)) as Hlo. fold k' in Hlo.
    (* left <= 2^(53+k) <= 2^(52+k') <= right *)
    apply Z.le_trans with (2 ^ 53 * 2 ^ k).
    + apply Z.mul_le_mono_nonneg_r; [lia|].
      rewrite <- (rhe_exact (2 ^ 53) (c * 2 ^ k)) by nia.
      apply rhe_mono; try nia.
      rewrite Z.pow_add_r in Hup by lia. nia.
    + apply Z.le_trans with (2 ^ 52 * 2 ^ k').
      * rewrite <- !Z.pow_add_r by lia. apply Z.pow_le_mono_r; lia.
      * apply Z.mul_le_mono_nonneg_r; [lia|].
        rewrite <- (rhe_exact (2 ^ 52) (c' * 2 ^ k')) at 1 by nia.
        apply rhe_mono; try nia.
        rewrite Z.pow_add_r in Hlo by lia. nia.
Qed.

Lemma rnd_fin_opp a c : 0 < c -> rnd_fin (- a) c = - rnd_fin a c.
Proof.
  intros Hc. unfold rnd_fin. rewrite ulp_exp_opp.
  pose proof (ulp_exp_nonneg a c).
  rewrite rhe_opp; [lia|].
  apply Z.mul_pos_pos; [lia | apply Z.pow_pos_nonneg; lia].
Qed.

Lemma rnd_fin_0 c : 0 < c -> rnd_fin 0 c = 0.
Proof.
  intros Hc. unfold rnd_fin.
  change 0 with (0 * (c * 2 ^ ulp_exp 0 c)) at 1.
  rewrite rhe_exact; [lia|].
  apply Z.mul_pos_pos; [lia | apply Z.pow_pos_nonneg; [lia | apply ulp_exp_nonneg]].
Qed.

Lemma rnd_fin_mono a c a' c' : 0 < c -> 0 < c' -> a * c' <= a' * c ->
  rnd_fin a c <= rnd_fin a' c'.
Proof.
  intros Hc Hc' Hle.
  destruct (Z_le_gt_dec 0 a) as [Ha|Ha].
  - apply rnd_fin_mono_nonneg; assumption.
  - destruct (Z_le_gt_dec 0 a') as [Ha'|Ha'].
    + apply Z.le_trans with 0.
      * pose proof (rnd_fin_mono_nonneg 0 c (- a) c ltac:(lia) Hc Hc ltac:(nia)) as H.
        rewrite rnd_fin_0, rnd_fin_opp in H by assumption. lia.
      * rewrite <- (rnd_fin_0 c') by assumption.
        apply rnd_fin_mono_nonneg; lia.
    + pose proof (rnd_fin_mono_nonneg (- a') c' (- a) c ltac:(lia) Hc' Hc ltac:(nia)) as H.
      rewrite !rnd_fin_opp in H by assumption. lia.
Qed.

(** ** Order on floats *)

Lemma huge_u_pos : 0 < huge_u.
Proof. unfold huge_u. apply Z.pow_pos_nonneg; lia. Qed.

Lemma one_u_pos : 0 < one_u.
Proof. unfold one_u. apply Z.pow_pos_nonneg; lia. Qed.

#[global] Opaque one_u huge_u.

Lemma rnd_cases a c :
  (rnd a c = PInf /\ huge_u <= rnd_fin a c) \/
  (rnd a c = NInf /\ rnd_fin a c <= - huge_u) \/
  (rnd a c = Fin (rnd_fin a c) /\ - huge_u < rnd_fin a c < huge_u).
Proof.
  unfold rnd. cbv zeta.
  destruct (Z.leb_spec huge_u (rnd_fin a c)); [left; split; [reflexivity | lia] |].
  destruct (Z.leb_spec (rnd_fin a c) (- huge_u)); [right; left; split; [reflexivity | lia] |].
  right; right. split; [reflexivity | lia].
Qed.

Lemma rnd_mono a c a' c' : 0 < c -> 0 < c' -> a * c' <= a' * c ->
  fleb (rnd a c) (rnd a' c') = true.
Proof.
  intros Hc Hc' Hle.
  pose proof (rnd_fin_mono a c a' c' Hc Hc' Hle) as Hm.
  pose proof huge_u_pos as Hh.
  destruct (rnd_cases a c) as [[-> H1]|[[-> H1]|[-> H1]]];
    destruct (rnd_cases a' c') as [[-> H2]|[[-> H2]|[-> H2]]];
    simpl; try reflexivity; lia.
Qed.

Lemma rnd_not_nan a c : rnd a c <> NaN.
Proof. destruct (rnd_cases a c) as [[-> _]|[[-> _]|[-> _]]]; discriminate. Qed.

Lemma rnd_zero c : 0 < c -> rnd 0 c = Fin 0.
Proof.
  intros Hc. unfold rnd. rewrite rnd_fin_0 by assumption. cbv zeta.
  pose proof huge_u_pos.
  destruct (Z.leb_spec huge_u 0); [lia|].
  destruct (Z.leb_spec 0 (- huge_u)); [lia|]. reflexivity.
Qed.

Lemma fleb_refl x : x <> NaN -> fleb x x = true.
Proof. destruct x; simpl; intros; try reflexivity; [apply Z.leb_refl | congruence]. Qed.

Lemma fleb_trans x y z : fleb x y = true -> fleb y z = true -> fleb x z = true.
Proof.
  destruct x, y, z; simpl; intros H1 H2; try reflexivity; try discriminate.
  apply Z.leb_le. apply Z.leb_le in H1, H2. lia.
Qed.

Lemma fleb_not_nan_l x y : fleb x y = true -> x <> NaN.
Proof. destruct x; simpl; intros; discriminate. Qed.

Lemma fleb_not_nan_r x y : fleb x y = true -> y <> NaN.
Proof. destruct x, y; simpl; intros; discriminate. Qed.

Lemma fleb_fin_r x m : fleb x (Fin m) = true ->
  x = NInf \/ exists n, x = Fin n /\ n <= m.
Proof.
  destruct x; simpl; intros H; try discriminate.
  - right. exists n. split; [reflexivity | apply Z.leb_le; assumption].
  - left. reflexivity.
Qed.

Lemma fleb_fin_l x m : fleb (Fin m) x = true ->
  x = PInf \/ exists n, x = Fin n /\ m <= n.
Proof.
  destruct x; simpl; intros H; try discriminate.
  - right. exists n. split; [reflexivity | apply Z.leb_le; assumption].
  - left. reflexivity.
Qed.

(** ** Monotonicity of the operations *)

Lemma fadd_mono x x' y y' hx hy :
  fleb x x' = true -> fleb x' (Fin hx) = true ->
  fleb y y' = true -> fleb y' (Fin hy) = true ->
  fleb (fadd x y) (fadd x' y') = true.
Proof.
  intros Hx Hx' Hy Hy'.
  destruct (fleb_fin_r _ _ Hx') as [->|(a' & -> & Ha')];
    destruct (fleb_fin_r _ _ Hy') as [->|(b' & -> & Hb')];
    destruct x; simpl in Hx; try discriminate;
    destruct y; simpl in Hy; try discriminate; simpl; try reflexivity.
  - apply Z.leb_le in Hx, Hy. apply rnd_mono; lia.
  - destruct (rnd_cases (a' + b') 1) as [[-> _]|[[-> _]|[-> _]]]; reflexivity.
  - destruct (rnd_cases (a' + b') 1) as [[-> _]|[[-> _]|[-> _]]]; reflexivity.
  - destruct (rnd_cases (a' + b') 1) as [[-> _]|[[-> _]|[-> _]]]; reflexivity.
Qed.

Lemma fmul_mono_l x x' b : 0 < b -> fleb x x' = true ->
  fleb (fmul x (Fin b)) (fmul x' (Fin b)) = true.
Proof.
  intros Hb Hx. pose proof one_u_pos as Hu.
  assert (Hs : sgn_inf b = PInf) by (unfold sgn_inf; destruct (Z.ltb_spec 0 b); [reflexivity | lia]).
  assert (Hs' : sgn_inf (- b) = NInf) by (unfold sgn_inf; destruct (Z.ltb_spec 0 (- b)); [lia | reflexivity]).
  assert (Hb0 : (b =? 0) = false) by (apply Z.eqb_neq; lia).
  destruct x, x'; simpl in Hx; try discriminate; simpl; rewrite ?Hb0, ?Hs, ?Hs'; try reflexivity.
  - apply Z.leb_le in Hx. apply rnd_mono; [lia | lia |].
    apply Z.mul_le_mono_nonneg_r; [lia|]. apply Z.mul_le_mono_nonneg_r; lia.
  - destruct (rnd_cases (n * b) one_u) as [[-> _]|[[-> _]|[-> _]]]; reflexivity.
  - destruct (rnd_cases (n * b) one_u) as [[-> _]|[[-> _]|[-> _]]]; reflexivity.
Qed.

Lemma fdiv_pos_ok x t : 0 < t ->
  exists q, fdiv x (Fin t) = Ok q /\
    q = match x with
        | Fin a => rnd (a * one_u) t
        | PInf => PInf
        | NInf => NInf
        | NaN => NaN
        end.
Proof.
  intros Ht.
  assert (Hs : sgn_inf t = PInf) by (unfold sgn_inf; destruct (Z.ltb_spec 0 t); [reflexivity | lia]).
  assert (Hs' : sgn_inf (- t) = NInf) by (unfold sgn_inf; destruct (Z.ltb_spec 0 (- t)); [lia | reflexivity]).
  assert (Hlt : (0 <? t) = true) by (apply Z.ltb_lt; assumption).
  destruct t as [|t|t]; try lia.
  destruct x; simpl; rewrite ?Hs, ?Hs'; eexists; split; reflexivity.
Qed.

Lemma fdiv_mono_l x x' t : 0 < t -> fleb x x' = true ->
  exists q q', fdiv x (Fin t) = Ok q /\ fdiv x' (Fin t) = Ok q' /\ fleb q q' = true.
Proof.
  intros Ht Hx. pose proof one_u_pos as Hu.
  destruct (fdiv_pos_ok x t Ht) as (q & Hq & Eq).
  destruct (fdiv_pos_ok x' t Ht) as (q' & Hq' & Eq').
  exists q, q'. split; [assumption|]. split; [assumption|].
  subst q q'.
  destruct x, x'; simpl in Hx; try discriminate; try reflexivity.
  - apply Z.leb_le in Hx. apply rnd_mono; [lia | lia |].
    apply Z.mul_le_mono_nonneg_r; [lia|]. apply Z.mul_le_mono_nonneg_r; lia.
  - destruct (rnd_cases (n * one_u) t) as [[-> _]|[[-> _]|[-> _]]]; reflexivity.
  - destruct (rnd_cases (n * one_u) t) as [[-> _]|[[-> _]|[-> _]]]; reflexivity.
Qed.

Lemma py_round_mono nd x x' : 0 <= nd -> fleb x x' = true ->
  fleb (py_round nd x) (py_round nd x') = true.
Proof.
  intros Hnd Hx. pose proof one_u_pos as Hu.
  assert (Hp : 0 < 10 ^ nd) by (apply Z.pow_pos_nonneg; lia).
  destruct x, x'; simpl in Hx; try discriminate; try reflexivity.
  - unfold py_round. apply Z.leb_le in Hx.
    assert (Hr : rhe (n * 10 ^ nd) one_u <= rhe (n0 * 10 ^ nd) one_u).
    { apply rhe_mono; [lia | lia |].
      apply Z.mul_le_mono_nonneg_r; [lia|]. apply Z.mul_le_mono_nonneg_r; lia. }
    apply rnd_mono; [lia | lia |].
    apply Z.mul_le_mono_nonneg_r; [lia|]. apply Z.mul_le_mono_nonneg_r; lia.
  - unfold py_round.
    destruct (rnd_cases (rhe (n * 10 ^ nd) one_u * one_u) (10 ^ nd)) as [[-> _]|[[-> _]|[-> _]]]; reflexivity.
  - unfold py_round.
    destruct (rnd_cases (rhe (n * 10 ^ nd) one_u * one_u) (10 ^ nd)) as [[-> _]|[[-> _]|[-> _]]]; reflexivity.
Qed.

Lemma py_min_le_cap c z : c <> NaN -> fleb (py_min c z) c = true.
Proof.
  intros Hc. unfold py_min. destruct (fltb z c) eqn:E.
  - destruct z, c; simpl in *; try discriminate; try reflexivity.
    apply Z.leb_le. apply Z.ltb_lt in E. lia.
  - apply fleb_refl. assumption.
Qed.

Lemma py_min_mono c z z' : c <> NaN -> fleb z z' = true ->
  fleb (py_min c z) (py_min c z') = true.
Proof.
  intros Hc Hz. unfold py_min.
  destruct (fltb z c) eqn:E, (fltb z' c) eqn:E'; try assumption.
  - destruct z, c; simpl in *; try discriminate; try reflexivity.
    apply Z.leb_le. apply Z.ltb_lt in E. lia.
  - destruct z, z', c; simpl in *; try discriminate; try congruence; try reflexivity.
    apply Z.ltb_lt in E'. apply Z.ltb_ge in E. apply Z.leb_le in Hz. lia.
  - apply fleb_refl. assumption.
Qed.

Lemma py_min_ge_low lo c z : fleb lo c = true -> (fleb lo z = true \/ z = NaN) ->
  fleb lo (py_min c z) = true.
Proof.
  intros Hc [Hz | ->]; unfold py_min.
  - destruct (fltb z c); assumption.
  - destruct c; simpl; assumption.
Qed.

(** ** Doubles are closed under [round] *)

Lemma rhe_scale a c t : 0 < c -> 0 < t -> rhe (a * t) (c * t) = rhe a c.
Proof.
  intros Hc Ht. apply Z.le_antisymm; apply rhe_mono; nia.
Qed.

Lemma ulp_exp_scale a c t : 0 < c -> 0 < t -> ulp_exp (a * t) (c * t) = ulp_exp a c.
Proof.
  intros Hc Ht. unfold ulp_exp.
  rewrite Z.abs_mul, (Z.abs_eq t) by lia.
  rewrite Z.div_mul_cancel_r by lia. reflexivity.
Qed.

Lemma rnd_fin_scale a c t : 0 < c -> 0 < t -> rnd_fin (a * t) (c * t) = rnd_fin a c.
Proof.
  intros Hc Ht. unfold rnd_fin. rewrite ulp_exp_scale by assumption.
  pose proof (ulp_exp_nonneg a c) as Hk.
  assert (Hp : 0 < 2 ^ ulp_exp a c) by (apply Z.pow_pos_nonneg; lia).
  replace (c * t * 2 ^ ulp_exp a c) with (c * 2 ^ ulp_exp a c * t) by ring.
  rewrite rhe_scale by nia. reflexivity.
Qed.

Lemma rnd_scale a c t : 0 < c -> 0 < t -> rnd (a * t) (c * t) = rnd a c.
Proof. intros Hc Ht. unfold rnd. rewrite rnd_fin_scale by assumption. reflexivity. Qed.

(** The significand has at most 53 bits. *)
Lemma significand_bound a c : 0 <= a -> 0 < c ->
  0 <= rhe a (c * 2 ^ ulp_exp a c) <= 2 ^ 53.
Proof.
  intros Ha Hc.
  pose proof (ulp_exp_nonneg a c) as Hk.
  pose proof (ulp_exp_upper a c Ha Hc) as Hup.
  assert (Hp : 0 < 2 ^ ulp_exp a c) by (apply Z.pow_pos_nonneg; lia).
  assert (Hd : 0 < c * 2 ^ ulp_exp a c) by nia.
  split.
  - apply Z.le_trans with (rhe (0 * (c * 2 ^ ulp_exp a c)) (c * 2 ^ ulp_exp a c)).
    + rewrite rhe_exact by assumption. lia.
    + apply rhe_mono; nia.
  - apply Z.le_trans with (rhe (2 ^ 53 * (c * 2 ^ ulp_exp a c)) (c * 2 ^ ulp_exp a c)).
    + apply rhe_mono; try assumption.
      rewrite Z.pow_add_r in Hup by lia. nia.
    + rewrite rhe_exact by assumption. lia.
Qed.

Lemma rnd_fin_idem_nonneg a c : 0 <= a -> 0 < c ->
  rnd_fin (rnd_fin a c) 1 = rnd_fin a c.
Proof.
  intros Ha Hc.
  pose proof (significand_bound a c Ha Hc) as [Hr0 Hr1].
  pose proof (ulp_exp_nonneg a c) as Hk.
  unfold rnd_fin at 2 3. cbv zeta.
  set (k := ulp_exp a c) in *. set (r := rhe a (c * 2 ^ k)) in *.
  assert (Hp : 0 < 2 ^ k) by (apply Z.pow_pos_nonneg; lia).
  unfold rnd_fin.
  set (k' := ulp_exp (r * 2 ^ k) 1).
  assert (Hk' : 0 <= k') by apply ulp_exp_nonneg.
  assert (Hp' : 0 < 2 ^ k') by (apply Z.pow_pos_nonneg; lia).
  assert (Hdiv : exists q, r * 2 ^ k = q * 2 ^ k').
  { destruct (Z_le_gt_dec k' k) as [Hle|Hgt].
    - exists (r * 2 ^ (k - k')). rewrite <- Z.mul_assoc, <- Z.pow_add_r by lia.
      f_equal. f_equal. lia.
    - (* k' > k forces r = 2^53 *)
      assert (Hn : 0 < r * 2 ^ k).
      { destruct (Z.eq_dec r 0) as [E|]; [|nia].
        exfalso. unfold k', ulp_exp in Hgt. rewrite E in Hgt. simpl in Hgt. lia. }
      unfold k', ulp_exp in Hgt |- *.
      rewrite Z.abs_eq, Z.div_1_r in * by lia.
      assert (Hl : 53 + k <= Z.log2 (r * 2 ^ k)) by lia.
      apply Z.log2_le_pow2 in Hl; [|assumption].
      rewrite Z.pow_add_r in Hl by lia.
      assert (Er : r = 2 ^ 53) by nia.
      assert (El : Z.log2 (r * 2 ^ k) = 53 + k).
      { rewrite Er, <- Z.pow_add_r by lia. apply Z.log2_pow2. lia. }
      rewrite El. replace (Z.max 0 (53 + k - 52)) with (k + 1) by lia.
      exists (2 ^ 52). rewrite Er, <- !Z.pow_add_r by lia. f_equal. lia. }
  destruct Hdiv as (q & Hq).
  rewrite Z.mul_1_l. rewrite Hq at 1. rewrite rhe_exact by assumption.
  symmetry. exact Hq.
Qed.

Lemma rnd_fin_idem a c : 0 < c -> rnd_fin (rnd_fin a c) 1 = rnd_fin a c.
Proof.
  intros Hc. destruct (Z_le_gt_dec 0 a) as [Ha|Ha].
  - apply rnd_fin_idem_nonneg; assumption.
  - replace a with (- - a) by lia.
    rewrite (rnd_fin_opp (- a)), rnd_fin_opp by lia.
    rewrite rnd_fin_idem_nonneg by lia. reflexivity.
Qed.

(** A double is its own rounding. *)
Lemma rnd_idem a c n : 0 < c -> rnd a c = Fin n -> rnd n 1 = Fin n.
Proof.
  intros Hc H.
  destruct (rnd_cases a c) as [[E _]|[[E _]|[E Hb]]]; rewrite E in H; try discriminate.
  injection H as <-.
  unfold rnd. rewrite rnd_fin_idem by assumption.
  destruct (Z.leb_spec huge_u (rnd_fin a c)); [lia|].
  destruct (Z.leb_spec (rnd_fin a c) (- huge_u)); [lia|]. reflexivity.
Qed.

(** Rounding a double that is a whole number to [ndigits >= 0] decimals
    returns it. *)
Lemma py_round_whole nd m :
  0 <= nd -> rnd (m * one_u) 1 = Fin (m * one_u) ->
  py_round nd (Fin (m * one_u)) = Fin (m * one_u).
Proof.
  intros Hnd H. unfold py_round.
  pose proof one_u_pos as Hu.
  assert (Hp : 0 < 10 ^ nd) by (apply Z.pow_pos_nonneg; lia).
  replace (m * one_u * 10 ^ nd) with (m * 10 ^ nd * one_u) by ring.
  rewrite rhe_exact by assumption.
  replace (m * 10 ^ nd * one_u) with (m * one_u * 10 ^ nd) by ring.
  rewrite <- (Z.mul_1_l (10 ^ nd)) at 2.
  rewrite rnd_scale by lia. exact H.
Qed.

Lemma two_pow_1127 :
  rnd (2 ^ 53 * one_u) 1 = Fin (2 ^ 53 * one_u) /\
  rnd (- 2 ^ 53 * one_u) 1 = Fin (- 2 ^ 53 * one_u).
Proof. vm_compute. split; reflexivity. Qed.

(** A double from [2^53] on is a whole number. *)
Lemma large_double_whole a c :
  0 < c -> 2 ^ 53 * one_u < rnd_fin a c -> exists m, rnd_fin a c = m * one_u.
Proof.
  intros Hc Hbig.
  pose proof one_u_pos as Hu.
  assert (Ha : 0 <= a).
  { destruct (Z_le_gt_dec 0 a) as [|Hneg]; [assumption|exfalso].
    pose proof (rnd_fin_mono a c 0 c Hc Hc ltac:(nia)) as H.
    rewrite rnd_fin_0 in H by assumption. 
    assert (0 < 2 ^ 53) by (apply Z.pow_pos_nonneg; lia). nia. }
  pose proof (significand_bound a c Ha Hc) as [Hr0 Hr1].
  pose proof (ulp_exp_nonneg a c) as Hk.
  unfold rnd_fin in *. cbv zeta in *.
  set (k := ulp_exp a c) in *. set (r := rhe a (c * 2 ^ k)) in *.
  assert (Hk1 : 1074 <= k).
  { destruct (Z_le_gt_dec 1074 k) as [|Hlt]; [assumption|exfalso].
    assert (Hle : 2 ^ k <= 2 ^ 1074) by (apply Z.pow_le_mono_r; lia).
    assert (E : one_u = 2 ^ 1074) by reflexivity.
    assert (0 < 2 ^ k) by (apply Z.pow_pos_nonneg; lia).
    assert (0 < 2 ^ 53) by (apply Z.pow_pos_nonneg; lia).
    rewrite E in Hbig. nia. }
  exists (r * 2 ^ (k - 1074)).
  assert (E : one_u = 2 ^ 1074) by reflexivity.
  rewrite E, <- Z.mul_assoc, <- Z.pow_add_r by lia. f_equal. f_equal. lia.
Qed.

(** On a double, [round(x, ndigits)] with [ndigits >= 0] is again finite:
    the OverflowError of CPython's [round] cannot occur. *)
Lemma py_round_no_overflow nd a c n :
  0 <= nd -> 0 < c -> rnd a c = Fin n -> exists m, py_round nd (Fin n) = Fin m.
Proof.
  intros Hnd Hc H.
  pose proof (rnd_idem a c n Hc H) as Hidem.
  destruct (rnd_cases a c) as [[E _]|[[E _]|[E Hb]]]; rewrite E in H; try discriminate.
  injection H as <-.
  pose proof one_u_pos as Hu.
  destruct two_pow_1127 as [Tp Tn].
  destruct (Z_le_gt_dec (rnd_fin a c) (2 ^ 53 * one_u)) as [Hsmall|Hbig].
  - destruct (Z_le_gt_dec (- 2 ^ 53 * one_u) (rnd_fin a c)) as [Hsmall'|Hbig'].
    + (* between the two whole numbers, by monotonicity *)
      pose proof (py_round_mono nd (Fin (rnd_fin a c)) (Fin (2 ^ 53 * one_u)) Hnd
                    ltac:(simpl; apply Z.leb_le; exact Hsmall)) as Hup.
      pose proof (py_round_mono nd (Fin (- 2 ^ 53 * one_u)) (Fin (rnd_fin a c)) Hnd
                    ltac:(simpl; apply Z.leb_le; exact Hsmall')) as Hlo.
      rewrite (py_round_whole nd (2 ^ 53) Hnd Tp) in Hup.
      rewrite (py_round_whole nd (- 2 ^ 53) Hnd Tn) in Hlo.
      clear Tp Tn Hidem.
      destruct (py_round nd (Fin (rnd_fin a c))) as [m| | |];
        [exists m; reflexivity | discriminate Hup | discriminate Hlo | discriminate Hup].
    + (* a large negative double is the opposite of a large positive one *)
      assert (Hpos : 2 ^ 53 * one_u < rnd_fin (- a) c) by (rewrite rnd_fin_opp by assumption; lia).
      destruct (large_double_whole (- a) c Hc Hpos) as (m & Hm).
      rewrite rnd_fin_opp in Hm by assumption.
      assert (Em : rnd_fin a c = (- m) * one_u) by lia.
      rewrite Em in *. exists (- m * one_u). apply py_round_whole; assumption.
  - destruct (large_double_whole a c Hc ltac:(lia)) as (m & Hm).
    rewrite Hm in *. exists (m * one_u). apply py_round_whole; assumption.
Qed.

(** ** Agreement with hardware arithmetic *)

(** The model computes what the machine computes, on values of the kind
    the scorer meets and at the edges of the format (overflow, the
    smallest subnormal), and [py_round] rounds as CPython documents
    ([round(2.675, 2)] is 2.67, [round(0.125, 2)] is 0.12). *)
Lemma model_matches_binary64 :
  of_prim (15 / 1000)%float = lit 15 1000 /\
  of_prim (15 / 1000 * 100)%float = fmul (lit 15 1000) (of_Z 100) /\
  of_prim (3 / 10)%float = lit 3 10 /\
  of_prim (1 / 10 + 2 / 10)%float = fadd (lit 1 10) (lit 2 10) /\
  of_prim (3 * (14 / 10))%float = fmul (lit 30 10) (lit 14 10) /\
  of_prim (55 / 10 / (3 * (14 / 10)) * 50)%float
    = fmul (value_of (fdiv (lit 55 10) (fmul (lit 30 10) (lit 14 10)))) (of_Z 50) /\
  of_prim (15 / 10 - 3 * (6 / 10))%float
    = fsub (lit 15 10) (fmul (lit 30 10) (lit 6 10)) /\
  of_prim (0x1p1023 * 4)%float = fmul (Fin (2 ^ 1023 * 2 ^ 1074)) (of_Z 4) /\
  of_prim (0x1p-1074 / 2)%float = value_of (fdiv (Fin 1) (of_Z 2)) /\
  of_prim (0x1p-1070 * (3 / 10))%float = fmul (Fin 16) (lit 3 10) /\
  py_round 2 (lit 2675 1000) = lit 267 100 /\
  py_round 2 (lit 125 1000) = lit 12 100 /\
  py_round 1 (lit 25 100) = lit 2 10 /\
  py_round 2 (lit 1005 1000) = lit 1 1.
Proof. vm_compute. repeat split. Qed.

(** ** Benchmarks are positive *)

Lemma assoc_get_in {V} (d : list (string * V)) k dflt :
  assoc_get d k dflt ∈ dflt :: (snd <$> d).
Proof.
  induction d as [|[k' v] d IH]; simpl.
  - left.
  - destruct (String.eqb k k').
    + right. left.
    + apply elem_of_cons in IH as [->|IH]; [left | right; right; assumption].
Qed.

Lemma bench_of_in n : bench_of n ∈ all_benchmarks.
Proof. apply assoc_get_in. Qed.

Lemma benchmarks_positive :
  forallb (fun b =>
    is_pos_fin (comment_rate_target b) && is_pos_fin (save_rate_target b)
    && is_pos_fin (share_rate_target b)
    && forallb (fun s => is_pos_fin (fmul (engagement_target b) s))
         (lit 10 10 :: (snd <$> platform_scale b)))
    all_benchmarks = true.
Proof. vm_compute. reflexivity. Qed.

Lemma bench_targets_pos n :
  is_pos_fin (comment_rate_target (bench_of n)) = true /\
  is_pos_fin (save_rate_target (bench_of n)) = true /\
  is_pos_fin (share_rate_target (bench_of n)) = true /\
  forall pl, is_pos_fin (scaled_target_of n pl) = true.
Proof.
  pose proof benchmarks_positive as H.
  rewrite forallb_forall in H.
  specialize (H (bench_of n)).
  assert (Hin : In (bench_of n) all_benchmarks).
  { apply list_elem_of_In. apply bench_of_in. }
  specialize (H Hin).
  apply andb_prop in H as [H Hs]. apply andb_prop in H as [H H3].
  apply andb_prop in H as [H1 H2].
  repeat split; try assumption.
  intros pl. unfold scaled_target_of.
  rewrite forallb_forall in Hs. apply Hs.
  apply list_elem_of_In. apply assoc_get_in.
Qed.

Lemma is_pos_fin_inv x : is_pos_fin x = true -> exists t, x = Fin t /\ 0 < t.
Proof.
  destruct x; simpl; try discriminate.
  intros H. exists n. split; [reflexivity | apply Z.ltb_lt; assumption].
Qed.

(** ** Components of the composite score *)

Lemma of_Z_0 : of_Z 0 = Fin 0.
Proof. unfold of_Z, lit. simpl. apply rnd_zero. lia. Qed.

Lemma cap_values :
  of_Z 5 = Fin (5 * one_u) /\ of_Z 10 = Fin (10 * one_u) /\
  of_Z 15 = Fin (15 * one_u) /\ of_Z 50 = Fin (50 * one_u) /\
  of_Z 100 = Fin (100 * one_u).
Proof. vm_compute. repeat split. Qed.

Lemma cap_sums :
  fadd (Fin (50 * one_u)) (Fin (15 * one_u)) = Fin (65 * one_u) /\
  fadd (Fin (65 * one_u)) (Fin (15 * one_u)) = Fin (80 * one_u) /\
  fadd (Fin (80 * one_u)) (Fin (10 * one_u)) = Fin (90 * one_u) /\
  fadd (Fin (90 * one_u)) (Fin (10 * one_u)) = Fin (100 * one_u) /\
  fadd (Fin 0) (Fin 0) = Fin 0 /\
  py_round 1 (Fin 0) = Fin 0 /\
  py_round 1 (Fin (100 * one_u)) = Fin (100 * one_u).
Proof. vm_compute. repeat split. Qed.

Lemma fmul_zero_l b : fmul (Fin 0) (Fin b) = Fin 0.
Proof. unfold fmul. rewrite Z.mul_0_l. apply rnd_zero. apply one_u_pos. Qed.

Lemma scaled_cap_le cu x : 0 < cu ->
  fleb (py_min (Fin cu) x) (Fin cu) = true.
Proof. intros _. apply py_min_le_cap. discriminate. Qed.

Lemma scaled_nonneg cu x : 0 < cu -> fleb (Fin 0) x = true ->
  fleb (Fin 0) (py_min (Fin cu) (fmul x (Fin cu))) = true.
Proof.
  intros Hcu Hx. apply py_min_ge_low.
  - simpl. apply Z.leb_le. lia.
  - left. pose proof (fmul_mono_l (Fin 0) x cu Hcu Hx) as H.
    rewrite fmul_zero_l in H. exact H.
Qed.

Lemma component_ok cap cu rate target :
  of_Z cap = Fin cu -> 0 < cu -> is_pos_fin target = true ->
  exists c, capped_component cap rate target = Ok c /\
    fleb c (Fin cu) = true /\
    (fleb (Fin 0) rate = true -> fleb (Fin 0) c = true).
Proof.
  intros Hcap Hcu Ht.
  apply is_pos_fin_inv in Ht as (t & -> & Ht).
  unfold capped_component. rewrite of_Z_0, Hcap.
  assert (Hg : fgtb (Fin t) (Fin 0) = true) by (simpl; apply Z.ltb_lt; assumption).
  rewrite Hg.
  destruct (fdiv_pos_ok rate t Ht) as (q & Hq & Eq).
  rewrite Hq. simpl.
  eexists. split; [reflexivity|]. split.
  - apply scaled_cap_le. assumption.
  - intros Hr. apply scaled_nonneg; [assumption|].
    destruct (fdiv_mono_l (Fin 0) rate t Ht Hr) as (q0 & q' & H0 & H' & Hle).
    rewrite Hq in H'. injection H' as <-.
    simpl in H0. destruct t; try lia.
    simpl in H0. rewrite rnd_zero in H0 by lia.
    injection H0 as <-. exact Hle.
Qed.

Lemma component_mono cap cu rate rate' target :
  of_Z cap = Fin cu -> 0 < cu -> is_pos_fin target = true ->
  fleb rate rate' = true ->
  exists c c', capped_component cap rate target = Ok c /\
    capped_component cap rate' target = Ok c' /\ fleb c c' = true.
Proof.
  intros Hcap Hcu Ht Hr.
  apply is_pos_fin_inv in Ht as (t & -> & Ht).
  unfold capped_component. rewrite of_Z_0, Hcap.
  assert (Hg : fgtb (Fin t) (Fin 0) = true) by (simpl; apply Z.ltb_lt; assumption).
  rewrite Hg.
  destruct (fdiv_mono_l rate rate' t Ht Hr) as (q & q' & Hq & Hq' & Hle).
  rewrite Hq, Hq'. simpl.
  eexists. eexists. split; [reflexivity|]. split; [reflexivity|].
  apply py_min_mono; [discriminate|].
  apply fmul_mono_l; assumption.
Qed.

Lemma fleb_self_of_le c m : fleb c m = true -> fleb c c = true.
Proof. intros H. apply fleb_refl. eapply fleb_not_nan_l. exact H. Qed.

Lemma click_le x : fleb (click_component x) (Fin (10 * one_u)) = true.
Proof.
  unfold click_component. destruct cap_values as (-> & -> & _).
  apply py_min_le_cap. discriminate.
Qed.

Lemma click_nonneg x : fleb (Fin 0) x = true -> fleb (Fin 0) (click_component x) = true.
Proof.
  intros Hx. unfold click_component. destruct cap_values as (-> & -> & _).
  pose proof one_u_pos.
  apply py_min_ge_low.
  - simpl. apply Z.leb_le. lia.
  - left. pose proof (fmul_mono_l (Fin 0) x (5 * one_u) ltac:(lia) Hx) as H5.
    rewrite fmul_zero_l in H5. exact H5.
Qed.

Lemma click_mono x x' : fleb x x' = true ->
  fleb (click_component x) (click_component x') = true.
Proof.
  intros Hx. unfold click_component. destruct cap_values as (-> & -> & _).
  pose proof one_u_pos.
  apply py_min_mono; [discriminate|].
  apply fmul_mono_l; [lia | assumption].
Qed.

Lemma fleb_fin_refl n : fleb (Fin n) (Fin n) = true.
Proof. apply fleb_refl. discriminate. Qed.

Lemma fadd_le_caps x y hx hy h :
  fadd (Fin hx) (Fin hy) = Fin h ->
  fleb x (Fin hx) = true -> fleb y (Fin hy) = true ->
  fleb (fadd x y) (Fin h) = true.
Proof.
  intros E Hx Hy. rewrite <- E.
  exact (fadd_mono x (Fin hx) y (Fin hy) hx hy Hx (fleb_fin_refl hx) Hy (fleb_fin_refl hy)).
Qed.

Lemma sum5_mono e c s sh cl e' c' s' sh' cl' :
  fleb e e' = true -> fleb e' (Fin (50 * one_u)) = true ->
  fleb c c' = true -> fleb c' (Fin (15 * one_u)) = true ->
  fleb s s' = true -> fleb s' (Fin (15 * one_u)) = true ->
  fleb sh sh' = true -> fleb sh' (Fin (10 * one_u)) = true ->
  fleb cl cl' = true -> fleb cl' (Fin (10 * one_u)) = true ->
  fleb (sum5 e c s sh cl) (sum5 e' c' s' sh' cl') = true /\
  fleb (sum5 e' c' s' sh' cl') (Fin (100 * one_u)) = true.
Proof.
  intros He He' Hc Hc' Hs Hs' Hsh Hsh' Hcl Hcl'.
  destruct cap_sums as (E1 & E2 & E3 & E4 & _).
  pose proof (fadd_le_caps _ _ _ _ _ E1 He' Hc') as B1.
  pose proof (fadd_le_caps _ _ _ _ _ E2 B1 Hs') as B2.
  pose proof (fadd_le_caps _ _ _ _ _ E3 B2 Hsh') as B3.
  pose proof (fadd_le_caps _ _ _ _ _ E4 B3 Hcl') as B4.
  pose proof (fadd_mono _ _ _ _ _ _ He He' Hc Hc') as M1.
  pose proof (fadd_mono _ _ _ _ _ _ M1 B1 Hs Hs') as M2.
  pose proof (fadd_mono _ _ _ _ _ _ M2 B2 Hsh Hsh') as M3.
  pose proof (fadd_mono _ _ _ _ _ _ M3 B3 Hcl Hcl') as M4.
  unfold sum5. split; assumption.
Qed.

Lemma sum5_nonneg e c s sh cl :
  fleb (Fin 0) e = true -> fleb e (Fin (50 * one_u)) = true ->
  fleb (Fin 0) c = true -> fleb c (Fin (15 * one_u)) = true ->
  fleb (Fin 0) s = true -> fleb s (Fin (15 * one_u)) = true ->
  fleb (Fin 0) sh = true -> fleb sh (Fin (10 * one_u)) = true ->
  fleb (Fin 0) cl = true -> fleb cl (Fin (10 * one_u)) = true ->
  fleb (Fin 0) (sum5 e c s sh cl) = true.
Proof.
  intros He He' Hc Hc' Hs Hs' Hsh Hsh' Hcl Hcl'.
  destruct cap_sums as (_ & _ & _ & _ & E0 & _).
  pose proof (sum5_mono (Fin 0) (Fin 0) (Fin 0) (Fin 0) (Fin 0) e c s sh cl
                He He' Hc Hc' Hs Hs' Hsh Hsh' Hcl Hcl') as [H _].
  unfold sum5 in H at 1. rewrite !E0 in H. exact H.
Qed.

Lemma score_post_unfold p :
  exists e c s sh,
    capped_component 50 (engagement_rate p) (scaled_target_of (niche p) (platform p)) = Ok e /\
    capped_component 15 (comment_rate p) (comment_rate_target (bench_of (niche p))) = Ok c /\
    capped_component 15 (save_rate p) (save_rate_target (bench_of (niche p))) = Ok s /\
    capped_component 10 (share_rate p) (share_rate_target (bench_of (niche p))) = Ok sh /\
    _score_post p =
      Ok (set_score p (py_round 1 (sum5 e c s sh (click_component (click_rate p))))
            (py_round 2 (fsub (engagement_rate p) (scaled_target_of (niche p) (platform p))))).
Proof.
  destruct (bench_targets_pos (niche p)) as (P1 & P2 & P3 & P4).
  destruct cap_values as (_ & V10 & V15 & V50 & _).
  pose proof one_u_pos.
  destruct (component_ok 50 _ (engagement_rate p) _ V50 ltac:(lia) (P4 (platform p))) as (e & He & _).
  destruct (component_ok 15 _ (comment_rate p) _ V15 ltac:(lia) P1) as (c & Hc & _).
  destruct (component_ok 15 _ (save_rate p) _ V15 ltac:(lia) P2) as (s & Hs & _).
  destruct (component_ok 10 _ (share_rate p) _ V10 ltac:(lia) P3) as (sh & Hsh & _).
  exists e, c, s, sh. repeat (split; [assumption|]).
  unfold _score_post. rewrite He, Hc, Hs, Hsh. reflexivity.
Qed.

Lemma component_rate_le cap cu rate rate' target :
  of_Z cap = Fin cu -> 0 < cu -> is_pos_fin target = true ->
  rate_le rate rate' ->
  exists c c', capped_component cap rate target = Ok c /\
    capped_component cap rate' target = Ok c' /\
    fleb c c' = true /\ fleb c' (Fin cu) = true.
Proof.
  intros Hcap Hcu Ht [<- | Hr].
  - destruct (component_ok cap cu rate target Hcap Hcu Ht) as (c & Hc & Hle & _).
    exists c, c. repeat split; try assumption.
    eapply fleb_self_of_le. exact Hle.
  - destruct (component_mono cap cu rate rate' target Hcap Hcu Ht Hr) as (c & c' & Hc & Hc' & Hle).
    destruct (component_ok cap cu rate' target Hcap Hcu Ht) as (c2 & Hc2 & Hle2 & _).
    rewrite Hc' in Hc2. injection Hc2 as <-.
    exists c, c'. repeat split; assumption.
Qed.

Lemma click_rate_le x x' : rate_le x x' ->
  fleb (click_component x) (click_component x') = true.
Proof.
  intros [<- | H].
  - eapply fleb_self_of_le. apply click_le.
  - apply click_mono. assumption.
Qed.

(** Raising rates pointwise never lowers the composite score. *)
Lemma score_post_mono p p' :
  niche p = niche p' -> platform p = platform p' ->
  rate_le (engagement_rate p) (engagement_rate p') ->
  rate_le (comment_rate p) (comment_rate p') ->
  rate_le (save_rate p) (save_rate p') ->
  rate_le (share_rate p) (share_rate p') ->
  rate_le (click_rate p) (click_rate p') ->
  exists q q', _score_post p = Ok q /\ _score_post p' = Ok q' /\
    fleb (composite_score q) (composite_score q') = true.
Proof.
  intros Hn Hpl Re Rc Rs Rsh Rcl.
  destruct (score_post_unfold p) as (e & c & s & sh & He & Hc & Hs & Hsh & Hp).
  destruct (score_post_unfold p') as (e' & c' & s' & sh' & He' & Hc' & Hs' & Hsh' & Hp').
  rewrite <- Hn in He', Hc', Hs', Hsh'. rewrite <- Hpl in He'.
  destruct (bench_targets_pos (niche p)) as (P1 & P2 & P3 & P4).
  destruct cap_values as (_ & V10 & V15 & V50 & _).
  pose proof one_u_pos.
  destruct (component_rate_le 50 _ _ _ _ V50 ltac:(lia) (P4 (platform p)) Re) as (x & x' & X & X' & Le & Be).
  rewrite He in X. rewrite He' in X'. injection X as <-. injection X' as <-.
  destruct (component_rate_le 15 _ _ _ _ V15 ltac:(lia) P1 Rc) as (x & x' & X & X' & Lc & Bc).
  rewrite Hc in X. rewrite Hc' in X'. injection X as <-. injection X' as <-.
  destruct (component_rate_le 15 _ _ _ _ V15 ltac:(lia) P2 Rs) as (x & x' & X & X' & Ls & Bs).
  rewrite Hs in X. rewrite Hs' in X'. injection X as <-. injection X' as <-.
  destruct (component_rate_le 10 _ _ _ _ V10 ltac:(lia) P3 Rsh) as (x & x' & X & X' & Lsh & Bsh).
  rewrite Hsh in X. rewrite Hsh' in X'. injection X as <-. injection X' as <-.
  eexists. eexists. split; [exact Hp|]. split; [exact Hp'|].
  simpl composite_score.
  apply py_round_mono; [lia|].
  apply (sum5_mono e c s sh _ e' c' s' sh' _); try assumption.
  - apply click_rate_le. assumption.
  - apply click_le.
Qed.

(** ** C5, C6: range and monotonicity of the composite score *)

(** C5. For every post whose five rates are non-negative, [_score_post]
    returns, and the composite score it stores lies in the closed
    interval from 0 to 100. *)
Theorem composite_score_in_range p :
  fleb (of_Z 0) (engagement_rate p) = true ->
  fleb (of_Z 0) (comment_rate p) = true ->
  fleb (of_Z 0) (save_rate p) = true ->
  fleb (of_Z 0) (share_rate p) = true ->
  fleb (of_Z 0) (click_rate p) = true ->
  exists q, _score_post p = Ok q /\
    fleb (of_Z 0) (composite_score q) = true /\
    fleb (composite_score q) (of_Z 100) = true.
Proof.
  rewrite of_Z_0. intros Ne Nc Ns Nsh Ncl.
  destruct (score_post_unfold p) as (e & c & s & sh & He & Hc & Hs & Hsh & Hp).
  destruct (bench_targets_pos (niche p)) as (P1 & P2 & P3 & P4).
  destruct cap_values as (_ & V10 & V15 & V50 & V100).
  destruct cap_sums as (_ & _ & _ & _ & _ & R0 & R100).
  pose proof one_u_pos.
  destruct (component_ok 50 _ (engagement_rate p) _ V50 ltac:(lia) (P4 (platform p))) as (x & X & Be & Le).
  rewrite He in X. injection X as <-.
  destruct (component_ok 15 _ (comment_rate p) _ V15 ltac:(lia) P1) as (x & X & Bc & Lc).
  rewrite Hc in X. injection X as <-.
  destruct (component_ok 15 _ (save_rate p) _ V15 ltac:(lia) P2) as (x & X & Bs & Ls).
  rewrite Hs in X. injection X as <-.
  destruct (component_ok 10 _ (share_rate p) _ V10 ltac:(lia) P3) as (x & X & Bsh & Lsh).
  rewrite Hsh in X. injection X as <-.
  pose proof (click_le (click_rate p)) as Bcl.
  pose proof (click_nonneg _ Ncl) as Lcl.
  eexists. split; [exact Hp|].
  simpl composite_score. rewrite V100. split.
  - rewrite <- R0. apply py_round_mono; [lia|].
    apply sum5_nonneg; auto.
  - rewrite <- R100. apply py_round_mono; [lia|].
    apply (sum5_mono e c s sh (click_component (click_rate p))
                    e c s sh (click_component (click_rate p))); try assumption;
      eapply fleb_self_of_le; eassumption.
Qed.

Lemma composite_score_in_range_witness :
  exists q, _score_post (set_rates (sample_post "p1" "ttbp" "linkedin" 1000 0 10 5)
                           (lit 15 10) (lit 5 10) (of_Z 0) (of_Z 0) (of_Z 0)) = Ok q /\
    fleb (of_Z 0) (composite_score q) = true /\
    fleb (composite_score q) (of_Z 100) = true.
Proof.
  apply composite_score_in_range; vm_compute; reflexivity.
Defined.

(** C6. The composite score is monotonically non-decreasing in each of
    its five rate inputs taken separately: when one rate of a post is
    replaced by a rate at least as large, niche, platform and the other
    four rates unchanged, [_score_post] returns on both posts and the
    composite score of the second is not below that of the first. *)
Theorem composite_score_monotone p p' :
  raise_one_rate p p' ->
  exists q q', _score_post p = Ok q /\ _score_post p' = Ok q' /\
    fleb (composite_score q) (composite_score q') = true.
Proof.
  intros H. destruct H as [p r Hr|p r Hr|p r Hr|p r Hr|p r Hr];
    apply score_post_mono; simpl; try reflexivity;
    first [ right; exact Hr | left; reflexivity ].
Qed.

Lemma composite_score_monotone_witness :
  exists q q',
    _score_post (sample_post "p1" "ttbp" "linkedin" 1000 0 10 5) = Ok q /\
    _score_post (set_rates (sample_post "p1" "ttbp" "linkedin" 1000 0 10 5)
                   (lit 15 10) (of_Z 0) (of_Z 0) (of_Z 0) (of_Z 0)) = Ok q' /\
    fleb (composite_score q) (composite_score q') = true.
Proof.
  apply (composite_score_monotone (sample_post "p1" "ttbp" "linkedin" 1000 0 10 5)).
  apply (raise_engagement_rate (sample_post "p1" "ttbp" "linkedin" 1000 0 10 5) (lit 15 10)).
  vm_compute. reflexivity.
Defined.

(** ** C7: the rate calculator never divides by zero *)

Lemma rate_base_pos p : 1 <= rate_base p.
Proof. unfold rate_base. destruct (Z.ltb_spec 0 (impressions p)); lia. Qed.

Lemma rate_of_cases num base : 0 < base ->
  (rate_of num base = Ok (rate_formula num base) /\ is_finite (lit num base) = true) \/
  (rate_of num base = Raise OverflowError /\ is_finite (lit num base) = false).
Proof.
  intros Hb. unfold rate_of, rate_formula, int_truediv, lit.
  assert (E0 : (base =? 0) = false) by (apply Z.eqb_neq; lia).
  assert (E1 : (0 <? base) = true) by (apply Z.ltb_lt; lia).
  rewrite E0, E1.
  destruct (rnd (num * one_u) base) eqn:E; simpl; auto.
Qed.

Lemma exact_pow_1000 :
  rnd_fin (2 ^ 1000 * one_u) 1 = 2 ^ 1000 * one_u /\
  (2 ^ 1000 * one_u <? huge_u) = true.
Proof. vm_compute. split; reflexivity. Qed.

Lemma lit_finite num base :
  0 <= num -> num < 2 ^ 1000 -> 0 < base -> is_finite (lit num base) = true.
Proof.
  intros H0 H1 Hb. unfold lit.
  pose proof one_u_pos as Hu. pose proof huge_u_pos as Hh.
  destruct exact_pow_1000 as [Ex Hlt]. apply Z.ltb_lt in Hlt.
  assert (Hup : rnd_fin (num * one_u) base <= 2 ^ 1000 * one_u).
  { rewrite <- Ex. apply rnd_fin_mono; [lia | lia |].
    rewrite Z.mul_1_r.
    apply Z.le_trans with (2 ^ 1000 * one_u * 1); [|apply Z.mul_le_mono_nonneg_l; lia].
    rewrite Z.mul_1_r. apply Z.mul_le_mono_nonneg_r; lia. }
  assert (Hlo : 0 <= rnd_fin (num * one_u) base).
  { rewrite <- (rnd_fin_0 1) by lia. apply rnd_fin_mono; [lia | lia |].
    rewrite Z.mul_0_l, Z.mul_1_r. apply Z.mul_nonneg_nonneg; lia. }
  destruct (rnd_cases (num * one_u) base) as [[_ H]|[[_ H]|[-> _]]]; [lia | lia | reflexivity].
Qed.

Lemma compute_rates_cases p :
  _compute_rates p =
    Ok (set_rates p
          (rate_formula (likes p + comments p + shares p + saves p) (rate_base p))
          (rate_formula (comments p) (rate_base p))
          (rate_formula (saves p) (rate_base p))
          (rate_formula (shares p) (rate_base p))
          (rate_formula (clicks p) (rate_base p)))
  \/ _compute_rates p = Raise OverflowError.
Proof.
  pose proof (rate_base_pos p) as Hb.
  unfold _compute_rates.
  destruct (rate_of_cases (likes p + comments p + shares p + saves p) (rate_base p) ltac:(lia))
    as [[-> _]|[-> _]]; [|right; reflexivity].
  destruct (rate_of_cases (comments p) (rate_base p) ltac:(lia)) as [[-> _]|[-> _]];
    [|right; reflexivity].
  destruct (rate_of_cases (saves p) (rate_base p) ltac:(lia)) as [[-> _]|[-> _]];
    [|right; reflexivity].
  destruct (rate_of_cases (shares p) (rate_base p) ltac:(lia)) as [[-> _]|[-> _]];
    [|right; reflexivity].
  destruct (rate_of_cases (clicks p) (rate_base p) ltac:(lia)) as [[-> _]|[-> _]];
    [|right; reflexivity].
  left. reflexivity.
Qed.

Lemma rate_of_small num base :
  0 <= num -> num < 2 ^ 1000 -> 0 < base -> rate_of num base = Ok (rate_formula num base).
Proof.
  intros H0 H1 Hb.
  destruct (rate_of_cases num base Hb) as [[H _]|[_ H]]; [assumption|].
  rewrite lit_finite in H by assumption. discriminate.
Qed.

Lemma compute_rates_small p :
  0 <= likes p -> 0 <= comments p -> 0 <= shares p -> 0 <= saves p -> 0 <= clicks p ->
  likes p + comments p + shares p + saves p < 2 ^ 1000 -> clicks p < 2 ^ 1000 ->
  _compute_rates p =
    Ok (set_rates p
          (rate_formula (likes p + comments p + shares p + saves p) (rate_base p))
          (rate_formula (comments p) (rate_base p))
          (rate_formula (saves p) (rate_base p))
          (rate_formula (shares p) (rate_base p))
          (rate_formula (clicks p) (rate_base p))).
Proof.
  intros Hl Hc Hsh Hs Hcl Ht Hk.
  pose proof (rate_base_pos p) as Hb.
  unfold _compute_rates.
  rewrite !rate_of_small by lia. reflexivity.
Qed.




















(** ** The result monad *)

Lemma bind_ok {A B} (a : A) (f : A -> result B) : (Ok a ≫= f) = f a.
Proof. reflexivity. Qed.

Lemma fmap_ok {A B} (a : A) (f : A -> B) : f <$> Ok a = Ok (f a).
Proof. reflexivity. Qed.

Lemma for_each_cons {A S} (body : S -> A -> result S) x xs acc :
  for_each body (x :: xs) acc = body acc x ≫= for_each body xs.
Proof. reflexivity. Qed.

Lemma for_each_nil {A S} (body : S -> A -> result S) acc :
  for_each body [] acc = Ok acc.
Proof. reflexivity. Qed.

(** ** Sorting *)

Lemma insert_by_perm {A} (before : A -> A -> bool) x l :
  insert_by before x l ≡ₚ x :: l.
Proof.
  induction l as [|y l IH]; simpl; [reflexivity|].
  destruct (before y x); [|reflexivity].
  rewrite IH. apply Permutation_swap.
Qed.

Lemma sort_by_perm {A} (before : A -> A -> bool) l : sort_by before l ≡ₚ l.
Proof.
  induction l as [|x l IH]; simpl; [reflexivity|].
  unfold sort_by in *. simpl. rewrite insert_by_perm, IH. reflexivity.
Qed.

Lemma sort_by_length {A} (before : A -> A -> bool) l :
  length (sort_by before l) = length l.
Proof. apply Permutation_length, sort_by_perm. Qed.

Lemma fltb_true_fleb x y : fltb x y = true -> fleb x y = true.
Proof. destruct x, y; simpl; intros H; try discriminate; try reflexivity. lia. Qed.

Lemma fltb_false_fleb x y : x <> NaN -> y <> NaN -> fltb x y = false -> fleb y x = true.
Proof. destruct x, y; simpl; intros Hx Hy H; try discriminate; try reflexivity; try congruence. lia. Qed.

Lemma insert_desc_sorted {A} (key : A -> pyfloat) x l :
  key x <> NaN -> Forall (fun y => key y <> NaN) l ->
  StronglySorted (fun p q => fleb (key q) (key p) = true) l ->
  StronglySorted (fun p q => fleb (key q) (key p) = true)
    (insert_by (fun y x => fltb (key x) (key y)) x l).
Proof.
  intros Hx Hl Hs. induction Hs as [|y l Hs IH Hy]; simpl.
  - repeat constructor.
  - apply Forall_cons in Hl as [Hyn Hl].
    destruct (fltb (key x) (key y)) eqn:E.
    + constructor; [apply IH; assumption|].
      rewrite (insert_by_perm _ x l). constructor; [|assumption].
      apply fltb_true_fleb. assumption.
    + constructor; [constructor; assumption|].
      constructor.
      * apply fltb_false_fleb; assumption.
      * eapply Forall_impl; [exact Hy|]. simpl. intros z Hz.
        eapply fleb_trans; [exact Hz|]. apply fltb_false_fleb; assumption.
Qed.

Lemma sorted_desc_sorted {A} (key : A -> pyfloat) l :
  Forall (fun y => key y <> NaN) l ->
  StronglySorted (fun p q => fleb (key q) (key p) = true) (sorted_desc key l).
Proof.
  unfold sorted_desc, sort_by. induction 1 as [|x l Hx Hl IH]; simpl.
  - constructor.
  - apply insert_desc_sorted; [assumption| |assumption].
    eapply Forall_forall. intros y Hy.
    rewrite Forall_forall in Hl. apply Hl.
    pose proof (sort_by_perm (fun y x => fltb (key x) (key y)) l) as P.
    unfold sort_by in P. rewrite <- P. assumption.
Qed.

(** ** Statistics never fail on data *)

Lemma fdiv_ok x y : y <> Fin 0 -> exists q, fdiv x y = Ok q.
Proof.
  intros Hy. destruct x, y as [[| |]| | |]; simpl; try congruence; eexists; reflexivity.
Qed.

Lemma rnd_fin_one : rnd_fin (1 * one_u) 1 = one_u.
Proof. vm_compute. reflexivity. Qed.

Lemma of_Z_nonzero n : 0 < n -> of_Z n <> Fin 0.
Proof.
  intros Hn. unfold of_Z, lit.
  pose proof one_u_pos as Hu.
  assert (H : rnd_fin (1 * one_u) 1 <= rnd_fin (n * one_u) 1).
  { apply rnd_fin_mono; [lia | lia |].
    rewrite !Z.mul_1_r. apply Z.mul_le_mono_nonneg_r; lia. }
  rewrite rnd_fin_one in H.
  destruct (rnd_cases (n * one_u) 1) as [[-> _]|[[-> _]|[-> _]]]; try discriminate.
  intros E. injection E as E. lia.
Qed.

Lemma mean_ok xs : xs <> [] -> exists m, mean xs = Ok m.
Proof.
  intros Hne. destruct xs as [|x xs]; [congruence|].
  unfold mean.
  destruct (filter (fun x0 => is_finite x0 = false) (x :: xs)); [eexists; reflexivity|].
  apply fdiv_ok. apply of_Z_nonzero. rewrite length_cons. lia.
Qed.

Lemma median_ok xs : xs <> [] -> exists m, median xs = Ok m.
Proof.
  intros Hne. unfold median.
  pose proof (sort_by_length (fun y x => fltb y x) xs) as Hlen.
  fold (sorted_floats xs) in Hlen.
  destruct (length (sorted_floats xs)) as [|n] eqn:E.
  - destruct xs; [congruence | simpl in Hlen; lia].
  - destruct (Nat.odd (S n)); [eexists; reflexivity|].
    apply fdiv_ok. apply of_Z_nonzero. lia.
Qed.

(** ** C8: the pattern detector *)

Lemma StronglySorted_lookup_le {A} (R : relation A) `{!Reflexive R} l i j x y :
  StronglySorted R l -> (i <= j)%nat -> l !! i = Some x -> l !! j = Some y -> R x y.
Proof.
  intros Hs. revert i j. induction Hs as [|z l Hs IH Hz]; intros i j Hij Hi Hj.
  - rewrite lookup_nil in Hi. discriminate.
  - destruct i as [|i], j as [|j]; simpl in *.
    + injection Hi as <-. injection Hj as <-. reflexivity.
    + injection Hi as <-. rewrite Forall_forall in Hz. apply Hz.
      eapply list_elem_of_lookup_2. exact Hj.
    + lia.
    + eapply IH; [|exact Hi|exact Hj]. lia.
Qed.

Lemma setdefault_append_nonempty k v d :
  Forall (fun e : string * list pyfloat => snd e <> []) d ->
  Forall (fun e : string * list pyfloat => snd e <> []) (setdefault_append k v d).
Proof.
  induction 1 as [|[k' vs] d Hk Hd IH]; simpl.
  - constructor; [discriminate | constructor].
  - destruct (String.eqb k k').
    + constructor; [|assumption]. simpl. destruct vs; discriminate.
    + constructor; assumption.
Qed.

Lemma format_engagement_nonempty posts :
  Forall (fun e : string * list pyfloat => snd e <> []) (format_engagement posts).
Proof.
  unfold format_engagement.
  assert (G : forall d, Forall (fun e : string * list pyfloat => snd e <> []) d ->
              Forall (fun e : string * list pyfloat => snd e <> [])
                (foldl (fun d p => setdefault_append (format_type p) (engagement_rate p) d) d posts)).
  { induction posts as [|p posts IH]; intros d Hd; simpl; [assumption|].
    apply IH. apply setdefault_append_nonempty. assumption. }
  apply G. constructor.
Qed.

Section PatternProperties.

Variable set_rank : list string -> string -> Z.

Lemma dominant_ok formats :
  formats <> [] -> exists d, dominant_format set_rank formats = Ok d.
Proof.
  intros Hne. unfold dominant_format, set_elements.
  destruct (sort_by (fun y x => set_rank formats y <? set_rank formats x) (remove_dups formats))
    as [|f fs] eqn:E.
  - exfalso.
    pose proof (sort_by_length (fun y x => set_rank formats y <? set_rank formats x)
                  (remove_dups formats)) as Hlen.
    rewrite E in Hlen. simpl in Hlen.
    destruct formats as [|f formats]; [congruence|].
    assert (Hin : f ∈ remove_dups (f :: formats)) by (apply elem_of_remove_dups; left).
    destruct (remove_dups (f :: formats)); [inversion Hin | simpl in Hlen; lia].
  - simpl. eexists. reflexivity.
Qed.

Lemma format_gap_step fmt_eng acc fmt rates :
  rates <> [] ->
  exists new, format_gap fmt_eng acc (fmt, rates) = Ok (acc ++ new)%list /\
    Forall (fun f => rule_priority f = 1%nat) new /\
    omap gap_format new `sublist_of` [fmt].
Proof.
  intros Hne. unfold format_gap.
  destruct (mean_ok rates Hne) as (avg & ->). rewrite bind_ok.
  destruct (concat ((fun kv : string * list pyfloat =>
                       if String.eqb (fst kv) fmt then [] else snd kv) <$> fmt_eng))
    as [|o others] eqn:E.
  - exists []. rewrite app_nil_r. split; [reflexivity|].
    split; [constructor | apply sublist_nil_l].
  - destruct (mean_ok (o :: others) ltac:(discriminate)) as (others_avg & ->).
    rewrite bind_ok.
    destruct (fgtb avg (fmul others_avg (lit 15 10))).
    + eexists [_]. split; [reflexivity|].
      split; [repeat constructor | reflexivity].
    + destruct (fltb avg (fmul others_avg (lit 7 10))).
      * eexists [_]. split; [reflexivity|].
        split; [repeat constructor | reflexivity].
      * exists []. rewrite app_nil_r. split; [reflexivity|].
        split; [constructor | apply sublist_nil_l].
Qed.

Lemma format_gap_loop fmt_eng entries acc :
  Forall (fun e : string * list pyfloat => snd e <> []) entries ->
  exists gaps, for_each (format_gap fmt_eng) entries acc = Ok (acc ++ gaps)%list /\
    Forall (fun f => rule_priority f = 1%nat) gaps /\
    omap gap_format gaps `sublist_of` (fst <$> entries).
Proof.
  intros H. revert acc. induction H as [|[fmt rates] entries Hne Hrest IH]; intros acc.
  - exists []. rewrite app_nil_r. split; [reflexivity|].
    split; [constructor | reflexivity].
  - simpl in Hne.
    destruct (format_gap_step fmt_eng acc fmt rates Hne) as (new & Hstep & Hnew & Hsub).
    destruct (IH (acc ++ new)%list) as (gaps & Hloop & Hgaps & Hsub').
    exists (new ++ gaps)%list.
    split.
    + rewrite for_each_cons, Hstep, bind_ok, Hloop, app_assoc. reflexivity.
    + split; [apply Forall_app; split; assumption|].
      rewrite omap_app. rewrite fmap_cons. simpl.
      change (fmt :: (fst <$> entries)) with ([fmt] ++ (fst <$> entries))%list.
      apply sublist_app; assumption.
Qed.

(** The findings before the cap: the format gaps, then at most one
    finding of each later rule. *)
Lemma detect_patterns_shape posts :
  exists gaps hs hc lo,
    _detect_patterns set_rank posts = Ok (take 5 (gaps ++ hs ++ hc ++ lo))%list /\
    Forall (fun f => rule_priority f = 1%nat) gaps /\
    omap gap_format gaps `sublist_of` (fst <$> format_engagement posts) /\
    (hs = [] \/ exists d, hs = [HighSave d]) /\
    (hc = [] \/ exists d, hc = [HighComment d]) /\
    (lo = [] \/ exists d, lo = [LowPerformers d]).
Proof.
  unfold _detect_patterns. destruct posts as [|p0 posts0].
  { exists [], [], [], []. split; [reflexivity|].
    split; [constructor|]. split; [apply sublist_nil_l|]. auto. }
  set (posts := p0 :: posts0).
  destruct (format_gap_loop (format_engagement posts) (format_engagement posts) []
              (format_engagement_nonempty posts)) as (gaps & -> & Hgaps & Hsub).
  rewrite bind_ok, app_nil_l.
  exists gaps.
  set (high_save := filter (fun p => fgtb (save_rate p) (lit 5 10) = true) posts).
  set (high_comment := filter (fun p => fgtb (comment_rate p) (lit 5 10) = true) posts).
  set (low := filter (fun p => fltb (benchmark_delta p) (lit (-15) 10) = true) posts).
  assert (Hs : exists hs, (if (2 <=? length high_save)%nat
                then dominant_format set_rank (format_type <$> high_save) ≫=
                       (fun dominant => mret (gaps ++ [HighSave dominant])%list)
                else mret gaps) = Ok (gaps ++ hs)%list /\
                (hs = [] \/ exists d, hs = [HighSave d])).
  { destruct (Nat.leb_spec 2 (length high_save)) as [Hlen|Hlen].
    - destruct (dominant_ok (format_type <$> high_save)) as (d & ->).
      { destruct high_save; [simpl in Hlen; lia | discriminate]. }
      exists [HighSave d]. split; [reflexivity|]. right. exists d. reflexivity.
    - exists []. rewrite app_nil_r. split; [reflexivity|]. left. reflexivity. }
  destruct Hs as (hs & -> & Hhs). rewrite bind_ok. exists hs.
  assert (Hc : exists hc, (match high_comment with
                | [] => mret (gaps ++ hs)%list
                | _ => dominant_format set_rank (format_type <$> high_comment) ≫=
                         (fun dominant => mret ((gaps ++ hs) ++ [HighComment dominant])%list)
                end) = Ok ((gaps ++ hs) ++ hc)%list /\
                (hc = [] \/ exists d, hc = [HighComment d])).
  { destruct high_comment as [|h hcs] eqn:E.
    - exists []. rewrite app_nil_r. split; [reflexivity|]. left. reflexivity.
    - destruct (dominant_ok (format_type <$> (h :: hcs))) as (d & ->); [discriminate|].
      exists [HighComment d]. split; [reflexivity|]. right. exists d. reflexivity. }
  destruct Hc as (hc & -> & Hhc). rewrite bind_ok. exists hc.
  assert (Hl : exists lo, (if (2 <=? length low)%nat
                then dominant_format set_rank (format_type <$> low) ≫=
                       (fun dominant => mret (((gaps ++ hs) ++ hc) ++ [LowPerformers dominant])%list)
                else mret ((gaps ++ hs) ++ hc)%list) = Ok (((gaps ++ hs) ++ hc) ++ lo)%list /\
                (lo = [] \/ exists d, lo = [LowPerformers d])).
  { destruct (Nat.leb_spec 2 (length low)) as [Hlen|Hlen].
    - destruct (dominant_ok (format_type <$> low)) as (d & ->).
      { destruct low; [simpl in Hlen; lia | discriminate]. }
      exists [LowPerformers d]. split; [reflexivity|]. right. exists d. reflexivity.
    - exists []. rewrite app_nil_r. split; [reflexivity|]. left. reflexivity. }
  destruct Hl as (lo & -> & Hlo). rewrite bind_ok. exists lo.
  split.
  { rewrite <- !app_assoc. reflexivity. }
  repeat split; assumption.
Qed.

Lemma findings_in_rule_order gaps hs hc lo :
  Forall (fun f => rule_priority f = 1%nat) gaps ->
  (hs = [] \/ exists d, hs = [HighSave d]) ->
  (hc = [] \/ exists d, hc = [HighComment d]) ->
  (lo = [] \/ exists d, lo = [LowPerformers d]) ->
  StronglySorted (fun f g => (rule_priority f <= rule_priority g)%nat)
    (gaps ++ hs ++ hc ++ lo)%list.
Proof.
  intros Hg Hs Hc Hl.
  assert (Bs : Forall (fun f => rule_priority f = 2%nat) hs).
  { destruct Hs as [->|(d & ->)]; repeat constructor. }
  assert (Bc : Forall (fun f => rule_priority f = 3%nat) hc).
  { destruct Hc as [->|(d & ->)]; repeat constructor. }
  assert (Bl : Forall (fun f => rule_priority f = 4%nat) lo).
  { destruct Hl as [->|(d & ->)]; repeat constructor. }
  assert (Same : forall n (l : list finding),
            Forall (fun f => rule_priority f = n) l ->
            StronglySorted (fun f g => (rule_priority f <= rule_priority g)%nat) l).
  { intros n l H. induction H as [|f l Hf Hl' IH]; constructor; [assumption|].
    eapply Forall_impl; [exact Hl'|]. simpl. intros g Hg'. lia. }
  rewrite Forall_forall in Hg, Bs, Bc, Bl.
  repeat apply StronglySorted_app_2; eauto using Forall_forall.
  - intros f g Hf Hin. specialize (Hg f Hf).
    rewrite !elem_of_app in Hin. destruct Hin as [Hin|[Hin|Hin]];
      [specialize (Bs g Hin) | specialize (Bc g Hin) | specialize (Bl g Hin)]; lia.
  - apply (Same 1%nat). apply Forall_forall. assumption.
  - intros f g Hf Hin. specialize (Bs f Hf).
    rewrite !elem_of_app in Hin. destruct Hin as [Hin|Hin];
      [specialize (Bc g Hin) | specialize (Bl g Hin)]; lia.
  - apply (Same 2%nat). apply Forall_forall. assumption.
  - intros f g Hf Hin. specialize (Bc f Hf). specialize (Bl g Hin). lia.
  - apply (Same 3%nat). apply Forall_forall. assumption.
  - apply (Same 4%nat). apply Forall_forall. assumption.
Qed.

(** C8. For every list of posts [_detect_patterns] returns, with at most
    5 findings; whenever one finding stands before another its rule does
    not come later (format gaps, then high saves, then high comments,
    then low performers), and the format-gap findings name their formats
    in the order in which the formats first occur in the posts: the
    findings are the first 5 computed, whatever their magnitudes. *)
Theorem detect_patterns_capped_in_rule_order posts :
  exists found,
    _detect_patterns set_rank posts = Ok found /\
    (length found <= 5)%nat /\
    (forall i j f g, (i <= j)%nat -> found !! i = Some f -> found !! j = Some g ->
       (rule_priority f <= rule_priority g)%nat) /\
    omap gap_format found `sublist_of` (fst <$> format_engagement posts).
Proof.
  destruct (detect_patterns_shape posts) as (gaps & hs & hc & lo & Hrun & Hg & Hsub & Hs & Hc & Hl).
  eexists. split; [exact Hrun|].
  pose proof (findings_in_rule_order gaps hs hc lo Hg Hs Hc Hl) as Hsorted.
  set (all := (gaps ++ hs ++ hc ++ lo)%list) in *.
  split; [rewrite length_take; lia|].
  split.
  - intros i j f g Hij Hi Hj.
    assert (Hpre : StronglySorted (fun f g => (rule_priority f <= rule_priority g)%nat) (take 5 all)).
    { rewrite <- (take_drop 5 all) in Hsorted.
      eapply StronglySorted_app_1_l. exact Hsorted. }
    assert (Hrefl : Reflexive (fun f g : finding => (rule_priority f <= rule_priority g)%nat))
      by (intros x; lia).
    exact (StronglySorted_lookup_le _ _ i j f g Hpre Hij Hi Hj).
  - transitivity (omap gap_format all).
    + rewrite <- (take_drop 5 all) at 2. rewrite omap_app. apply sublist_inserts_r. reflexivity.
    + unfold all. rewrite !omap_app.
      assert (Es : omap gap_format hs = []).
      { destruct Hs as [->|(d & ->)]; reflexivity. }
      assert (Ec : omap gap_format hc = []).
      { destruct Hc as [->|(d & ->)]; reflexivity. }
      assert (El : omap gap_format lo = []).
      { destruct Hl as [->|(d & ->)]; reflexivity. }
      rewrite Es, Ec, El, !app_nil_r. exact Hsub.
Qed.

End PatternProperties.

(** ** Steps of the niche aggregator *)

Lemma breakdown_loop (entries : list (string * list pyfloat)) acc :
  Forall (fun e : string * list pyfloat => snd e <> []) entries ->
  exists new,
    for_each (fun acc '(fmt, rates) =>
                match rates with
                | [] => mret acc
                | _ => avg ← mean rates; mret (acc ++ [(fmt, py_round 2 avg)])%list
                end) entries acc = Ok (acc ++ new)%list /\
    fst <$> new = fst <$> entries.
Proof.
  intros H. revert acc. induction H as [|[fmt rates] entries Hne _ IH]; intros acc.
  - exists []. rewrite for_each_nil, app_nil_r. split; reflexivity.
  - rewrite for_each_cons. simpl in Hne.
    destruct (mean_ok rates Hne) as (avg & Havg).
    destruct rates as [|r rates]; [congruence|].
    rewrite Havg, bind_ok.
    change (mret (acc ++ [(fmt, py_round 2 avg)])%list)
      with (Ok (acc ++ [(fmt, py_round 2 avg)])%list).
    rewrite bind_ok.
    destruct (IH (acc ++ [(fmt, py_round 2 avg)])%list) as (new & Hrun & Hkeys).
    exists ((fmt, py_round 2 avg) :: new). rewrite Hrun, <- app_assoc.
    split; [reflexivity|]. rewrite !fmap_cons, Hkeys. reflexivity.
Qed.

Lemma analyze_formats_ok posts : exists r, _analyze_formats posts = Ok r.
Proof.
  unfold _analyze_formats. cbv zeta.
  destruct (breakdown_loop (format_engagement posts) [] (format_engagement_nonempty posts))
    as (breakdown & Hrun & _).
  rewrite Hrun, bind_ok.
  destruct (max_by_float snd ([] ++ breakdown)%list);
    [destruct (min_by_float snd ([] ++ breakdown)%list)|]; eexists; reflexivity.
Qed.

Lemma hashtag_key_outcome tags :
  if unsliceable tags then hashtag_key tags = Raise TypeError
  else exists key, hashtag_key tags = Ok key.
Proof.
  unfold hashtag_key.
  destruct tags as [|[|]|[|n|n]|x|[|c s]|[|t l]]; cbn [unsliceable truthy Z.eqb negb];
    try (eexists; reflexivity); try reflexivity.
  destruct (negb (bool_decide (x = Fin 0))); [reflexivity | eexists; reflexivity].
Qed.

Lemma hashtag_loop posts acc :
  Forall (fun e : string * list pyfloat => snd e <> []) acc ->
  if forallb (fun p => negb (unsliceable (hashtags p))) posts
  then exists set_eng,
         for_each (fun set_eng p =>
                     key ← hashtag_key (hashtags p);
                     mret (match key with
                           | Some k => setdefault_append k (engagement_rate p) set_eng
                           | None => set_eng
                           end)) posts acc = Ok set_eng /\
         Forall (fun e : string * list pyfloat => snd e <> []) set_eng
  else for_each (fun set_eng p =>
                   key ← hashtag_key (hashtags p);
                   mret (match key with
                         | Some k => setdefault_append k (engagement_rate p) set_eng
                         | None => set_eng
                         end)) posts acc = Raise TypeError.
Proof.
  revert acc. induction posts as [|p posts IH]; intros acc Hacc.
  - simpl. eexists. split; [reflexivity | exact Hacc].
  - rewrite for_each_cons. cbn [forallb].
    pose proof (hashtag_key_outcome (hashtags p)) as Hk.
    destruct (unsliceable (hashtags p)).
    + rewrite Hk. reflexivity.
    + destruct Hk as (key & ->). rewrite bind_ok. cbn [negb andb].
      change (mret ?x ≫= ?f) with (f x).
      apply IH. destruct key; [apply setdefault_append_nonempty|]; exact Hacc.
Qed.

Lemma hashtag_performance_outcome posts :
  if forallb (fun p => negb (unsliceable (hashtags p))) posts
  then exists perf, _analyze_hashtag_performance posts = Ok perf
  else _analyze_hashtag_performance posts = Raise TypeError.
Proof.
  unfold _analyze_hashtag_performance.
  pose proof (hashtag_loop posts [] ltac:(constructor)) as H.
  destruct (forallb (fun p => negb (unsliceable (hashtags p))) posts).
  - destruct H as (set_eng & -> & Hne). rewrite bind_ok.
    destruct (breakdown_loop set_eng [] Hne) as (new & Hrun & _).
    eexists. exact Hrun.
  - rewrite H. reflexivity.
Qed.

Lemma published_dates_parsed fromisoformat posts :
  Forall (fun d => d <> IsoValueError) (published_dates fromisoformat posts).
Proof.
  apply Forall_forall. intros d Hd. unfold published_dates in Hd.
  apply list_elem_of_omap in Hd as (p & _ & Hp).
  destruct (fromisoformat (date_part (published_at p))); [discriminate Hp | |];
    injection Hp as <-; discriminate.
Qed.

Lemma min_loop_naive ds t :
  if forallb is_naive ds
  then exists t', for_each (fun best item => lt ← datetime_ltb item best;
                                              mret (if lt : bool then item else best))
                           ds (IsoNaive t) = Ok (IsoNaive t')
  else for_each (fun best item => lt ← datetime_ltb item best;
                                   mret (if lt : bool then item else best))
                ds (IsoNaive t) = Raise TypeError.
Proof.
  revert t. induction ds as [|[|x|x] ds IH]; intros t.
  - eexists. reflexivity.
  - reflexivity.
  - rewrite for_each_cons. cbn [forallb is_naive andb datetime_ltb]. rewrite bind_ok.
    destruct (x <? t); apply IH.
  - reflexivity.
Qed.

Lemma min_loop_aware ds t :
  if forallb is_aware ds
  then exists t', for_each (fun best item => lt ← datetime_ltb item best;
                                              mret (if lt : bool then item else best))
                           ds (IsoAware t) = Ok (IsoAware t')
  else for_each (fun best item => lt ← datetime_ltb item best;
                                   mret (if lt : bool then item else best))
                ds (IsoAware t) = Raise TypeError.
Proof.
  revert t. induction ds as [|[|x|x] ds IH]; intros t.
  - eexists. reflexivity.
  - reflexivity.
  - reflexivity.
  - rewrite for_each_cons. cbn [forallb is_aware andb datetime_ltb]. rewrite bind_ok.
    destruct (x <? t); apply IH.
Qed.

Lemma max_loop_naive ds t :
  if forallb is_naive ds
  then exists t', for_each (fun best item => gt ← datetime_ltb best item;
                                              mret (if gt : bool then item else best))
                           ds (IsoNaive t) = Ok (IsoNaive t')
  else for_each (fun best item => gt ← datetime_ltb best item;
                                   mret (if gt : bool then item else best))
                ds (IsoNaive t) = Raise TypeError.
Proof.
  revert t. induction ds as [|[|x|x] ds IH]; intros t.
  - eexists. reflexivity.
  - reflexivity.
  - rewrite for_each_cons. cbn [forallb is_naive andb datetime_ltb]. rewrite bind_ok.
    destruct (t <? x); apply IH.
  - reflexivity.
Qed.

Lemma max_loop_aware ds t :
  if forallb is_aware ds
  then exists t', for_each (fun best item => gt ← datetime_ltb best item;
                                              mret (if gt : bool then item else best))
                           ds (IsoAware t) = Ok (IsoAware t')
  else for_each (fun best item => gt ← datetime_ltb best item;
                                   mret (if gt : bool then item else best))
                ds (IsoAware t) = Raise TypeError.
Proof.
  revert t. induction ds as [|[|x|x] ds IH]; intros t.
  - eexists. reflexivity.
  - reflexivity.
  - reflexivity.
  - rewrite for_each_cons. cbn [forallb is_aware andb datetime_ltb]. rewrite bind_ok.
    destruct (t <? x); apply IH.
Qed.

(** [min] and [max] of the parsed dates return when the dates are all
    naive or all aware, and raise TypeError on a mixed list. *)
Lemma min_datetime_outcome l :
  Forall (fun d => d <> IsoValueError) l ->
  if dates_comparable l then exists r, min_datetime l = Ok r
  else min_datetime l = Raise TypeError.
Proof.
  intros Hl. unfold dates_comparable.
  destruct l as [|[|t|t] ds]; [eexists; reflexivity | | |].
  - apply Forall_cons_1 in Hl as [Hd _]. congruence.
  - cbn [forallb is_naive is_aware andb min_datetime]. rewrite orb_false_r.
    pose proof (min_loop_naive ds t) as H.
    destruct (forallb is_naive ds).
    + destruct H as (t' & ->). eexists. reflexivity.
    + rewrite H. reflexivity.
  - cbn [forallb is_naive is_aware andb orb min_datetime].
    pose proof (min_loop_aware ds t) as H.
    destruct (forallb is_aware ds).
    + destruct H as (t' & ->). eexists. reflexivity.
    + rewrite H. reflexivity.
Qed.

Lemma max_datetime_outcome l :
  Forall (fun d => d <> IsoValueError) l ->
  if dates_comparable l then exists r, max_datetime l = Ok r
  else max_datetime l = Raise TypeError.
Proof.
  intros Hl. unfold dates_comparable.
  destruct l as [|[|t|t] ds]; [eexists; reflexivity | | |].
  - apply Forall_cons_1 in Hl as [Hd _]. congruence.
  - cbn [forallb is_naive is_aware andb max_datetime]. rewrite orb_false_r.
    pose proof (max_loop_naive ds t) as H.
    destruct (forallb is_naive ds).
    + destruct H as (t' & ->). eexists. reflexivity.
    + rewrite H. reflexivity.
  - cbn [forallb is_naive is_aware andb orb max_datetime].
    pose proof (max_loop_aware ds t) as H.
    destruct (forallb is_aware ds).
    + destruct H as (t' & ->). eexists. reflexivity.
    + rewrite H. reflexivity.
Qed.

(** Posts that carry one and the same date text have comparable dates. *)
Lemma same_date_comparable fromisoformat posts s :
  Forall (fun p => date_part (published_at p) = s) posts ->
  dates_comparable (published_dates fromisoformat posts) = true.
Proof.
  intros H. unfold dates_comparable, published_dates.
  destruct (fromisoformat s) as [|t|t] eqn:E.
  - assert (G : omap (fun p => match fromisoformat (date_part (published_at p)) with
                               | IsoValueError => None
                               | dt => Some dt
                               end) posts = []).
    { induction H as [|p posts Hp _ IH]; [reflexivity|].
      cbn [omap list_omap]. rewrite Hp, E, IH. reflexivity. }
    rewrite G. reflexivity.
  - assert (G : forallb is_naive
                  (omap (fun p => match fromisoformat (date_part (published_at p)) with
                                  | IsoValueError => None
                                  | dt => Some dt
                                  end) posts) = true).
    { induction H as [|p posts Hp _ IH]; [reflexivity|].
      cbn [omap list_omap]. rewrite Hp, E. cbn [forallb is_naive andb]. exact IH. }
    rewrite G. reflexivity.
  - assert (G : forallb is_aware
                  (omap (fun p => match fromisoformat (date_part (published_at p)) with
                                  | IsoValueError => None
                                  | dt => Some dt
                                  end) posts) = true).
    { induction H as [|p posts Hp _ IH]; [reflexivity|].
      cbn [omap list_omap]. rewrite Hp, E. cbn [forallb is_aware andb]. exact IH. }
    rewrite G. apply orb_true_r.
Qed.

Section NicheOutcome.

Variable set_rank : list string -> string -> Z.
Variable fromisoformat : string -> iso_result.

(** The outcome of [_analyze_niche]: no summary for an empty group; for
    a group that is not empty, a summary when the group is
    [summarizable] and TypeError otherwise. *)
Lemma analyze_niche_outcome posts niche_name platform_name :
  (niche_group posts niche_name platform_name = [] /\
   _analyze_niche set_rank fromisoformat posts niche_name platform_name = Ok None) \/
  (niche_group posts niche_name platform_name <> [] /\
   if summarizable fromisoformat (niche_group posts niche_name platform_name)
   then exists perf,
     _analyze_niche set_rank fromisoformat posts niche_name platform_name = Ok (Some perf) /\
     np_niche perf = niche_name /\ np_platform perf = platform_name /\
     post_count perf = length (niche_group posts niche_name platform_name) /\
     top_performers perf =
       take 3 (sorted_desc composite_score (niche_group posts niche_name platform_name)) /\
     bottom_performers perf =
       reverse (last_n 3 (sorted_desc composite_score (niche_group posts niche_name platform_name))) /\
     benchmark_status perf ∈ ["ABOVE"; "MEETING"; "BELOW"]
   else _analyze_niche set_rank fromisoformat posts niche_name platform_name = Raise TypeError).
Proof.
  unfold _analyze_niche, summarizable. cbv zeta.
  set (group := niche_group posts niche_name platform_name) in *.
  destruct group as [|p0 rest] eqn:Eg; [left; split; reflexivity|].
  right. split; [discriminate|].
  destruct (mean_ok (engagement_rate <$> p0 :: rest)) as (avg & Havg); [discriminate|].
  destruct (median_ok (engagement_rate <$> p0 :: rest)) as (med & Hmed); [discriminate|].
  destruct (analyze_formats_ok (p0 :: rest)) as ([[fb best] worst] & Hfmt).
  destruct (detect_patterns_shape set_rank (p0 :: rest)) as (gaps & hs & hc & lo & Hpat & _).
  pose proof (hashtag_performance_outcome (p0 :: rest)) as Hhash.
  pose proof (min_datetime_outcome _ (published_dates_parsed fromisoformat (p0 :: rest))) as Hmin.
  pose proof (max_datetime_outcome _ (published_dates_parsed fromisoformat (p0 :: rest))) as Hmax.
  rewrite Havg, Hmed, Hfmt, !fmap_ok, !bind_ok.
  destruct (forallb (fun p => negb (unsliceable (hashtags p))) (p0 :: rest)).
  - destruct Hhash as (hp & ->). rewrite bind_ok, Hpat, bind_ok.
    destruct (dates_comparable (published_dates fromisoformat (p0 :: rest))).
    + destruct Hmin as (dmin & ->). destruct Hmax as (dmax & ->). rewrite !bind_ok.
      cbn [andb]. eexists. split; [reflexivity|].
      cbn [np_niche np_platform post_count top_performers bottom_performers benchmark_status].
      do 5 (split; [reflexivity|]).
      destruct (fgeb (py_round 2 avg) _); [left|].
      destruct (fgeb (py_round 2 avg) _); [right; left | right; right; left].
    + rewrite Hmin. reflexivity.
  - rewrite Hhash. reflexivity.
Qed.

End NicheOutcome.

(** ** C10: top and bottom performers *)

Lemma take_last_overlap {A} (l : list A) :
  l <> [] -> (length l < 6)%nat -> exists x, x ∈ take 3 l /\ x ∈ reverse (last_n 3 l).
Proof.
  intros Hne Hlen.
  assert (Hpos : (0 < length l)%nat) by (destruct l; [congruence | simpl; lia]).
  destruct (lookup_lt_is_Some_2 l (Nat.min 2 (length l - 1)) ltac:(lia)) as [x Hx].
  exists x. split.
  - apply elem_of_take. exists (Nat.min 2 (length l - 1)). split; [assumption | lia].
  - apply elem_of_reverse. unfold last_n.
    apply (list_elem_of_lookup_2 _ (Nat.min 2 (length l - 1) - (length l - 3))).
    rewrite lookup_drop. rewrite <- Hx. f_equal. lia.
Qed.

Lemma last_is_all {A} (l : list A) :
  (length l <= 3)%nat -> reverse (last_n 3 l) = reverse (take 3 l).
Proof.
  intros Hlen. unfold last_n.
  replace (length l - 3)%nat with 0%nat by lia.
  rewrite drop_0, take_ge by lia. reflexivity.
Qed.

Section RankingProperties.

Variable set_rank : list string -> string -> Z.
Variable fromisoformat : string -> iso_result.

(** C10. [_analyze_niche] returns a summary for every (niche, platform)
    group that is not empty and is [summarizable] (hashtags it can
    slice, dates it can compare).  Whenever it returns a summary, the
    [top_performers] and [bottom_performers] of that summary are both
    cut from one list, the group sorted by descending
    [composite_score]: the first 3, and the last 3 reversed.  So a group
    of fewer than 6 posts has a post in both lists, and for a group of
    at most 3 posts [bottom_performers] is the reversal of
    [top_performers]. *)
Theorem top_and_bottom_share_posts posts niche_name platform_name :
  (niche_group posts niche_name platform_name <> [] ->
   summarizable fromisoformat (niche_group posts niche_name platform_name) = true ->
   exists perf,
     _analyze_niche set_rank fromisoformat posts niche_name platform_name = Ok (Some perf)) /\
  forall perf,
    _analyze_niche set_rank fromisoformat posts niche_name platform_name = Ok (Some perf) ->
    post_count perf = length (niche_group posts niche_name platform_name) /\
    sorted_desc composite_score (niche_group posts niche_name platform_name)
      ≡ₚ niche_group posts niche_name platform_name /\
    (Forall (fun p => composite_score p <> NaN) (niche_group posts niche_name platform_name) ->
     StronglySorted score_ge
       (sorted_desc composite_score (niche_group posts niche_name platform_name))) /\
    top_performers perf =
      take 3 (sorted_desc composite_score (niche_group posts niche_name platform_name)) /\
    bottom_performers perf =
      reverse (last_n 3 (sorted_desc composite_score (niche_group posts niche_name platform_name))) /\
    ((post_count perf < 6)%nat ->
     exists p, p ∈ top_performers perf /\ p ∈ bottom_performers perf) /\
    ((post_count perf <= 3)%nat ->
     bottom_performers perf = reverse (top_performers perf)).
Proof.
  pose proof (analyze_niche_outcome set_rank fromisoformat posts niche_name platform_name) as Hout.
  set (group := niche_group posts niche_name platform_name) in *.
  split.
  - intros Hne Hs. destruct Hout as [[He _]|[_ Hout]]; [congruence|].
    rewrite Hs in Hout. destruct Hout as (perf & Hr & _). exists perf. exact Hr.
  - intros perf Hperf.
    destruct Hout as [[_ Hr]|[Hne Hout]].
    { pose proof (eq_trans (eq_sym Hr) Hperf) as X. discriminate X. }
    destruct (summarizable fromisoformat group).
    2:{ pose proof (eq_trans (eq_sym Hout) Hperf) as X. discriminate X. }
    destruct Hout as (perf' & Hr & _ & _ & Hc & Ht & Hb & _).
    pose proof (eq_trans (eq_sym Hr) Hperf) as X. injection X as ->.
    assert (Hlen : length (sorted_desc composite_score group) = length group)
      by apply sort_by_length.
    assert (Hsne : sorted_desc composite_score group <> []).
    { intros E. rewrite E in Hlen. destruct group; [congruence | discriminate]. }
    split; [exact Hc|].
    split; [apply sort_by_perm|].
    split; [apply sorted_desc_sorted|].
    split; [exact Ht|].
    split; [exact Hb|].
    rewrite Ht, Hb, Hc. split.
    + intros Hsmall. apply take_last_overlap; [assumption | lia].
    + intros Hsmall. apply last_is_all. lia.
Qed.

End RankingProperties.

Lemma top_and_bottom_share_posts_witness :
  exists perf,
    _analyze_niche flat_rank fromisoformat_date [post_likes_10; post_likes_50] "ttbp" "linkedin"
      = Ok (Some perf) /\
    (exists p, p ∈ top_performers perf /\ p ∈ bottom_performers perf) /\
    bottom_performers perf = reverse (top_performers perf).
Proof.
  destruct (top_and_bottom_share_posts flat_rank fromisoformat_date
              [post_likes_10; post_likes_50] "ttbp" "linkedin") as [Hex Hfacts].
  destruct Hex as (perf & Hrun).
  - vm_compute. discriminate.
  - vm_compute. reflexivity.
  - exists perf.
    destruct (Hfacts perf Hrun) as (Hcount & _ & _ & _ & _ & Hshare & Hrev).
    assert (Hn : post_count perf = 2%nat).
    { exact (eq_trans Hcount (eq_refl : length (niche_group [post_likes_10; post_likes_50] "ttbp" "linkedin") = 2%nat)). }
    split; [exact Hrun|]. split.
    + apply Hshare. rewrite Hn. lia.
    + apply Hrev. rewrite Hn. lia.
Defined.

(** ** C1: the scenario of three LinkedIn posts *)

Lemma scenario_scores :
  exists q10 q50 q100,
    scenario_scored = Ok [q10; q50; q100] /\
    engagement_rate <$> [q10; q50; q100] = [lit 15 10; lit 55 10; lit 105 10] /\
    composite_score <$> [q10; q50; q100] = [of_Z 40; of_Z 65; of_Z 65] /\
    fltb (composite_score q50) (composite_score q100) = false /\
    niche_group [q10; q50; q100] "ttbp" "linkedin" = [q10; q50; q100] /\
    take 3 (sorted_desc composite_score [q10; q50; q100]) = [q50; q100; q10] /\
    forallb (fun p => negb (unsliceable (hashtags p))) [q10; q50; q100] = true /\
    date_part (published_at q10) = "" /\
    date_part (published_at q50) = "" /\
    date_part (published_at q100) = "".
Proof.
  do 3 eexists.
  do 9 (split; [vm_compute; reflexivity|]).
  vm_compute. reflexivity.
Qed.

Lemma scenario_values (set_rank : list string -> string -> Z)
    (fromisoformat : string -> iso_result) :
  exists q10 q50 q100 perf,
    scenario_scored = Ok [q10; q50; q100] /\
    engagement_rate <$> [q10; q50; q100] = [lit 15 10; lit 55 10; lit 105 10] /\
    composite_score <$> [q10; q50; q100] = [of_Z 40; of_Z 65; of_Z 65] /\
    _analyze_niche set_rank fromisoformat [q10; q50; q100] "ttbp" "linkedin" = Ok (Some perf) /\
    top_performers perf = [q50; q100; q10] /\
    fltb (composite_score q50) (composite_score q100) = false.
Proof.
  destruct scenario_scores
    as (q10 & q50 & q100 & H1 & H2 & H3 & Hf & Hg & Ht & Hh & Hd1 & Hd2 & Hd3).
  exists q10, q50, q100.
  destruct (analyze_niche_outcome set_rank fromisoformat [q10; q50; q100] "ttbp" "linkedin")
    as [[He _]|[_ Hout]].
  { pose proof (eq_trans (eq_sym Hg) He) as X. discriminate X. }
  rewrite Hg in Hout.
  assert (Hs : summarizable fromisoformat [q10; q50; q100] = true).
  { unfold summarizable. rewrite Hh. cbn [andb].
    apply (same_date_comparable fromisoformat _ "").
    constructor; [exact Hd1|]. constructor; [exact Hd2|]. constructor; [exact Hd3|]. constructor. }
  rewrite Hs in Hout.
  destruct Hout as (perf & Hr & _ & _ & _ & Htop & _).
  exists perf.
  split; [exact H1|]. split; [exact H2|]. split; [exact H3|]. split; [exact Hr|].
  split; [exact (eq_trans Htop Ht) | exact Hf].
Qed.

(** C1, as the code behaves.  For the three "ttbp" LinkedIn posts with
    1000 impressions, 5 comments and 10, 50 and 100 likes, the rate
    calculator yields the engagement rates 1.5, 5.5 and 10.5.  The
    composite scores are 40.0, 65.0 and 65.0: non-decreasing with likes,
    the last two equal because the engagement component is capped at 50.
    The ranking is a stable descending sort, so [top_performers] is the
    50-like post, then the 100-like post, then the 10-like post. *)
Theorem scenario_three_posts (set_rank : list string -> string -> Z)
    (fromisoformat : string -> iso_result) :
  exists q10 q50 q100 perf,
    scenario_scored = Ok [q10; q50; q100] /\
    engagement_rate <$> [q10; q50; q100] = [lit 15 10; lit 55 10; lit 105 10] /\
    composite_score <$> [q10; q50; q100] = [of_Z 40; of_Z 65; of_Z 65] /\
    _analyze_niche set_rank fromisoformat [q10; q50; q100] "ttbp" "linkedin" = Ok (Some perf) /\
    top_performers perf = [q50; q100; q10].
Proof.
  destruct (scenario_values set_rank fromisoformat)
    as (q10 & q50 & q100 & perf & H1 & H2 & H3 & H4 & H5 & _).
  exists q10, q50, q100, perf.
  exact (conj H1 (conj H2 (conj H3 (conj H4 H5)))).
Qed.

(** The scenario as the specification words it does not hold: the scores
    of the 50-like and the 100-like post are equal, and the head of
    [top_performers] is the 50-like post. *)
Lemma scenario_scores_not_strictly_increasing :
  ~ (exists q10 q50 q100 perf,
       scenario_scored = Ok [q10; q50; q100] /\
       engagement_rate <$> [q10; q50; q100] = [lit 15 10; lit 55 10; lit 105 10] /\
       fltb (composite_score q10) (composite_score q50) = true /\
       fltb (composite_score q50) (composite_score q100) = true /\
       _analyze_niche flat_rank fromisoformat_date [q10; q50; q100] "ttbp" "linkedin"
         = Ok (Some perf) /\
       top_performers perf !! 0%nat = Some q100).
Proof.
  intros (q10 & q50 & q100 & perf & Hs & _ & _ & Hlt & _).
  destruct (scenario_values flat_rank fromisoformat_date)
    as (a & b & c & _ & Ha & _ & _ & _ & _ & Hf).
  pose proof (eq_trans (eq_sym Ha) Hs) as E.
  injection E as -> -> ->.
  pose proof (eq_trans (eq_sym Hf) Hlt) as X.
  discriminate X.
Qed.

(** ** C3: overall recommendations *)

(** C3, at an input the code handles otherwise than specified.  With one
    niche recommendation and two competitor insights that carry the same
    suggested response, the overall list holds the competitor suggestion
    twice: the second loop tests [seen_recs] but never adds to it. *)
Theorem competitor_suggestions_repeated (t s : string) :
  summarize_week_recommendations [["[ttbp] " +:+ t]] [s; s] =
    ["[ttbp] " +:+ t; "[competitor] " +:+ s; "[competitor] " +:+ s] /\
  ~ NoDup (summarize_week_recommendations [["[ttbp] " +:+ t]] [s; s]).
Proof.
  assert (E : summarize_week_recommendations [["[ttbp] " +:+ t]] [s; s] =
              ["[ttbp] " +:+ t; "[competitor] " +:+ s; "[competitor] " +:+ s]).
  { unfold summarize_week_recommendations. simpl concat. simpl foldl at 1.
    rewrite bool_decide_eq_false_2 by set_solver.
    simpl foldl.
    assert (Hn : bool_decide ("[competitor] " +:+ s ∈ ({["[ttbp] " +:+ t]} ∪ ∅ : gset string)) = false).
    { apply bool_decide_eq_false_2. intros H.
      apply elem_of_union in H as [H|H]; [|set_solver].
      apply elem_of_singleton in H. simpl in H. discriminate. }
    rewrite !Hn. reflexivity. }
  split; [exact E|].
  rewrite E. intros H.
  apply NoDup_cons in H as [_ H]. apply NoDup_cons in H as [H _].
  apply H. left.
Qed.

(** What the niche loop does by itself is a first-occurrence
    de-duplication. *)
Lemma niche_recommendations_deduplicated (perf_recs : list (list string)) :
  NoDup (summarize_week_recommendations perf_recs []).
Proof.
  unfold summarize_week_recommendations.
  assert (G : forall recs (acc : list string) (seen : gset string),
            NoDup acc -> (forall x, x ∈ acc <-> x ∈ seen) ->
            let r := foldl (fun '(all_recs, seen_recs) rec =>
                              if bool_decide (rec ∈ (seen_recs : gset string))
                              then (all_recs, seen_recs)
                              else ((all_recs ++ [rec])%list, {[rec]} ∪ seen_recs))
                           (acc, seen) recs in
            NoDup (fst r)).
  { induction recs as [|x recs IH]; intros acc seen Hnd Hseen; simpl; [assumption|].
    destruct (bool_decide (x ∈ seen)) eqn:E.
    - apply IH; assumption.
    - apply bool_decide_eq_false in E. apply IH.
      + apply NoDup_app. split; [assumption|]. split.
        * intros y Hy Hy'. apply list_elem_of_singleton in Hy'. subst y.
          apply E. apply Hseen. assumption.
        * apply NoDup_singleton.
      + intros y. rewrite elem_of_app, list_elem_of_singleton, elem_of_union, elem_of_singleton.
        rewrite Hseen. tauto. }
  specialize (G (concat perf_recs) [] ∅ (NoDup_nil_2) ltac:(set_solver)).
  simpl in G.
  destruct (foldl _ _ (concat perf_recs)) as [all_recs seen_recs].
  simpl in *. eapply sublist_NoDup; [exact G | apply sublist_take].
Qed.

(** ** C9: history append *)

(** C9, at an input the code handles otherwise than specified.  A batch
    that holds the same post twice, appended to a history that does not
    know its [post_id], is stored twice: the filter looks only at the ids
    stored before the call. *)
Theorem batch_duplicates_all_stored (p : PostMetrics) :
  _save_to_history [p; p] Missing = Stored [p; p] /\
  length (filter (fun q => post_id q = post_id p)
            (read_history (_save_to_history [p; p] Missing))) = 2%nat.
Proof.
  assert (E : _save_to_history [p; p] Missing = Stored [p; p]).
  { unfold _save_to_history. simpl read_history. simpl fmap. simpl list_to_set.
    rewrite app_nil_l.
    rewrite !filter_cons_True by set_solver. reflexivity. }
  split; [exact E|].
  rewrite E. simpl read_history.
  rewrite !filter_cons_True by reflexivity. reflexivity.
Qed.

Lemma save_to_history_keeps_entries posts file :
  exists new_posts,
    _save_to_history posts file = Stored (read_history file ++ new_posts)%list /\
    new_posts `sublist_of` posts /\
    Forall (fun p => post_id p ∉ post_id <$> read_history file) new_posts.
Proof.
  unfold _save_to_history. eexists. split; [reflexivity|]. split.
  - apply sublist_filter.
  - apply Forall_forall. intros p Hp. apply list_elem_of_filter in Hp as [Hp _].
    intros Hin. apply Hp. apply elem_of_list_to_set. exact Hin.
Qed.

(** Appending the same batch a second time changes nothing. *)
Lemma save_to_history_idempotent posts file :
  _save_to_history posts (_save_to_history posts file) = _save_to_history posts file.
Proof.
  unfold _save_to_history at 1. 
  set (once := _save_to_history posts file).
  assert (Hall : Forall (fun p => post_id p ∈ post_id <$> read_history once) posts).
  { apply Forall_forall. intros p Hp. unfold once, _save_to_history. simpl read_history.
    rewrite fmap_app, elem_of_app.
    destruct (decide (post_id p ∈ post_id <$> read_history file)) as [Hin|Hout]; [left; exact Hin|].
    right. apply list_elem_of_fmap. exists p. split; [reflexivity|].
    apply list_elem_of_filter. split; [|exact Hp].
    intros Hin. apply Hout. apply elem_of_list_to_set in Hin. exact Hin. }
  assert (Hnil : forall (ids : gset string) (l : list PostMetrics),
            Forall (fun p => post_id p ∈ ids) l ->
            filter (fun p => post_id p ∉ ids) l = []).
  { intros ids l H. induction H as [|p l Hp Hl IH]; [reflexivity|].
    rewrite filter_cons_False; [exact IH|].
    intros Hn. apply Hn. exact Hp. }
  rewrite Hnil, app_nil_r; [reflexivity|].
  eapply Forall_impl; [exact Hall|].
  intros p Hp. apply elem_of_list_to_set. exact Hp.
Qed.

(** ** C2: the period filter *)

Section PeriodProperties.

Variable fromisoformat : string -> iso_result.

Lemma period_keeps_naive cutoff p :
  (forall t, parsed_date fromisoformat p <> IsoAware t) ->
  period_keeps fromisoformat cutoff p = Ok (in_period fromisoformat cutoff p).
Proof.
  intros H. unfold period_keeps, in_period, parsed_date in *.
  destruct (fromisoformat (date_part (published_at p))) as [|dt|t]; try reflexivity.
  exfalso. apply (H t). reflexivity.
Qed.

Lemma period_loop cutoff posts acc :
  timezone_free fromisoformat posts ->
  for_each (fun acc p => keep ← period_keeps fromisoformat cutoff p;
                         mret (if keep : bool then (acc ++ [p])%list else acc))
           posts acc
  = Ok (acc ++ filter (fun p => in_period fromisoformat cutoff p = true) posts)%list.
Proof.
  intros H. revert acc. induction H as [|p posts Hp Hposts IH]; intros acc.
  - rewrite for_each_nil, app_nil_r. reflexivity.
  - rewrite for_each_cons, (period_keeps_naive cutoff p Hp), bind_ok.
    destruct (in_period fromisoformat cutoff p) eqn:E.
    + change (mret (acc ++ [p])%list) with (Ok (acc ++ [p])%list).
      rewrite bind_ok, IH, filter_cons_True by exact E.
      rewrite <- app_assoc. reflexivity.
    + change (mret acc) with (Ok acc).
      rewrite bind_ok, IH, filter_cons_False; [reflexivity|].
      rewrite E. discriminate.
Qed.

Lemma filter_by_period_value now posts period :
  String.eqb period "all" = false ->
  timezone_free fromisoformat posts ->
  _filter_by_period fromisoformat now posts period =
    Ok (list_or (filter (fun p => in_period fromisoformat (period_cutoff now period) p = true) posts)
                posts).
Proof.
  intros Hp Hfree. unfold _filter_by_period. rewrite Hp.
  cbv zeta. rewrite (period_loop _ posts [] Hfree), bind_ok, app_nil_l.
  reflexivity.
Qed.

Lemma in_period_earlier c1 c2 p :
  c1 <= c2 -> in_period fromisoformat c2 p = true -> in_period fromisoformat c1 p = true.
Proof.
  unfold in_period. intros Hc.
  destruct (parsed_date fromisoformat p); try (intros; assumption).
  intros H. apply Z.leb_le in H. apply Z.leb_le. lia.
Qed.

Lemma month_cutoff_before_week now :
  period_cutoff now "month" <= period_cutoff now "week".
Proof. unfold period_cutoff, day_us. simpl. lia. Qed.

Lemma list_or_elem {A} (l dflt : list A) x : x ∈ l -> x ∈ list_or l dflt.
Proof. destruct l; [inversion 1 | intros Hx; exact Hx]. Qed.

Lemma list_or_nonempty {A} (l dflt : list A) x : x ∈ l -> list_or l dflt = l.
Proof. destruct l; [inversion 1 | reflexivity]. Qed.

Lemma list_or_within {A} (l dflt : list A) : l ⊆ dflt -> list_or l dflt ⊆ dflt.
Proof. intros Hl. destruct l; [reflexivity | exact Hl]. Qed.

Lemma filter_none {A} (P : A -> Prop) `{!forall x, Decision (P x)} (l : list A) :
  (forall x, x ∈ l -> ~ P x) -> filter P l = [].
Proof.
  induction l as [|x l IH]; intros Hl; [reflexivity|].
  rewrite filter_cons_False; [apply IH; intros y Hy; apply Hl; right; exact Hy|].
  apply Hl. left.
Qed.

(** C2, as the code behaves.  Filtering by "all" is the identity.  When
    no date carries a timezone, "week" and "month" both return; each
    result is within the input (the result for "all"), keeps every
    record whose date does not parse, and is the whole input when no
    record passes the filter.  The "week" result is within the "month"
    result whenever some record passes the "week" filter; when none
    does, the fallback makes the "week" result the whole input. *)
Theorem period_filter_nesting now posts :
  _filter_by_period fromisoformat now posts "all" = Ok posts /\
  (timezone_free fromisoformat posts ->
   exists w m,
     _filter_by_period fromisoformat now posts "week" = Ok w /\
     _filter_by_period fromisoformat now posts "month" = Ok m /\
     w ⊆ posts /\ m ⊆ posts /\
     (forall p, p ∈ posts -> parsed_date fromisoformat p = IsoValueError -> p ∈ w /\ p ∈ m) /\
     ((exists p, p ∈ posts /\ in_period fromisoformat (period_cutoff now "week") p = true) ->
      w ⊆ m) /\
     ((forall p, p ∈ posts -> in_period fromisoformat (period_cutoff now "week") p = false) ->
      w = posts) /\
     ((forall p, p ∈ posts -> in_period fromisoformat (period_cutoff now "month") p = false) ->
      m = posts)).
Proof.
  split; [reflexivity|].
  intros Hfree.
  rewrite (filter_by_period_value now posts "week" eq_refl Hfree).
  rewrite (filter_by_period_value now posts "month" eq_refl Hfree).
  set (wk := filter (fun p => in_period fromisoformat (period_cutoff now "week") p = true) posts).
  set (mk := filter (fun p => in_period fromisoformat (period_cutoff now "month") p = true) posts).
  assert (Hwk : forall p, p ∈ wk <-> in_period fromisoformat (period_cutoff now "week") p = true /\ p ∈ posts)
    by (intros p; unfold wk; rewrite list_elem_of_filter; reflexivity).
  assert (Hmk : forall p, p ∈ mk <-> in_period fromisoformat (period_cutoff now "month") p = true /\ p ∈ posts)
    by (intros p; unfold mk; rewrite list_elem_of_filter; reflexivity).
  assert (Hsub : forall p, p ∈ wk -> p ∈ mk).
  { intros p Hp. apply Hwk in Hp as [Hin Hp]. apply Hmk. split; [|exact Hp].
    eapply in_period_earlier; [apply month_cutoff_before_week | exact Hin]. }
  exists (list_or wk posts), (list_or mk posts).
  split; [reflexivity|]. split; [reflexivity|].
  split; [apply list_or_within; intros p Hp; apply Hwk in Hp; tauto|].
  split; [apply list_or_within; intros p Hp; apply Hmk in Hp; tauto|].
  split.
  { intros p Hp Hd.
    split; apply list_or_elem; [apply Hwk | apply Hmk]; (split; [|exact Hp]);
      unfold in_period; rewrite Hd; reflexivity. }
  split.
  { intros (p & Hp & Hin).
    assert (Hpw : p ∈ wk) by (apply Hwk; split; assumption).
    rewrite (list_or_nonempty wk posts p Hpw).
    rewrite (list_or_nonempty mk posts p (Hsub p Hpw)).
    exact Hsub. }
  split.
  { intros Hnone. unfold wk. rewrite filter_none; [reflexivity|].
    intros p Hp. rewrite (Hnone p Hp). discriminate. }
  intros Hnone. unfold mk. rewrite filter_none; [reflexivity|].
  intros p Hp. rewrite (Hnone p Hp). discriminate.
Qed.

End PeriodProperties.

Lemma period_filter_nesting_witness :
  exists w m,
    _filter_by_period fromisoformat_date noon_2024_06_10
      [dated_post "recent" "2024-06-08"; dated_post "older" "2024-05-25";
       dated_post "undated" "soon"] "week" = Ok w /\
    _filter_by_period fromisoformat_date noon_2024_06_10
      [dated_post "recent" "2024-06-08"; dated_post "older" "2024-05-25";
       dated_post "undated" "soon"] "month" = Ok m /\
    w ⊆ m.
Proof.
  destruct (period_filter_nesting fromisoformat_date noon_2024_06_10
              [dated_post "recent" "2024-06-08"; dated_post "older" "2024-05-25";
               dated_post "undated" "soon"]) as [_ H].
  destruct H as (w & m & Hw & Hm & _ & _ & _ & Hsub & _).
  - repeat constructor; intros t; vm_compute; discriminate.
  - exists w, m. split; [exact Hw|]. split; [exact Hm|].
    apply Hsub. exists (dated_post "recent" "2024-06-08").
    split; [left | vm_compute; reflexivity].
Defined.

(** The nesting as the specification words it does not hold: with one
    record from 16 days and one from 101 days before [now], nothing
    passes the "week" filter, so "week" falls back to both records,
    while "month" returns the first only. *)
Lemma week_result_outside_month_result :
  ~ (forall w m,
       _filter_by_period fromisoformat_date noon_2024_06_10
         [dated_post "older" "2024-05-25"; dated_post "oldest" "2024-03-01"] "week" = Ok w ->
       _filter_by_period fromisoformat_date noon_2024_06_10
         [dated_post "older" "2024-05-25"; dated_post "oldest" "2024-03-01"] "month" = Ok m ->
       w ⊆ m).
Proof.
  intros H.
  assert (Hw : _filter_by_period fromisoformat_date noon_2024_06_10
                 [dated_post "older" "2024-05-25"; dated_post "oldest" "2024-03-01"] "week"
               = Ok [dated_post "older" "2024-05-25"; dated_post "oldest" "2024-03-01"])
    by (vm_compute; reflexivity).
  assert (Hm : _filter_by_period fromisoformat_date noon_2024_06_10
                 [dated_post "older" "2024-05-25"; dated_post "oldest" "2024-03-01"] "month"
               = Ok [dated_post "older" "2024-05-25"])
    by (vm_compute; reflexivity).
  specialize (H _ _ Hw Hm (dated_post "oldest" "2024-03-01")).
  assert (Hin : dated_post "oldest" "2024-03-01"
                ∈ [dated_post "older" "2024-05-25"; dated_post "oldest" "2024-03-01"])
    by (right; left).
  specialize (H Hin).
  apply list_elem_of_singleton in H.
  apply (f_equal post_id) in H. discriminate H.
Qed.

(** ** C4: the record normalizer *)

Lemma bind_inv {A B} (m : result A) (f : A -> result B) b :
  m ≫= f = Ok b -> exists a, m = Ok a /\ f a = Ok b.
Proof. destruct m as [a|e]; [intros H; exists a; split; [reflexivity | exact H] | discriminate]. Qed.

Lemma fmap_inv {A B} (m : result A) (f : A -> B) b :
  f <$> m = Ok b -> exists a, m = Ok a /\ b = f a.
Proof.
  destruct m as [a|e]; [|discriminate].
  intros H. exists a. split; [reflexivity|]. injection H as <-. reflexivity.
Qed.

Lemma py_int_raises s e : py_int s = Raise e -> e = ValueError.
Proof.
  unfold py_int.
  assert (B : forall sign t,
            match int_digits 0 false t with
            | Some n =>
              if Z.of_nat (digit_count t) <=? int_max_str_digits then Ok (sign * n)
              else Raise ValueError
            | None => Raise ValueError
            end = Raise e -> e = ValueError).
  { intros sign t. destruct (int_digits 0 false t).
    - destruct (Z.of_nat (digit_count t) <=? int_max_str_digits); [discriminate|].
      intros H. injection H as <-. reflexivity.
    - intros H. injection H as <-. reflexivity. }
  destruct (strip s) as [|c t]; [apply B|].
  destruct c as [[] [] [] [] [] [] [] []]; apply B.
Qed.

Lemma py_str_int_raises n e : py_str_int n = Raise e -> e = ValueError.
Proof.
  unfold py_str_int. cbv zeta.
  destruct (Z.of_nat (digit_count (str_of_Z n)) <=? int_max_str_digits); [discriminate|].
  intros H. injection H as <-. reflexivity.
Qed.

Lemma int_of_cleaned_raises val e : int_of_cleaned val = Raise e -> e = ValueError.
Proof.
  unfold int_of_cleaned. destruct val as [|b|n|x|s|l]; cbn [py_str_plain].
  - apply py_int_raises.
  - destruct b; apply py_int_raises.
  - destruct (py_str_int n) as [s|e'] eqn:E.
    + rewrite bind_ok. apply py_int_raises.
    + intros H. apply py_str_int_raises in E. injection H as <-. exact E.
  - intros H. injection H as <-. reflexivity.
  - apply py_int_raises.
  - intros H. injection H as <-. reflexivity.
Qed.

Lemma safe_int_total val :
  exists n, _safe_int val = Ok n /\
    (malformed val -> n = 0) /\ (forall k, int_of_cleaned val = Ok k -> n = k).
Proof.
  unfold _safe_int. destruct (int_of_cleaned val) as [k|e] eqn:E.
  - exists k. split; [reflexivity|]. split.
    + intros (e & He). rewrite E in He. discriminate He.
    + intros k' Hk. injection Hk as <-. reflexivity.
  - apply int_of_cleaned_raises in E as ->.
    exists 0. split; [reflexivity|]. split; [reflexivity|]. discriminate.
Qed.

Lemma safe_int_malformed val : malformed val -> _safe_int val = Ok 0.
Proof.
  intros H. destruct (safe_int_total val) as (n & -> & Hn & _).
  rewrite (Hn H). reflexivity.
Qed.

Lemma safe_int_zero : _safe_int (VInt 0) = Ok 0.
Proof. reflexivity. Qed.

Lemma dict_get_insert_eq (item : gmap string pyval) k x d :
  dict_get (<[k := x]> item) k d = x.
Proof. unfold dict_get. rewrite lookup_insert_eq. reflexivity. Qed.

Lemma dict_get_insert_ne (item : gmap string pyval) k k1 x d :
  k1 <> k -> dict_get (<[k := x]> item) k1 d = dict_get item k1 d.
Proof. intros H. unfold dict_get. rewrite lookup_insert_ne by congruence. reflexivity. Qed.

Lemma dict_get_some (item : gmap string pyval) k val :
  item !! k = Some val -> forall d, dict_get item k d = val.
Proof. intros H d. unfold dict_get. rewrite H. reflexivity. Qed.

Lemma dict_get_none (item : gmap string pyval) k :
  item !! k = None -> forall d, dict_get item k d = d.
Proof. intros H d. unfold dict_get. rewrite H. reflexivity. Qed.

Lemma safe_get_fallback (item : gmap string pyval) k1 val :
  malformed val ->
  _safe_int (dict_get item k1 val) = _safe_int (dict_get item k1 (VInt 0)).
Proof.
  intros H. unfold dict_get. destruct (item !! k1); simpl; [reflexivity|].
  rewrite (safe_int_malformed val H). reflexivity.
Qed.

Section NormalizerProperties.

Variable _detect_format : string -> string.
Variable py_repr : pyval -> string.

(** A malformed value under a counter key reads as the integer 0 stored
    under that key. *)
Lemma malformed_counter_reads_as_zero (item : gmap string pyval) k val :
  k ∈ numeric_keys -> item !! k = Some val -> malformed val ->
  parse_contentstudio_item _detect_format py_repr (<[k := VInt 0]> item)
  = parse_contentstudio_item _detect_format py_repr item.
Proof.
  intros Hk Hlook Hmal.
  pose proof (dict_get_some item k val Hlook) as Hget.
  pose proof (safe_int_malformed val Hmal) as Hzero.
  pose proof (safe_get_fallback item) as Hfall.
  unfold parse_contentstudio_item. cbv zeta.
  unfold numeric_keys in Hk.
  repeat (apply elem_of_cons in Hk as [->|Hk]); [..|inversion Hk];
    rewrite ?dict_get_insert_eq;
    rewrite ?dict_get_insert_ne by discriminate;
    rewrite ?Hget;
    rewrite ?(Hfall _ val Hmal);
    rewrite ?Hzero, ?safe_int_zero;
    reflexivity.
Qed.

Lemma as_text_inv e val s : as_text e val = Ok s -> val = VStr s.
Proof. destruct val; simpl; try discriminate. intros H. injection H as <-. reflexivity. Qed.

Lemma score_post_keeps p q :
  _score_post p = Ok q -> q = set_score p (composite_score q) (benchmark_delta q).
Proof.
  intros H. destruct (score_post_unfold p) as (e & c & s & sh & _ & _ & _ & _ & Hp).
  pose proof (eq_trans (eq_sym H) Hp) as E. injection E as ->. reflexivity.
Qed.

Lemma compute_rates_keeps p q :
  _compute_rates p = Ok q ->
  q = set_rates p (engagement_rate q) (comment_rate q) (save_rate q) (share_rate q) (click_rate q).
Proof.
  intros H. destruct (compute_rates_cases p) as [Hp | Hp].
  - pose proof (eq_trans (eq_sym H) Hp) as E. injection E as ->. reflexivity.
  - pose proof (eq_trans (eq_sym H) Hp) as E. discriminate E.
Qed.

Lemma parse_item_platform (item : gmap string pyval) p :
  parse_contentstudio_item _detect_format py_repr item = Ok p ->
  exists s, item_platform item = VStr s /\ platform p = lower s.
Proof.
  unfold parse_contentstudio_item. cbv zeta. intros H.
  apply bind_inv in H as (niche_name & _ & H).
  apply bind_inv in H as (platform_name & Hpl & H).
  apply fmap_inv in Hpl as (s & Hs & ->).
  apply as_text_inv in Hs.
  do 8 (apply bind_inv in H as (? & _ & H)).
  apply bind_inv in H as (p1 & Hrates & Hscore).
  apply compute_rates_keeps in Hrates. apply score_post_keeps in Hscore.
  exists s. split; [exact Hs|].
  rewrite Hscore, Hrates. reflexivity.
Qed.

Lemma missing_or_malformed_one (item : gmap string pyval) k :
  counters_missing_or_malformed item -> k ∈ numeric_keys ->
  _safe_int (dict_get item k (VInt 0)) = Ok 0.
Proof.
  intros H Hk. specialize (H k Hk). unfold dict_get.
  destruct (item !! k) as [val|]; simpl; [apply safe_int_malformed; exact H | reflexivity].
Qed.

Lemma missing_or_malformed_two (item : gmap string pyval) k1 k2 :
  counters_missing_or_malformed item -> k1 ∈ numeric_keys -> k2 ∈ numeric_keys ->
  _safe_int (dict_get item k1 (dict_get item k2 (VInt 0))) = Ok 0.
Proof.
  intros H Hk1 Hk2. pose proof (H k1 Hk1) as H1. unfold dict_get at 1.
  destruct (item !! k1) as [val|]; simpl;
    [apply safe_int_malformed; exact H1 | apply missing_or_malformed_one; assumption].
Qed.

Lemma parse_item_zero_counters (item : gmap string pyval) :
  text_fields_ok item -> counters_missing_or_malformed item ->
  exists p, parse_contentstudio_item _detect_format py_repr item = Ok p /\
    impressions p = 0 /\ reach p = 0 /\ likes p = 0 /\ comments p = 0 /\
    shares p = 0 /\ saves p = 0 /\ clicks p = 0.
Proof.
  intros ((content & Hcontent) & (pl & Hpl) & Hniche) Hnum.
  unfold item_content, item_platform in *.
  unfold parse_contentstudio_item. cbv zeta.
  assert (Hn : exists niche_name,
            (if truthy (dict_get item "niche" VNone)
             then as_text TypeError (dict_get item "niche" VNone)
             else as_text AttributeError
                    (dict_get item "message" (dict_get item "content"
                       (dict_get item "caption" (VStr ""))))
                  ≫= (fun content => mret (_detect_niche content))) = Ok niche_name).
  { destruct (truthy (dict_get item "niche" VNone)).
    - destruct (Hniche eq_refl) as (n & ->). eexists. reflexivity.
    - rewrite Hcontent. eexists. reflexivity. }
  destruct Hn as (niche_name & ->). rewrite bind_ok.
  rewrite Hpl, Hcontent. simpl as_text. rewrite fmap_ok, !bind_ok.
  rewrite (missing_or_malformed_two item "impressions" "reach" Hnum)
    by (unfold numeric_keys; repeat constructor).
  rewrite bind_ok.
  rewrite (missing_or_malformed_one item "reach" Hnum)
    by (unfold numeric_keys; repeat constructor).
  rewrite bind_ok.
  rewrite (missing_or_malformed_two item "likes" "reactions" Hnum)
    by (unfold numeric_keys; repeat constructor).
  rewrite bind_ok.
  rewrite (missing_or_malformed_one item "comments" Hnum)
    by (unfold numeric_keys; repeat constructor).
  rewrite bind_ok.
  rewrite (missing_or_malformed_two item "shares" "reposts" Hnum)
    by (unfold numeric_keys; repeat constructor).
  rewrite bind_ok.
  rewrite (missing_or_malformed_two item "saves" "bookmarks" Hnum)
    by (unfold numeric_keys; repeat constructor).
  rewrite bind_ok.
  rewrite (missing_or_malformed_two item "link_clicks" "clicks" Hnum)
    by (unfold numeric_keys; repeat constructor).
  rewrite bind_ok.
  match goal with
  | |- exists p, _compute_rates ?p0 ≫= _ = _ /\ _ =>
    destruct (compute_rates_cases p0) as [Hr | Hr];
      [| exfalso; rewrite compute_rates_small in Hr by (simpl; lia); discriminate Hr];
      rewrite Hr, bind_ok;
      match goal with
      | |- exists p, _score_post ?p1 = _ /\ _ =>
        destruct (score_post_unfold p1) as (e & c & s & sh & _ & _ & _ & _ & Hs);
          rewrite Hs
      end
  end.
  eexists. split; [reflexivity|].
  repeat split.
Qed.

(** C4, as the code behaves.  [_safe_int] returns on every value, with 0
    for one that does not read as an int.  In [_parse_contentstudio_json]
    a malformed value under a counter key reads exactly as the integer 0
    under that key, and a row whose text fields are strings and whose
    counters are all missing or malformed is normalized, without an
    exception, to a post with every counter 0.  The platform of a
    normalized row is the lower-cased [platform] (else
    [social_account_type]) value of the row, whatever its name, and
    "linkedin" when the row has neither key. *)
Theorem normalizer_counters_and_platform :
  (forall val, exists n, _safe_int val = Ok n /\ (malformed val -> n = 0)) /\
  (forall (item : gmap string pyval) k val,
     k ∈ numeric_keys -> item !! k = Some val -> malformed val ->
     parse_contentstudio_item _detect_format py_repr (<[k := VInt 0]> item)
     = parse_contentstudio_item _detect_format py_repr item) /\
  (forall item : gmap string pyval,
     text_fields_ok item -> counters_missing_or_malformed item ->
     exists p, parse_contentstudio_item _detect_format py_repr item = Ok p /\
       impressions p = 0 /\ reach p = 0 /\ likes p = 0 /\ comments p = 0 /\
       shares p = 0 /\ saves p = 0 /\ clicks p = 0) /\
  (forall (item : gmap string pyval) p,
     parse_contentstudio_item _detect_format py_repr item = Ok p ->
     exists s, item_platform item = VStr s /\ platform p = lower s) /\
  (forall (item : gmap string pyval) p,
     parse_contentstudio_item _detect_format py_repr item = Ok p ->
     item !! "platform" = None -> item !! "social_account_type" = None ->
     platform p = "linkedin").
Proof.
  split.
  { intros val. destruct (safe_int_total val) as (n & Hn & Hz & _).
    exists n. split; assumption. }
  split; [exact malformed_counter_reads_as_zero|].
  split; [exact parse_item_zero_counters|].
  split; [exact parse_item_platform|].
  intros item p Hp H1 H2.
  destruct (parse_item_platform item p Hp) as (s & Hs & ->).
  unfold item_platform in Hs.
  rewrite (dict_get_none item "platform" H1), (dict_get_none item "social_account_type" H2) in Hs.
  injection Hs as <-. reflexivity.
Qed.

End NormalizerProperties.

Lemma tiktok_row_value :
  exists p,
    parse_contentstudio_item (fun _ => "narrative") (fun _ => "") tiktok_row = Ok p /\
    platform p = "tiktok".
Proof. eexists. split; vm_compute; reflexivity. Qed.

(** A row with an unknown platform does not come out as "linkedin": the
    name it gives is kept, lower-cased. *)
Lemma unknown_platform_is_kept :
  ~ (forall p,
       parse_contentstudio_item (fun _ => "narrative") (fun _ => "") tiktok_row = Ok p ->
       platform p = "linkedin").
Proof.
  intros H. destruct tiktok_row_value as (p & Hp & Hpl).
  specialize (H p Hp).
  pose proof (eq_trans (eq_sym Hpl) H) as X. discriminate X.
Qed.

(** * Further properties of the module *)

(** ** Niche detection and hooks *)

Lemma max_by_in {A} (key : A -> Z) (xs : list A) x : max_by key xs = Some x -> x ∈ xs.
Proof.
  destruct xs as [|y ys]; [discriminate|]. simpl. intros H. injection H as <-.
  assert (G : forall best, foldl (fun best y => if key best <? key y then y else best) best ys
                           ∈ best :: ys).
  { induction ys as [|z ys IH]; intros best; simpl; [left|].
    destruct (key best <? key z).
    - right. apply IH.
    - specialize (IH best). apply elem_of_cons in IH as [->|IH]; [left | right; right; exact IH]. }
  apply G.
Qed.

Lemma max_by_max {A} (key : A -> Z) (xs : list A) x :
  max_by key xs = Some x -> forall y, y ∈ xs -> key y <= key x.
Proof.
  destruct xs as [|y0 ys]; [discriminate|]. simpl. intros H. injection H as <-.
  assert (G : forall best,
             key best <= key (foldl (fun best y => if key best <? key y then y else best) best ys) /\
             forall y, y ∈ ys ->
               key y <= key (foldl (fun best y => if key best <? key y then y else best) best ys)).
  { induction ys as [|z ys IH]; intros best; simpl.
    - split; [lia|]. intros y Hy. inversion Hy.
    - destruct (key best <? key z) eqn:E.
      + apply Z.ltb_lt in E. destruct (IH z) as [H1 H2]. split; [lia|].
        intros y Hy. apply elem_of_cons in Hy as [->|Hy]; [exact H1 | apply H2, Hy].
      + apply Z.ltb_ge in E. destruct (IH best) as [H1 H2]. split; [exact H1|].
        intros y Hy. apply elem_of_cons in Hy as [->|Hy]; [lia | apply H2, Hy]. }
  intros y Hy. destruct (G y0) as [H1 H2].
  apply elem_of_cons in Hy as [->|Hy]; [exact H1 | apply H2, Hy].
Qed.

Lemma bench_of_entry name config :
  (name, config) ∈ NICHE_BENCHMARKS -> bench_of name = config.
Proof.
  unfold NICHE_BENCHMARKS. intros H.
  repeat (apply elem_of_cons in H as [H|H]; [injection H as -> ->; reflexivity|]).
  inversion H.
Qed.

Lemma pillar_hits_nonneg content config : 0 <= pillar_hits content config.
Proof. unfold pillar_hits. lia. Qed.

Lemma detect_niche_scores content :
  _detect_niche content =
    match max_by snd (omap (fun '(name, config) =>
                              if 0 <? pillar_hits content config
                              then Some (name, pillar_hits content config) else None)
                           NICHE_BENCHMARKS) with
    | Some (name, _) => name
    | None => "ttbp"
    end.
Proof. reflexivity. Qed.

(** X1. Whatever the text, [_detect_niche] answers with one of the five
    keys of [NICHE_BENCHMARKS]; no niche has more of its pillar keywords
    in the lower-cased text than the niche returned; and the answer is
    "ttbp" when the text holds no pillar keyword at all. *)
Theorem detect_niche_known (content : string) :
  _detect_niche content ∈ known_niches /\
  (forall name config, (name, config) ∈ NICHE_BENCHMARKS ->
     pillar_hits content config <= pillar_hits content (bench_of (_detect_niche content))) /\
  ((forall name config, (name, config) ∈ NICHE_BENCHMARKS -> pillar_hits content config = 0) ->
   _detect_niche content = "ttbp").
Proof.
  rewrite detect_niche_scores.
  set (scores := omap (fun '(name, config) =>
                         if 0 <? pillar_hits content config
                         then Some (name, pillar_hits content config) else None)
                      NICHE_BENCHMARKS).
  assert (Hin : forall name config, (name, config) ∈ NICHE_BENCHMARKS ->
                  0 < pillar_hits content config ->
                  (name, pillar_hits content config) ∈ scores).
  { intros name config Hm Hpos. unfold scores. apply list_elem_of_omap.
    exists (name, config). split; [exact Hm|]. simpl.
    apply Z.ltb_lt in Hpos. rewrite Hpos. reflexivity. }
  assert (Hout : forall name sc, (name, sc) ∈ scores ->
                  exists config, (name, config) ∈ NICHE_BENCHMARKS /\
                    sc = pillar_hits content config /\ 0 < sc).
  { intros name sc Hm. unfold scores in Hm.
    apply list_elem_of_omap in Hm as ([name' config] & Hm & Hf). simpl in Hf.
    destruct (0 <? pillar_hits content config) eqn:E; [|discriminate].
    injection Hf as -> <-. exists config. apply Z.ltb_lt in E. auto. }
  destruct (max_by snd scores) as [[name sc]|] eqn:E.
  - pose proof (max_by_in _ _ _ E) as Hm. apply Hout in Hm as (config & Hm & -> & Hpos).
    split; [|split].
    + unfold known_niches. apply list_elem_of_fmap. exists (name, config). split; [reflexivity|exact Hm].
    + intros name' config' Hm'. rewrite (bench_of_entry _ _ Hm).
      destruct (Z_lt_le_dec 0 (pillar_hits content config')) as [Hp|Hp]; [|lia].
      apply (max_by_max _ _ _ E (name', pillar_hits content config')), Hin; assumption.
    + intros Hz. rewrite (Hz _ _ Hm) in Hpos. lia.
  - assert (Hempty : scores = []) by (destruct scores; [reflexivity|discriminate]).
    split; [|split].
    + unfold known_niches. simpl. left.
    + intros name' config' Hm'.
      destruct (Z_lt_le_dec 0 (pillar_hits content config')) as [Hp|Hp].
      * pose proof (Hin _ _ Hm' Hp) as Hx. rewrite Hempty in Hx. inversion Hx.
      * pose proof (pillar_hits_nonneg content (bench_of "ttbp")). lia.
    + reflexivity.
Qed.

Lemma detect_niche_known_witness : _detect_niche "Hello world" = "ttbp".
Proof.
  refine (proj2 (proj2 (detect_niche_known "Hello world")) _).
  intros name config H. unfold NICHE_BENCHMARKS in H.
  repeat (apply elem_of_cons in H as [H|H]; [injection H as -> ->; reflexivity|]).
  inversion H.
Defined.

Lemma detect_niche_in_known content : _detect_niche content ∈ known_niches.
Proof.
  rewrite detect_niche_scores.
  destruct (max_by snd _) as [[name sc]|] eqn:E; [|unfold known_niches; simpl; left].
  apply max_by_in, list_elem_of_omap in E as ([name' config] & Hm & Hf). simpl in Hf.
  destruct (0 <? pillar_hits content config); [|discriminate].
  injection Hf as -> _.
  unfold known_niches. apply list_elem_of_fmap. exists (name, config). split; [reflexivity|exact Hm].
Qed.

Lemma substring_length n s : (String.length (substring 0 n s) <= n)%nat.
Proof.
  revert s. induction n as [|n IH]; intros s.
  - destruct s; simpl; lia.
  - destruct s as [|c s]; simpl; [lia|]. specialize (IH s). lia.
Qed.

Lemma lstrip_head s c t : lstrip s = String c t -> is_space c = false.
Proof.
  induction s as [|d s IH]; simpl; [discriminate|].
  destruct (is_space d) eqn:E; [exact IH|]. intros H. injection H as <- _. exact E.
Qed.

Lemma rstrip_head s c t : rstrip s = String c t -> exists t', s = String c t'.
Proof.
  destruct s as [|d s]; simpl; [discriminate|].
  destruct (rstrip s).
  - destruct (is_space d); [discriminate|]. intros H. injection H as <- _. eauto.
  - intros H. injection H as <- _. eauto.
Qed.

Lemma strip_head s c t : strip s = String c t -> is_space c = false.
Proof.
  unfold strip. intros H. apply rstrip_head in H as [t' H]. exact (lstrip_head _ _ _ H).
Qed.

Lemma extract_hook_length content : (String.length (_extract_hook content) <= 120)%nat.
Proof. unfold _extract_hook. cbv zeta. destruct (filter _ _); apply substring_length. Qed.

(** X2. The hook [_extract_hook] returns is never longer than 120
    characters; when the text has a line that is not blank, the hook is
    not empty and starts with a character that is not whitespace. *)
Theorem extract_hook_short (content : string) :
  (String.length (_extract_hook content) <= 120)%nat /\
  (has_text content ->
   exists c t, _extract_hook content = String c t /\ is_space c = false).
Proof.
  split; [apply extract_hook_length|].
  unfold _extract_hook. cbv zeta.
  intros (ln & Hin & Hne).
  destruct (filter (fun ln => ln <> "") (strip <$> split_on newline content)) as [|l ls] eqn:E.
  - exfalso. assert (Hm : strip ln ∈ filter (fun ln => ln <> "") (strip <$> split_on newline content)).
    { apply list_elem_of_filter. split; [exact Hne|]. apply list_elem_of_fmap. eauto. }
    rewrite E in Hm. inversion Hm.
  - assert (Hm : l ∈ filter (fun ln => ln <> "") (strip <$> split_on newline content))
      by (rewrite E; left).
    apply list_elem_of_filter in Hm as [Hl Hm].
    apply list_elem_of_fmap in Hm as (s & -> & _).
    destruct (strip s) as [|c t] eqn:Es; [contradiction|].
    exists c, (substring 0 119 t). split; [reflexivity|]. exact (strip_head _ _ _ Es).
Qed.

Lemma extract_hook_short_witness :
  exists c t, _extract_hook "  Stop guessing." = String c t /\ is_space c = false.
Proof.
  apply (extract_hook_short "  Stop guessing.").
  exists "  Stop guessing.". split; [left | discriminate].
Defined.

(** ** Rates *)

Lemma rate_formula_mono a b base :
  0 < base -> a <= b -> fleb (rate_formula a base) (rate_formula b base) = true.
Proof.
  intros Hb Hab. unfold rate_formula.
  destruct cap_values as (_ & _ & _ & _ & V100).
  pose proof one_u_pos as Hu.
  apply py_round_mono; [lia|]. rewrite V100.
  apply fmul_mono_l; [lia|]. unfold lit.
  apply rnd_mono; [lia | lia |].
  apply Z.mul_le_mono_nonneg_r; [lia|].
  apply Z.mul_le_mono_nonneg_r; lia.
Qed.

Lemma round_zero : py_round 2 (Fin 0) = Fin 0 /\ py_round 2 (of_Z 100) = of_Z 100 /\
  fmul (of_Z 1) (of_Z 100) = of_Z 100 /\ of_Z 1 = Fin one_u.
Proof. vm_compute. repeat split; reflexivity. Qed.

Lemma rate_formula_zero base : 0 < base -> rate_formula 0 base = Fin 0.
Proof.
  intros Hb. unfold rate_formula, lit. rewrite Z.mul_0_l, rnd_zero by lia.
  destruct cap_values as (_ & _ & _ & _ & V100). rewrite V100, fmul_zero_l.
  apply round_zero.
Qed.

Lemma lit_self n : 0 < n -> lit n n = of_Z 1.
Proof.
  intros Hn. unfold of_Z, lit.
  replace (n * one_u) with (1 * one_u * n) by lia.
  replace (rnd (1 * one_u * n) n) with (rnd (1 * one_u * n) (1 * n)) by (f_equal; lia).
  apply rnd_scale; lia.
Qed.

Lemma rate_formula_full base : 0 < base -> rate_formula base base = of_Z 100.
Proof.
  intros Hb. unfold rate_formula. rewrite lit_self by lia.
  destruct round_zero as (_ & R & M & _). rewrite M. exact R.
Qed.

(** X3. On a post whose counters are not negative, the rates
    [_compute_rates] stores are not negative, the comment, save and
    share rates never exceed the engagement rate, and the engagement
    rate is at most 100 when the interactions do not outnumber the base
    of the rates. *)
Theorem compute_rates_ordered p q :
  0 <= likes p -> 0 <= comments p -> 0 <= shares p -> 0 <= saves p -> 0 <= clicks p ->
  _compute_rates p = Ok q ->
  fleb (of_Z 0) (comment_rate q) = true /\
  fleb (of_Z 0) (save_rate q) = true /\
  fleb (of_Z 0) (share_rate q) = true /\
  fleb (of_Z 0) (click_rate q) = true /\
  fleb (comment_rate q) (engagement_rate q) = true /\
  fleb (save_rate q) (engagement_rate q) = true /\
  fleb (share_rate q) (engagement_rate q) = true /\
  (likes p + comments p + shares p + saves p <= rate_base p ->
   fleb (engagement_rate q) (of_Z 100) = true).
Proof.
  intros Hl Hc Hsh Hs Hcl Hq.
  pose proof (rate_base_pos p) as Hb.
  destruct (compute_rates_cases p) as [E|E];
    [|pose proof (eq_trans (eq_sym E) Hq) as X; discriminate X].
  pose proof (eq_trans (eq_sym E) Hq) as X. injection X as <-.
  cbn [set_rates comment_rate save_rate share_rate click_rate engagement_rate].
  rewrite of_Z_0, <- (rate_formula_zero (rate_base p)) by lia.
  do 7 (split; [apply rate_formula_mono; lia|]).
  intros Hle. rewrite <- (rate_formula_full (rate_base p)) by lia.
  apply rate_formula_mono; lia.
Qed.

Lemma compute_rates_ordered_witness :
  fleb (comment_rate (set_rates post_likes_10 (lit 15 10) (lit 5 10) (of_Z 0) (of_Z 0) (of_Z 0)))
       (engagement_rate (set_rates post_likes_10 (lit 15 10) (lit 5 10) (of_Z 0) (of_Z 0) (of_Z 0)))
    = true.
Proof.
  refine (proj1 (proj2 (proj2 (proj2 (proj2
    (compute_rates_ordered post_likes_10 _ _ _ _ _ _ _)))))).
  - simpl; lia.
  - simpl; lia.
  - simpl; lia.
  - simpl; lia.
  - simpl; lia.
  - vm_compute. reflexivity.
Defined.

Lemma rate_base_scale k p :
  0 < k -> 0 < impressions p \/ 1 <= reach p ->
  rate_base (scale_counters k p) = k * rate_base p.
Proof.
  intros Hk Hp. unfold rate_base. cbn [scale_counters impressions reach].
  destruct (Z.ltb_spec 0 (impressions p)) as [Hi|Hi].
  - assert (E : (0 <? k * impressions p) = true) by (apply Z.ltb_lt; nia).
    rewrite E. reflexivity.
  - assert (E : (0 <? k * impressions p) = false) by (apply Z.ltb_ge; nia).
    rewrite E. destruct Hp as [Hp|Hp]; [lia|]. nia.
Qed.

Lemma rate_of_scale k num base :
  0 < k -> 0 < base -> rate_of (k * num) (k * base) = rate_of num base.
Proof.
  intros Hk Hb. unfold rate_of, int_truediv.
  assert (E0 : (base =? 0) = false) by (apply Z.eqb_neq; lia).
  assert (E1 : (0 <? base) = true) by (apply Z.ltb_lt; lia).
  assert (E2 : (k * base =? 0) = false) by (apply Z.eqb_neq; nia).
  assert (E3 : (0 <? k * base) = true) by (apply Z.ltb_lt; nia).
  rewrite E0, E1, E2, E3.
  replace (k * num * one_u) with (num * one_u * k) by lia.
  replace (k * base) with (base * k) by lia.
  rewrite rnd_scale by lia. reflexivity.
Qed.

(** X4. The rates depend on the proportions of the counters only:
    multiplying every counter of a post that has impressions or reach by
    the same positive factor leaves each rate bit for bit the same, and
    an overflow of the quotient happens for both posts or for
    neither. *)
Theorem compute_rates_scale k p :
  0 < k -> 0 < impressions p \/ 1 <= reach p ->
  _compute_rates (scale_counters k p) = scale_counters k <$> _compute_rates p.
Proof.
  intros Hk Hp. pose proof (rate_base_pos p) as Hb.
  unfold _compute_rates. rewrite rate_base_scale by assumption.
  cbn [scale_counters likes comments shares saves clicks].
  replace (k * likes p + k * comments p + k * shares p + k * saves p)
    with (k * (likes p + comments p + shares p + saves p)) by lia.
  rewrite !rate_of_scale by lia.
  destruct (rate_of (likes p + comments p + shares p + saves p) (rate_base p)); [|reflexivity].
  destruct (rate_of (comments p) (rate_base p)); [|reflexivity].
  destruct (rate_of (saves p) (rate_base p)); [|reflexivity].
  destruct (rate_of (shares p) (rate_base p)); [|reflexivity].
  destruct (rate_of (clicks p) (rate_base p)); reflexivity.
Qed.

Lemma compute_rates_scale_witness :
  _compute_rates (scale_counters 7 post_likes_50) = scale_counters 7 <$> _compute_rates post_likes_50.
Proof.
  apply (compute_rates_scale 7 post_likes_50); [lia | left; simpl; lia].
Defined.

(** ** Scores *)

Lemma compute_rates_same_counters p q r :
  impressions q = impressions p -> reach q = reach p -> likes q = likes p ->
  comments q = comments p -> shares q = shares p -> saves q = saves p ->
  clicks q = clicks p ->
  _compute_rates p = Ok r ->
  _compute_rates q =
    Ok (set_rates q (engagement_rate r) (comment_rate r) (save_rate r) (share_rate r)
          (click_rate r)).
Proof.
  intros Hi Hr Hl Hc Hsh Hs Hcl. unfold _compute_rates, rate_base.
  rewrite Hi, Hr, Hl, Hc, Hsh, Hs, Hcl.
  destruct (rate_of (likes p + comments p + shares p + saves p) _); [|discriminate].
  destruct (rate_of (comments p) _); [|discriminate].
  destruct (rate_of (saves p) _); [|discriminate].
  destruct (rate_of (shares p) _); [|discriminate].
  destruct (rate_of (clicks p) _); [|discriminate].
  intros H. injection H as <-. reflexivity.
Qed.

Lemma score_post_same_rates p q r :
  niche q = niche p -> platform q = platform p ->
  engagement_rate q = engagement_rate p -> comment_rate q = comment_rate p ->
  save_rate q = save_rate p -> share_rate q = share_rate p -> click_rate q = click_rate p ->
  _score_post p = Ok r ->
  _score_post q = Ok (set_score q (composite_score r) (benchmark_delta r)).
Proof.
  intros Hn Hpl He Hc Hs Hsh Hcl. unfold _score_post.
  rewrite Hn, Hpl, He, Hc, Hs, Hsh, Hcl.
  destruct (capped_component 50 _ _); [|discriminate].
  destruct (capped_component 15 (comment_rate p) _); [|discriminate].
  destruct (capped_component 15 (save_rate p) _); [|discriminate].
  destruct (capped_component 10 _ _); [|discriminate].
  intros H. injection H as <-. reflexivity.
Qed.

Lemma set_rates_same q :
  set_rates q (engagement_rate q) (comment_rate q) (save_rate q) (share_rate q) (click_rate q) = q.
Proof. destruct q; reflexivity. Qed.

Lemma set_score_same q : set_score q (composite_score q) (benchmark_delta q) = q.
Proof. destruct q; reflexivity. Qed.

(** X5. Scoring is stable under recomputation: a post that went through
    [_compute_rates] and [_score_post] comes out of a second pass
    unchanged, whatever its computed fields held at first. *)
Theorem rate_and_score_stable p q :
  rate_and_score p = Ok q -> rate_and_score q = Ok q.
Proof.
  unfold rate_and_score. intros H.
  apply bind_inv in H as (p' & Hr & Hs).
  pose proof (compute_rates_keeps _ _ Hr) as Ep.
  pose proof (score_post_keeps _ _ Hs) as Eq.
  assert (Hq : forall {A} (f : PostMetrics -> A),
            (forall r s d, f (set_score r s d) = f r) -> f q = f p').
  { intros A f Hf. rewrite Eq. apply Hf. }
  assert (Hp : forall {A} (f : PostMetrics -> A),
            (forall r a b c d e, f (set_rates r a b c d e) = f r) -> f p' = f p).
  { intros A f Hf. rewrite Ep. apply Hf. }
  assert (Hr' : _compute_rates q = Ok q).
  { rewrite (compute_rates_same_counters p q p' 
               (eq_trans (Hq _ impressions ltac:(reflexivity)) (Hp _ impressions ltac:(reflexivity)))
               (eq_trans (Hq _ reach ltac:(reflexivity)) (Hp _ reach ltac:(reflexivity)))
               (eq_trans (Hq _ likes ltac:(reflexivity)) (Hp _ likes ltac:(reflexivity)))
               (eq_trans (Hq _ comments ltac:(reflexivity)) (Hp _ comments ltac:(reflexivity)))
               (eq_trans (Hq _ shares ltac:(reflexivity)) (Hp _ shares ltac:(reflexivity)))
               (eq_trans (Hq _ saves ltac:(reflexivity)) (Hp _ saves ltac:(reflexivity)))
               (eq_trans (Hq _ clicks ltac:(reflexivity)) (Hp _ clicks ltac:(reflexivity)))
               Hr).
    rewrite <- (Hq _ engagement_rate ltac:(reflexivity)), <- (Hq _ comment_rate ltac:(reflexivity)),
      <- (Hq _ save_rate ltac:(reflexivity)), <- (Hq _ share_rate ltac:(reflexivity)),
      <- (Hq _ click_rate ltac:(reflexivity)).
    rewrite set_rates_same. reflexivity. }
  rewrite Hr'. change (_score_post q = Ok q).
  rewrite (score_post_same_rates p' q q
             (Hq _ niche ltac:(reflexivity)) (Hq _ platform ltac:(reflexivity))
             (Hq _ engagement_rate ltac:(reflexivity)) (Hq _ comment_rate ltac:(reflexivity))
             (Hq _ save_rate ltac:(reflexivity)) (Hq _ share_rate ltac:(reflexivity))
             (Hq _ click_rate ltac:(reflexivity)) Hs).
  rewrite set_score_same. reflexivity.
Qed.

Lemma rate_and_score_stable_witness :
  exists q, rate_and_score post_likes_10 = Ok q /\ rate_and_score q = Ok q.
Proof.
  eexists. split; [vm_compute; reflexivity|].
  apply (rate_and_score_stable post_likes_10). vm_compute. reflexivity.
Defined.

Lemma component_zero cap cu target :
  of_Z cap = Fin cu -> 0 < cu -> is_pos_fin target = true ->
  capped_component cap (Fin 0) target = Ok (Fin 0).
Proof.
  intros Hcap Hcu Ht.
  apply is_pos_fin_inv in Ht as (t & -> & Ht).
  unfold capped_component. rewrite of_Z_0, Hcap.
  assert (Hg : fgtb (Fin t) (Fin 0) = true) by (simpl; apply Z.ltb_lt; assumption).
  rewrite Hg.
  destruct (fdiv_pos_ok (Fin 0) t Ht) as (q & Hq & Eq).
  rewrite Hq, Eq, Z.mul_0_l, rnd_zero by lia.
  change (Ok (py_min (Fin cu) (fmul (Fin 0) (Fin cu))) = Ok (Fin 0)).
  rewrite fmul_zero_l. unfold py_min, fltb.
  apply Z.ltb_lt in Hcu. rewrite Hcu. reflexivity.
Qed.

Lemma click_zero : click_component (Fin 0) = Fin 0.
Proof.
  unfold click_component.
  destruct cap_values as (V5 & V10 & _). rewrite V5, V10, fmul_zero_l.
  unfold py_min, fltb. pose proof one_u_pos as Hu.
  assert (E : (0 <? 10 * one_u) = true) by (apply Z.ltb_lt; lia).
  rewrite E. reflexivity.
Qed.

(** X6. A post without any interaction gets an engagement rate of 0
    and a composite score of exactly 0, in every niche and on every
    platform, whatever its impressions and reach. *)
Theorem silent_post_scores_zero p :
  likes p = 0 -> comments p = 0 -> shares p = 0 -> saves p = 0 -> clicks p = 0 ->
  exists q, rate_and_score p = Ok q /\
    engagement_rate q = of_Z 0 /\ click_rate q = of_Z 0 /\ composite_score q = of_Z 0.
Proof.
  intros Hl Hc Hsh Hs Hcl.
  pose proof (rate_base_pos p) as Hb.
  unfold rate_and_score.
  rewrite compute_rates_small by (rewrite ?Hl, ?Hc, ?Hsh, ?Hs, ?Hcl; lia).
  rewrite Hl, Hc, Hsh, Hs, Hcl. change (0 + 0 + 0 + 0) with 0.
  rewrite rate_formula_zero by lia.
  set (p' := set_rates p (Fin 0) (Fin 0) (Fin 0) (Fin 0) (Fin 0)).
  change (exists q, _score_post p' = Ok q /\
            engagement_rate q = of_Z 0 /\ click_rate q = of_Z 0 /\ composite_score q = of_Z 0).
  destruct (bench_targets_pos (niche p')) as (P1 & P2 & P3 & P4).
  destruct cap_values as (_ & V10 & V15 & V50 & _).
  pose proof one_u_pos as Hu.
  destruct (score_post_unfold p') as (e & c & s & sh & He & Hc' & Hs' & Hsh' & Hq).
  change (engagement_rate p') with (Fin 0) in He.
  change (comment_rate p') with (Fin 0) in Hc'.
  change (save_rate p') with (Fin 0) in Hs'.
  change (share_rate p') with (Fin 0) in Hsh'.
  rewrite (component_zero 50 _ _ V50 ltac:(lia) (P4 (platform p'))) in He.
  rewrite (component_zero 15 _ _ V15 ltac:(lia) P1) in Hc'.
  rewrite (component_zero 15 _ _ V15 ltac:(lia) P2) in Hs'.
  rewrite (component_zero 10 _ _ V10 ltac:(lia) P3) in Hsh'.
  injection He as <-. injection Hc' as <-. injection Hs' as <-. injection Hsh' as <-.
  eexists. split; [exact Hq|].
  cbn [set_score engagement_rate click_rate composite_score].
  change (click_rate p') with (Fin 0). change (engagement_rate p') with (Fin 0).
  rewrite of_Z_0. split; [reflexivity|]. split; [reflexivity|].
  rewrite click_zero. unfold sum5.
  destruct cap_sums as (_ & _ & _ & _ & S0 & R0 & _).
  rewrite !S0. exact R0.
Qed.

Lemma silent_post_scores_zero_witness :
  exists q, rate_and_score (sample_post "quiet" "cb" "twitter" 800 600 0 0) = Ok q /\
    engagement_rate q = of_Z 0 /\ click_rate q = of_Z 0 /\ composite_score q = of_Z 0.
Proof.
  apply (silent_post_scores_zero (sample_post "quiet" "cb" "twitter" 800 600 0 0));
    reflexivity.
Defined.

Lemma fleb_antisym_fin x m : fleb x (Fin m) = true -> fleb (Fin m) x = true -> x = Fin m.
Proof.
  intros H1 H2.
  apply fleb_fin_r in H1 as [->|(n & -> & Hn)]; [discriminate H2|].
  apply fleb_fin_l in H2 as [H2|(n' & H2 & Hn')]; [discriminate H2|].
  injection H2 as <-. f_equal. lia.
Qed.

Lemma component_at_target cap cu t :
  of_Z cap = Fin cu -> 0 < cu -> 0 < t ->
  capped_component cap (Fin t) (Fin t) = Ok (Fin cu).
Proof.
  intros Hcap Hcu Ht. pose proof one_u_pos as Hu.
  unfold capped_component. rewrite of_Z_0, Hcap.
  assert (Hg : fgtb (Fin t) (Fin 0) = true) by (simpl; apply Z.ltb_lt; assumption).
  rewrite Hg.
  destruct (fdiv_pos_ok (Fin t) t Ht) as (q & Hq & Eq).
  rewrite Hq, Eq.
  assert (E1 : rnd (t * one_u) t = Fin one_u).
  { destruct round_zero as (_ & _ & _ & V1). rewrite <- V1. unfold of_Z, lit.
    replace (t * one_u) with (1 * one_u * t) by lia.
    replace (rnd (1 * one_u * t) t) with (rnd (1 * one_u * t) (1 * t)) by (f_equal; lia).
    apply rnd_scale; lia. }
  rewrite E1.
  change (Ok (py_min (Fin cu) (fmul (Fin one_u) (Fin cu))) = Ok (Fin cu)).
  assert (E2 : fmul (Fin one_u) (Fin cu) = Fin cu).
  { unfold fmul.
    replace (one_u * cu) with (cu * one_u) by lia.
    replace (rnd (cu * one_u) one_u) with (rnd (cu * one_u) (1 * one_u)) by (f_equal; lia).
    rewrite rnd_scale by lia.
    unfold of_Z, lit in Hcap. exact (rnd_idem (cap * one_u) 1 cu Z.lt_0_1 Hcap). }
  rewrite E2. unfold py_min, fltb. rewrite Z.ltb_irrefl. reflexivity.
Qed.

Lemma component_full cap cu rate target :
  of_Z cap = Fin cu -> 0 < cu -> is_pos_fin target = true ->
  fleb target rate = true ->
  capped_component cap rate target = Ok (Fin cu).
Proof.
  intros Hcap Hcu Ht Hle.
  destruct (component_mono cap cu target rate target Hcap Hcu Ht Hle) as (c & c' & Hc & Hc' & Hcc).
  destruct (component_ok cap cu rate target Hcap Hcu Ht) as (c2 & Hc2 & Hup & _).
  pose proof (eq_trans (eq_sym Hc') Hc2) as X. injection X as <-.
  apply is_pos_fin_inv in Ht as (t & -> & Ht).
  rewrite (component_at_target cap cu t Hcap Hcu Ht) in Hc. injection Hc as <-.
  rewrite Hc'. f_equal. apply fleb_antisym_fin; assumption.
Qed.

Lemma click_two : click_component (of_Z 2) = Fin (10 * one_u).
Proof. vm_compute. reflexivity. Qed.

(** X7. A post that meets each of its four benchmark targets and has a
    click rate of at least 2 gets the full composite score, exactly
    100: every component is capped, so nothing beyond the targets is
    rewarded. *)
Theorem score_post_full_marks p :
  fleb (scaled_target_of (niche p) (platform p)) (engagement_rate p) = true ->
  fleb (comment_rate_target (bench_of (niche p))) (comment_rate p) = true ->
  fleb (save_rate_target (bench_of (niche p))) (save_rate p) = true ->
  fleb (share_rate_target (bench_of (niche p))) (share_rate p) = true ->
  fleb (of_Z 2) (click_rate p) = true ->
  exists q, _score_post p = Ok q /\ composite_score q = of_Z 100.
Proof.
  intros He Hc Hs Hsh Hcl.
  destruct (bench_targets_pos (niche p)) as (P1 & P2 & P3 & P4).
  destruct cap_values as (_ & V10 & V15 & V50 & V100).
  pose proof one_u_pos as Hu.
  destruct (score_post_unfold p) as (e & c & s & sh & Ee & Ec & Es & Esh & Hq).
  rewrite (component_full 50 _ _ _ V50 ltac:(lia) (P4 (platform p)) He) in Ee.
  rewrite (component_full 15 _ _ _ V15 ltac:(lia) P1 Hc) in Ec.
  rewrite (component_full 15 _ _ _ V15 ltac:(lia) P2 Hs) in Es.
  rewrite (component_full 10 _ _ _ V10 ltac:(lia) P3 Hsh) in Esh.
  injection Ee as <-. injection Ec as <-. injection Es as <-. injection Esh as <-.
  assert (Ecl : click_component (click_rate p) = Fin (10 * one_u)).
  { apply fleb_antisym_fin; [apply click_le|].
    rewrite <- click_two. apply click_mono. exact Hcl. }
  eexists. split; [exact Hq|].
  cbn [set_score composite_score]. rewrite Ecl, V100. unfold sum5.
  destruct cap_sums as (S1 & S2 & S3 & S4 & _ & _ & R).
  rewrite S1, S2, S3, S4. exact R.
Qed.

Lemma score_post_full_marks_witness :
  exists q, _score_post (set_rates (sample_post "star" "ttbp" "linkedin" 1000 0 100 5)
                           (lit 105 10) (lit 5 10) (lit 3 10) (lit 2 10) (of_Z 2)) = Ok q /\
    composite_score q = of_Z 100.
Proof.
  apply (score_post_full_marks
           (set_rates (sample_post "star" "ttbp" "linkedin" 1000 0 100 5)
              (lit 105 10) (lit 5 10) (lit 3 10) (lit 2 10) (of_Z 2)));
    vm_compute; reflexivity.
Defined.

Lemma assoc_get_absent {V} (d : list (string * V)) k dflt :
  k ∉ fst <$> d -> assoc_get d k dflt = dflt.
Proof.
  induction d as [|[k' v] d IH]; intros Hk; [reflexivity|]. simpl.
  destruct (String.eqb_spec k k') as [->|Hne].
  - exfalso. apply Hk. left.
  - apply IH. intros Hin. apply Hk. right. exact Hin.
Qed.

Lemma platform_scale_keys b : b ∈ all_benchmarks ->
  fst <$> platform_scale b = known_platforms /\
  assoc_get (platform_scale b) "linkedin" (lit 10 10) = lit 10 10.
Proof.
  unfold all_benchmarks, NICHE_BENCHMARKS. intros H.
  repeat (apply elem_of_cons in H as [->|H]; [split; reflexivity|]).
  inversion H.
Qed.

Lemma score_post_by_targets p p' :
  bench_of (niche p) = bench_of (niche p') ->
  scaled_target_of (niche p) (platform p) = scaled_target_of (niche p') (platform p') ->
  engagement_rate p = engagement_rate p' -> comment_rate p = comment_rate p' ->
  save_rate p = save_rate p' -> share_rate p = share_rate p' -> click_rate p = click_rate p' ->
  verdict <$> _score_post p = verdict <$> _score_post p'.
Proof.
  intros Hb Ht He Hc Hs Hsh Hcl. unfold _score_post.
  rewrite Hb, Ht, He, Hc, Hs, Hsh, Hcl.
  destruct (capped_component 50 _ _); [|reflexivity].
  destruct (capped_component 15 (comment_rate p') _); [|reflexivity].
  destruct (capped_component 15 (save_rate p') _); [|reflexivity].
  destruct (capped_component 10 _ _); reflexivity.
Qed.

(** X8. [_score_post] never fails on a niche or platform it does not
    know: a post filed under a niche outside [NICHE_BENCHMARKS] gets the
    score and the benchmark delta it would get under "ttbp", and on a
    platform outside linkedin, instagram and twitter those it would get
    on linkedin (scale 1.0). *)
Theorem score_post_defaults niche_name platform_name p :
  (niche_name ∉ known_niches ->
   verdict <$> _score_post (refile niche_name platform_name p)
   = verdict <$> _score_post (refile "ttbp" platform_name p)) /\
  (platform_name ∉ known_platforms ->
   verdict <$> _score_post (refile niche_name platform_name p)
   = verdict <$> _score_post (refile niche_name "linkedin" p)).
Proof.
  split.
  - intros Hn.
    assert (Hb : bench_of niche_name = bench_of "ttbp").
    { unfold bench_of at 1. rewrite assoc_get_absent by exact Hn. reflexivity. }
    apply score_post_by_targets; try reflexivity.
    + exact Hb.
    + cbn [refile niche platform]. unfold scaled_target_of. rewrite Hb. reflexivity.
  - intros Hpl.
    apply score_post_by_targets; try reflexivity.
    cbn [refile niche platform]. unfold scaled_target_of.
    destruct (platform_scale_keys _ (bench_of_in niche_name)) as [Hk Hl].
    rewrite Hl. rewrite assoc_get_absent by (rewrite Hk; exact Hpl). reflexivity.
Qed.

Lemma score_post_defaults_witness :
  verdict <$> _score_post (refile "gardening" "linkedin" post_likes_10)
  = verdict <$> _score_post (refile "ttbp" "linkedin" post_likes_10).
Proof.
  refine (proj1 (score_post_defaults "gardening" "linkedin" post_likes_10) _).
  unfold known_niches. simpl. intros H.
  repeat (apply elem_of_cons in H as [H|H]; [discriminate H|]). inversion H.
Defined.

Lemma fsub_nonneg x t : fleb (Fin t) x = true -> fleb (Fin 0) (fsub x (Fin t)) = true.
Proof.
  intros H. apply fleb_fin_l in H as [->|(n & -> & Hn)]; [reflexivity|].
  unfold fsub, fopp, fadd. rewrite <- (rnd_zero 1) by lia.
  apply rnd_mono; lia.
Qed.

Lemma fsub_nonpos x t : fleb x (Fin t) = true -> fleb (fsub x (Fin t)) (Fin 0) = true.
Proof.
  intros H. apply fleb_fin_r in H as [->|(n & -> & Hn)]; [reflexivity|].
  unfold fsub, fopp, fadd. rewrite <- (rnd_zero 1) by lia.
  apply rnd_mono; lia.
Qed.

(** X9. The sign of [benchmark_delta] follows the comparison of the
    engagement rate with the scaled target: it is not negative when the
    rate reaches the target and not positive when the rate stays at or
    below it (a gap too small for two decimals rounds to 0). *)
Theorem benchmark_delta_sign p q :
  _score_post p = Ok q ->
  (fleb (scaled_target_of (niche p) (platform p)) (engagement_rate p) = true ->
   fleb (of_Z 0) (benchmark_delta q) = true) /\
  (fleb (engagement_rate p) (scaled_target_of (niche p) (platform p)) = true ->
   fleb (benchmark_delta q) (of_Z 0) = true).
Proof.
  intros Hq.
  destruct (score_post_unfold p) as (e & c & s & sh & _ & _ & _ & _ & E).
  pose proof (eq_trans (eq_sym E) Hq) as X. injection X as <-.
  cbn [set_score benchmark_delta].
  destruct (bench_targets_pos (niche p)) as (_ & _ & _ & P4).
  destruct (is_pos_fin_inv _ (P4 (platform p))) as (t & -> & Ht).
  rewrite of_Z_0. destruct round_zero as (R0 & _).
  split; intros H; rewrite <- R0.
  - apply py_round_mono; [lia|]. apply fsub_nonneg. exact H.
  - apply py_round_mono; [lia|]. apply fsub_nonpos. exact H.
Qed.

Lemma benchmark_delta_sign_witness :
  exists q, _score_post (set_rates post_likes_10 (lit 15 10) (lit 5 10) (of_Z 0) (of_Z 0) (of_Z 0))
            = Ok q /\ fleb (benchmark_delta q) (of_Z 0) = true.
Proof.
  eexists. split; [vm_compute; reflexivity|].
  refine (proj2 (benchmark_delta_sign
            (set_rates post_likes_10 (lit 15 10) (lit 5 10) (of_Z 0) (of_Z 0) (of_Z 0)) _ _) _);
    vm_compute; reflexivity.
Defined.

(** ** Niche summaries *)

Lemma dict_fromkeys_loop (xs acc : list string) :
  NoDup acc ->
  NoDup (foldl (fun keys x => if bool_decide (x ∈ keys) then keys else (keys ++ [x])%list) acc xs) /\
  forall x, x ∈ foldl (fun keys x => if bool_decide (x ∈ keys) then keys else (keys ++ [x])%list) acc xs
            <-> x ∈ acc \/ x ∈ xs.
Proof.
  revert acc. induction xs as [|y xs IH]; intros acc Hacc; simpl.
  - split; [exact Hacc|]. intros x. split; [auto|]. intros [H|H]; [exact H | inversion H].
  - destruct (bool_decide_reflect (y ∈ acc)) as [Hy|Hy].
    + destruct (IH acc Hacc) as [H1 H2]. split; [exact H1|].
      intros x. rewrite H2, elem_of_cons. split; [tauto|].
      intros [H|[->|H]]; auto.
    + assert (Hacc' : NoDup (acc ++ [y])).
      { apply NoDup_app. split; [exact Hacc|]. split; [|apply NoDup_singleton].
        intros x Hx Hx'. apply list_elem_of_singleton in Hx'. subst. contradiction. }
      destruct (IH _ Hacc') as [H1 H2]. split; [exact H1|].
      intros x. rewrite H2, elem_of_app, list_elem_of_singleton, elem_of_cons. tauto.
Qed.

Lemma dict_fromkeys_spec xs :
  NoDup (dict_fromkeys xs) /\ forall x, x ∈ dict_fromkeys xs <-> x ∈ xs.
Proof.
  destruct (dict_fromkeys_loop xs [] (NoDup_nil_2)) as [H1 H2]. split; [exact H1|].
  intros x. unfold dict_fromkeys. rewrite H2. split; [|auto].
  intros [H|H]; [inversion H | exact H].
Qed.

Lemma count_once (k : string) keys :
  NoDup keys -> k ∈ keys ->
  sum_list_with (fun k' => if bool_decide (k = k') then 1 else 0)%nat keys = 1%nat.
Proof.
  induction keys as [|k' keys IH]; intros Hnd Hin; [inversion Hin|].
  apply NoDup_cons in Hnd as [Hk' Hnd]. simpl.
  destruct (bool_decide_reflect (k = k')) as [<-|Hne].
  - assert (E : sum_list_with (fun k' => if bool_decide (k = k') then 1 else 0)%nat keys = 0%nat).
    { clear IH Hin Hnd. induction keys as [|k2 keys IH]; [reflexivity|]. simpl.
      destruct (bool_decide_reflect (k = k2)) as [->|_].
      - exfalso. apply Hk'. left.
      - apply IH. intros H. apply Hk'. right. exact H. }
    rewrite E. reflexivity.
  - apply elem_of_cons in Hin as [->|Hin]; [contradiction|]. rewrite IH by assumption. reflexivity.
Qed.

Lemma count_partition {A} (f : A -> string) keys (l : list A) :
  NoDup keys -> (forall x, x ∈ l -> f x ∈ keys) ->
  sum_list_with (fun k => length (filter (fun x => f x = k) l)) keys = length l.
Proof.
  intros Hnd. induction l as [|x l IH]; intros Hin.
  - simpl. clear. induction keys as [|k keys IHk]; [reflexivity|]. simpl. exact IHk.
  - assert (E : forall ks,
               sum_list_with (fun k => length (filter (fun x => f x = k) (x :: l))) ks
               = (sum_list_with (fun k' => if bool_decide (f x = k') then 1 else 0) ks
                  + sum_list_with (fun k => length (filter (fun x => f x = k) l)) ks)%nat).
    { induction ks as [|k ks IHk]; [reflexivity|]. simpl. rewrite IHk.
      rewrite filter_cons.
      destruct (decide (f x = k)) as [->|Hne].
      - rewrite bool_decide_eq_true_2 by reflexivity. simpl. lia.
      - rewrite bool_decide_eq_false_2 by exact Hne. simpl. lia. }
    rewrite E, count_once; [|exact Hnd | apply Hin; left].
    rewrite IH; [reflexivity|]. intros y Hy. apply Hin. right. exact Hy.
Qed.

Lemma niche_group_split (posts : list PostMetrics) niche_name platform_name :
  niche_group posts niche_name platform_name
  = filter (fun p => platform p = platform_name) (filter (fun p => niche p = niche_name) posts).
Proof.
  unfold niche_group. rewrite list_filter_filter. apply list_filter_iff. intros p. tauto.
Qed.

Lemma niche_groups_cover (posts : list PostMetrics) niches platforms :
  NoDup niches -> NoDup platforms ->
  (forall p, p ∈ posts -> niche p ∈ niches) ->
  (forall p, p ∈ posts -> platform p ∈ platforms) ->
  sum_list_with (fun niche_name =>
      sum_list_with (fun plat => length (niche_group posts niche_name plat)) platforms) niches
  = length posts.
Proof.
  intros Hn Hpl Hin Hip.
  rewrite <- (count_partition niche niches posts Hn Hin).
  assert (E : forall ks,
             sum_list_with (fun niche_name =>
               sum_list_with (fun plat => length (niche_group posts niche_name plat)) platforms) ks
             = sum_list_with (fun k => length (filter (fun p => niche p = k) posts)) ks).
  { induction ks as [|k ks IH]; [reflexivity|]. simpl. rewrite IH. f_equal.
    rewrite <- (count_partition platform platforms (filter (fun p => niche p = k) posts) Hpl).
    - clear. induction platforms as [|pl pls IH]; [reflexivity|]. simpl.
      rewrite IH, niche_group_split. reflexivity.
    - intros p Hp. apply list_elem_of_filter in Hp as [_ Hp]. apply Hip, Hp. }
  apply E.
Qed.

Lemma forallb_elem {A} (f : A -> bool) (l : list A) x :
  forallb f l = true -> x ∈ l -> f x = true.
Proof.
  induction l as [|y l IH]; intros H Hx; [inversion Hx|].
  cbn [forallb] in H. apply andb_true_iff in H as [Hy Hl].
  apply elem_of_cons in Hx as [->|Hx]; [exact Hy | exact (IH Hl Hx)].
Qed.

Lemma forallb_false_elem {A} (f : A -> bool) (l : list A) :
  forallb f l = false -> exists x, x ∈ l /\ f x = false.
Proof.
  induction l as [|y l IH]; intros H; [discriminate H|].
  cbn [forallb] in H. destruct (f y) eqn:Ey.
  - destruct (IH H) as (x & Hx & Hf). exists x. split; [right; exact Hx | exact Hf].
  - exists y. split; [left | exact Ey].
Qed.

(** Dates that parsed cannot be compared exactly when a naive and an
    aware one occur among them. *)
Lemma not_comparable_mixed l :
  Forall (fun d => d <> IsoValueError) l ->
  (dates_comparable l = false <->
   exists d1 d2, d1 ∈ l /\ d2 ∈ l /\ is_naive d1 = true /\ is_aware d2 = true).
Proof.
  intros Hl. unfold dates_comparable. rewrite Forall_forall in Hl. split.
  - intros H. apply orb_false_iff in H as [Hn Ha].
    apply forallb_false_elem in Hn as (d2 & Hd2 & Hn).
    apply forallb_false_elem in Ha as (d1 & Hd1 & Ha).
    exists d1, d2. split; [exact Hd1|]. split; [exact Hd2|].
    pose proof (Hl d1 Hd1) as N1. pose proof (Hl d2 Hd2) as N2.
    destruct d1, d2; try congruence; try discriminate; split; reflexivity.
  - intros (d1 & d2 & Hd1 & Hd2 & Hn & Ha).
    apply orb_false_iff. split.
    + destruct (forallb is_naive l) eqn:E; [|reflexivity].
      pose proof (forallb_elem _ _ _ E Hd2) as X.
      destruct d2; discriminate.
    + destruct (forallb is_aware l) eqn:E; [|reflexivity].
      pose proof (forallb_elem _ _ _ E Hd1) as X.
      destruct d1; discriminate.
Qed.

Lemma not_summarizable fromisoformat group :
  summarizable fromisoformat group = false <->
  (exists p, p ∈ group /\ unsliceable (hashtags p) = true) \/
  (exists d1 d2, d1 ∈ published_dates fromisoformat group /\
                 d2 ∈ published_dates fromisoformat group /\
                 is_naive d1 = true /\ is_aware d2 = true).
Proof.
  unfold summarizable.
  rewrite <- (not_comparable_mixed _ (published_dates_parsed fromisoformat group)).
  rewrite andb_false_iff. split.
  - intros [H|H]; [left | right; exact H].
    apply forallb_false_elem in H as (p & Hp & H). exists p. split; [exact Hp|].
    destruct (unsliceable (hashtags p)); [reflexivity | discriminate H].
  - intros [(p & Hp & H)|H]; [left | right; exact H].
    destruct (forallb (fun p => negb (unsliceable (hashtags p))) group) eqn:E; [|reflexivity].
    pose proof (forallb_elem _ _ _ E Hp) as X. cbv beta in X. rewrite H in X. discriminate X.
Qed.

Section SummaryProperties.

Variable set_rank : list string -> string -> Z.
Variable fromisoformat : string -> iso_result.

(** X10. [_analyze_niche] returns no summary exactly when no post
    carries the niche and the platform asked for.  On a group that is
    not empty it returns a summary exactly when the group is
    [summarizable]; otherwise it raises TypeError, which happens exactly
    when a post of the group has truthy hashtags that cannot be sliced
    or when a naive and an aware date occur among the dates of the
    group.  A summary names the niche and the platform asked for, counts
    the posts of the group, at least one, and its status is ABOVE,
    MEETING or BELOW. *)
Theorem analyze_niche_outcomes posts niche_name platform_name :
  (_analyze_niche set_rank fromisoformat posts niche_name platform_name = Ok None <->
   forall p, p ∈ posts -> ~ (niche p = niche_name /\ platform p = platform_name)) /\
  ((exists perf,
      _analyze_niche set_rank fromisoformat posts niche_name platform_name = Ok (Some perf)) <->
   niche_group posts niche_name platform_name <> [] /\
   summarizable fromisoformat (niche_group posts niche_name platform_name) = true) /\
  ((exists e, _analyze_niche set_rank fromisoformat posts niche_name platform_name = Raise e) <->
   (exists p, p ∈ niche_group posts niche_name platform_name /\
              unsliceable (hashtags p) = true) \/
   (exists d1 d2,
      d1 ∈ published_dates fromisoformat (niche_group posts niche_name platform_name) /\
      d2 ∈ published_dates fromisoformat (niche_group posts niche_name platform_name) /\
      is_naive d1 = true /\ is_aware d2 = true)) /\
  (forall e, _analyze_niche set_rank fromisoformat posts niche_name platform_name = Raise e ->
     e = TypeError) /\
  (forall perf,
     _analyze_niche set_rank fromisoformat posts niche_name platform_name = Ok (Some perf) ->
     np_niche perf = niche_name /\ np_platform perf = platform_name /\
     (1 <= post_count perf)%nat /\
     post_count perf = length (niche_group posts niche_name platform_name) /\
     benchmark_status perf ∈ ["ABOVE"; "MEETING"; "BELOW"]).
Proof.
  pose proof (analyze_niche_outcome set_rank fromisoformat posts niche_name platform_name) as Hout.
  pose proof (not_summarizable fromisoformat (niche_group posts niche_name platform_name)) as Hns.
  assert (Hempty : niche_group posts niche_name platform_name = [] <->
            forall p, p ∈ posts -> ~ (niche p = niche_name /\ platform p = platform_name)).
  { split.
    - intros He p Hp Hm.
      assert (Hin : p ∈ niche_group posts niche_name platform_name)
        by (apply list_elem_of_filter; auto).
      rewrite He in Hin. inversion Hin.
    - intros Hall. apply filter_none. exact Hall. }
  set (group := niche_group posts niche_name platform_name) in *.
  destruct Hout as [[He Hr]|[Hne Hout]].
  - split; [split; [intros _; apply Hempty, He | intros _; exact Hr]|].
    split; [split; [intros (perf & Hp) | intros [Hne _]; congruence]|].
    { pose proof (eq_trans (eq_sym Hr) Hp) as X. discriminate X. }
    split; [split; [intros (e & Hp) | intros Hc]|].
    { pose proof (eq_trans (eq_sym Hr) Hp) as X. discriminate X. }
    { exfalso. apply Hns in Hc. rewrite He in Hc. discriminate Hc. }
    split; intros x Hp; pose proof (eq_trans (eq_sym Hr) Hp) as X; discriminate X.
  - destruct (summarizable fromisoformat group) eqn:Es.
    + destruct Hout as (perf & Hr & Hn & Hpl & Hc & _ & _ & Hst).
      split; [split; [intros Hp | intros Hall; exfalso; apply Hne, Hempty, Hall]|].
      { pose proof (eq_trans (eq_sym Hr) Hp) as X. discriminate X. }
      split; [split; [intros _; split; [exact Hne | reflexivity] | intros _; exists perf; exact Hr]|].
      split; [split; [intros (e & Hp) | intros Hc'; apply Hns in Hc'; discriminate Hc']|].
      { pose proof (eq_trans (eq_sym Hr) Hp) as X. discriminate X. }
      split.
      { intros e Hp. pose proof (eq_trans (eq_sym Hr) Hp) as X. discriminate X. }
      intros perf' Hp. pose proof (eq_trans (eq_sym Hr) Hp) as X. injection X as <-.
      split; [exact Hn|]. split; [exact Hpl|]. split; [|split; [exact Hc | exact Hst]].
      rewrite Hc. destruct group; [congruence | simpl; lia].
    + split; [split; [intros Hp | intros Hall; exfalso; apply Hne, Hempty, Hall]|].
      { pose proof (eq_trans (eq_sym Hout) Hp) as X. discriminate X. }
      split; [split; [intros (perf & Hp) | intros [_ Hs]; discriminate Hs]|].
      { pose proof (eq_trans (eq_sym Hout) Hp) as X. discriminate X. }
      split; [split; [intros _; apply Hns; reflexivity | intros _; eexists; exact Hout]|].
      split.
      { intros e Hp. pose proof (eq_trans (eq_sym Hout) Hp) as X. injection X as <-. reflexivity. }
      intros perf Hp. pose proof (eq_trans (eq_sym Hout) Hp) as X. discriminate X.
Qed.

Lemma sorted_take_drop {A} (R : relation A) (l : list A) n x y :
  StronglySorted R l -> x ∈ take n l -> y ∈ drop n l -> R x y.
Proof.
  intros Hs Hx Hy. rewrite <- (take_drop n l) in Hs.
  exact (StronglySorted_app_1_elem_of _ _ _ _ _ Hs Hx Hy).
Qed.

(** X11. The posts [_analyze_niche] lists as top and bottom performers
    are posts of the input that carry the niche and platform of the
    summary; there are min(3, post count) of each; and when no score
    is NaN, no post left out of the top performers outranks one of them
    and no post left out of the bottom performers ranks below one of
    them. *)
Theorem top_performers_dominate posts niche_name platform_name perf :
  _analyze_niche set_rank fromisoformat posts niche_name platform_name = Ok (Some perf) ->
  (forall p, p ∈ top_performers perf \/ p ∈ bottom_performers perf ->
     p ∈ posts /\ niche p = niche_name /\ platform p = platform_name) /\
  length (top_performers perf) = Nat.min 3 (post_count perf) /\
  length (bottom_performers perf) = Nat.min 3 (post_count perf) /\
  exists rest others,
    (top_performers perf ++ rest)%list ≡ₚ niche_group posts niche_name platform_name /\
    (others ++ reverse (bottom_performers perf))%list ≡ₚ niche_group posts niche_name platform_name /\
    (Forall (fun p => composite_score p <> NaN) (niche_group posts niche_name platform_name) ->
     (forall p q, p ∈ top_performers perf -> q ∈ rest -> score_ge p q) /\
     (forall p q, p ∈ others -> q ∈ bottom_performers perf -> score_ge p q)).
Proof.
  intros Hperf.
  destruct (analyze_niche_outcome set_rank fromisoformat posts niche_name platform_name)
    as [[_ Hr]|[Hne Hout]].
  { pose proof (eq_trans (eq_sym Hr) Hperf) as X. discriminate X. }
  destruct (summarizable fromisoformat (niche_group posts niche_name platform_name)).
  2:{ pose proof (eq_trans (eq_sym Hout) Hperf) as X. discriminate X. }
  destruct Hout as (perf' & Hr & _ & _ & Hc & Ht & Hb & _).
  pose proof (eq_trans (eq_sym Hr) Hperf) as X. injection X as ->.
  set (group := niche_group posts niche_name platform_name) in *.
  set (ranked := sorted_desc composite_score group) in *.
  assert (Hperm : ranked ≡ₚ group) by apply sort_by_perm.
  assert (Hlen : length ranked = length group) by apply sort_by_length.
  assert (Hmem : forall p, p ∈ ranked -> p ∈ posts /\ niche p = niche_name /\ platform p = platform_name).
  { intros p Hp. rewrite Hperm in Hp. apply list_elem_of_filter in Hp. tauto. }
  split; [|split; [|split]].
  - intros p [Hp|Hp]; apply Hmem.
    + rewrite Ht in Hp. exact (elem_of_sublist _ _ _ Hp (sublist_take _ _)).
    + rewrite Hb, elem_of_reverse in Hp.
      exact (elem_of_sublist _ _ _ Hp (sublist_drop _ _)).
  - rewrite Ht, Hc, length_take, Hlen. reflexivity.
  - rewrite Hb, Hc, length_reverse. unfold last_n. rewrite length_drop, Hlen. lia.
  - exists (drop 3 ranked), (take (length ranked - 3) ranked).
    rewrite Ht, Hb, reverse_involutive. unfold last_n. rewrite !take_drop.
    split; [exact Hperm|]. split; [exact Hperm|].
    intros Hnan. pose proof (sorted_desc_sorted composite_score group Hnan) as Hs.
    fold ranked in Hs. split.
    + intros p q Hp Hq. exact (sorted_take_drop _ _ _ _ _ Hs Hp Hq).
    + intros p q Hp Hq. rewrite elem_of_reverse in Hq.
      exact (sorted_take_drop _ _ _ _ _ Hs Hp Hq).
Qed.

End SummaryProperties.

Lemma top_performers_dominate_witness :
  exists perf,
    _analyze_niche flat_rank fromisoformat_date [post_likes_10; post_likes_50] "ttbp" "linkedin"
      = Ok (Some perf) /\
    length (top_performers perf) = Nat.min 3 (post_count perf).
Proof.
  eexists. split; [vm_compute; reflexivity|].
  refine (proj1 (proj2 (top_performers_dominate flat_rank fromisoformat_date
            [post_likes_10; post_likes_50] "ttbp" "linkedin" _ _))).
  vm_compute. reflexivity.
Defined.

Lemma summarizable_filter fromisoformat (P : PostMetrics -> Prop)
    `{!forall p, Decision (P p)} posts :
  summarizable fromisoformat posts = true ->
  summarizable fromisoformat (filter P posts) = true.
Proof.
  unfold summarizable, dates_comparable, published_dates.
  intros Hs. apply andb_true_iff in Hs as [Hh Hd]. apply andb_true_iff. split.
  - clear Hd. induction posts as [|p posts IH]; [reflexivity|].
    cbn [forallb] in Hh. apply andb_true_iff in Hh as [Hp Hh].
    rewrite filter_cons. destruct (decide (P p)); [|exact (IH Hh)].
    cbn [forallb]. rewrite Hp. exact (IH Hh).
  - clear Hh. apply orb_true_iff in Hd. apply orb_true_iff.
    destruct Hd as [Hd|Hd]; [left | right].
    + induction posts as [|p posts IH]; [reflexivity|].
      cbn [omap list_omap] in Hd. rewrite filter_cons.
      destruct (decide (P p)).
      * cbn [omap list_omap].
        destruct (fromisoformat (date_part (published_at p))); cbn [forallb] in Hd |- *;
          try (apply andb_true_iff in Hd as [Hp Hd]; rewrite Hp); exact (IH Hd).
      * destruct (fromisoformat (date_part (published_at p))); cbn [forallb] in Hd;
          try (apply andb_true_iff in Hd as [Hp Hd]); exact (IH Hd).
    + induction posts as [|p posts IH]; [reflexivity|].
      cbn [omap list_omap] in Hd. rewrite filter_cons.
      destruct (decide (P p)).
      * cbn [omap list_omap].
        destruct (fromisoformat (date_part (published_at p))); cbn [forallb] in Hd |- *;
          try (apply andb_true_iff in Hd as [Hp Hd]; rewrite Hp); exact (IH Hd).
      * destruct (fromisoformat (date_part (published_at p))); cbn [forallb] in Hd;
          try (apply andb_true_iff in Hd as [Hp Hd]); exact (IH Hd).
Qed.

Lemma summarizable_all fromisoformat posts :
  summarizable fromisoformat posts = true -> all_summarizable fromisoformat posts = true.
Proof.
  intros H. unfold all_summarizable.
  apply forallb_forall. intros niche_name _.
  apply forallb_forall. intros plat _.
  apply summarizable_filter. exact H.
Qed.

Section LoopProperties.

Variable set_rank : list string -> string -> Z.
Variable fromisoformat : string -> iso_result.

Lemma platform_loop posts niche_name platforms acc :
  if forallb (fun plat => summarizable fromisoformat (niche_group posts niche_name plat)) platforms
  then
    exists new,
      for_each (fun performances plat =>
                  perf ← _analyze_niche set_rank fromisoformat posts niche_name plat;
                  mret (match perf with
                        | Some pf => (performances ++ [pf])%list
                        | None => performances
                        end))
               platforms acc = Ok (acc ++ new)%list /\
      sum_list_with post_count new
        = sum_list_with (fun plat => length (niche_group posts niche_name plat)) platforms /\
      Forall (fun perf => np_niche perf = niche_name /\ (1 <= post_count perf)%nat /\
                          benchmark_status perf ∈ ["ABOVE"; "MEETING"; "BELOW"]) new /\
      np_platform <$> new `sublist_of` platforms
  else
    for_each (fun performances plat =>
                perf ← _analyze_niche set_rank fromisoformat posts niche_name plat;
                mret (match perf with
                      | Some pf => (performances ++ [pf])%list
                      | None => performances
                      end))
             platforms acc = Raise TypeError.
Proof.
  revert acc. induction platforms as [|plat platforms IH]; intros acc.
  - exists []. rewrite for_each_nil, app_nil_r. repeat split; constructor.
  - rewrite for_each_cons. cbn [forallb].
    destruct (analyze_niche_outcome set_rank fromisoformat posts niche_name plat)
      as [[He Hr]|[Hne Hout]].
    + rewrite Hr, bind_ok, He.
      change (summarizable fromisoformat []) with true. cbn [andb].
      change (mret acc ≫= _) with
        (for_each (fun performances plat =>
                perf ← _analyze_niche set_rank fromisoformat posts niche_name plat;
                mret (match perf with
                      | Some pf => (performances ++ [pf])%list
                      | None => performances
                      end)) platforms acc).
      specialize (IH acc).
      destruct (forallb _ platforms); [|exact IH].
      destruct IH as (new & Hrun & Hsum & Hall & Hsub).
      exists new. split; [exact Hrun|]. split; [|split].
      * simpl. rewrite He, Hsum. reflexivity.
      * exact Hall.
      * apply sublist_cons. exact Hsub.
    + destruct (summarizable fromisoformat (niche_group posts niche_name plat));
        [|rewrite Hout; reflexivity].
      destruct Hout as (perf & Hr & Hn & Hpl & Hc & _ & _ & Hst).
      rewrite Hr, bind_ok. cbn [andb].
      change (mret (acc ++ [perf])%list ≫= _) with
        (for_each (fun performances plat =>
                perf ← _analyze_niche set_rank fromisoformat posts niche_name plat;
                mret (match perf with
                      | Some pf => (performances ++ [pf])%list
                      | None => performances
                      end)) platforms (acc ++ [perf])%list).
      specialize (IH (acc ++ [perf])%list).
      destruct (forallb _ platforms); [|exact IH].
      destruct IH as (new & Hrun & Hsum & Hall & Hsub).
      exists (perf :: new). split; [|split; [|split]].
      * rewrite Hrun, <- app_assoc. reflexivity.
      * simpl. rewrite Hsum, Hc. reflexivity.
      * constructor; [|exact Hall]. split; [exact Hn|]. split; [|exact Hst].
        rewrite Hc. destruct (niche_group posts niche_name plat); [congruence | simpl; lia].
      * simpl. rewrite Hpl. apply sublist_skip. exact Hsub.
Qed.

Lemma niche_loop posts niches platforms acc :
  NoDup niches -> NoDup platforms ->
  if forallb (fun niche_name =>
                forallb (fun plat => summarizable fromisoformat (niche_group posts niche_name plat))
                        platforms) niches
  then
    exists new,
      for_each (fun performances niche_name =>
                  for_each (fun performances plat =>
                              perf ← _analyze_niche set_rank fromisoformat posts niche_name plat;
                              mret (match perf with
                                    | Some pf => (performances ++ [pf])%list
                                    | None => performances
                                    end))
                           platforms performances)
               niches acc = Ok (acc ++ new)%list /\
      sum_list_with post_count new
        = sum_list_with (fun niche_name =>
            sum_list_with (fun plat => length (niche_group posts niche_name plat)) platforms) niches /\
      Forall (fun perf => np_niche perf ∈ niches /\ np_platform perf ∈ platforms /\
                          (1 <= post_count perf)%nat /\
                          benchmark_status perf ∈ ["ABOVE"; "MEETING"; "BELOW"]) new /\
      NoDup ((fun perf => (np_niche perf, np_platform perf)) <$> new)
  else
    for_each (fun performances niche_name =>
                for_each (fun performances plat =>
                            perf ← _analyze_niche set_rank fromisoformat posts niche_name plat;
                            mret (match perf with
                                  | Some pf => (performances ++ [pf])%list
                                  | None => performances
                                  end))
                         platforms performances)
             niches acc = Raise TypeError.
Proof.
  intros Hn Hpl. revert acc. induction niches as [|niche_name niches IH]; intros acc.
  - exists []. rewrite for_each_nil, app_nil_r. repeat split; constructor.
  - apply NoDup_cons in Hn as [Hfresh Hn]. rewrite for_each_cons. cbn [forallb].
    pose proof (platform_loop posts niche_name platforms acc) as H1.
    destruct (forallb (fun plat => summarizable fromisoformat (niche_group posts niche_name plat))
                platforms); [|rewrite H1; reflexivity].
    destruct H1 as (new1 & Hrun1 & Hsum1 & Hall1 & Hsub1).
    rewrite Hrun1, bind_ok. cbn [andb].
    specialize (IH Hn (acc ++ new1)%list).
    destruct (forallb _ niches); [|exact IH].
    destruct IH as (new2 & Hrun2 & Hsum2 & Hall2 & Hnd2).
    exists (new1 ++ new2)%list. split; [|split; [|split]].
    + rewrite Hrun2, <- app_assoc. reflexivity.
    + rewrite sum_list_with_app, Hsum1, Hsum2. reflexivity.
    + apply Forall_app. split.
      * rewrite Forall_forall in Hall1 |- *. intros perf Hperf.
        destruct (Hall1 perf Hperf) as (E & Hc & Hst). split; [rewrite E; left|].
        split; [|split; [exact Hc | exact Hst]].
        apply (elem_of_sublist _ _ _ (list_elem_of_fmap_2 np_platform _ _ Hperf) Hsub1).
      * eapply Forall_impl; [exact Hall2|]. intros perf (H1 & H2 & H3).
        split; [right; exact H1|]. split; assumption.
    + rewrite fmap_app. apply NoDup_app. split; [|split; [|exact Hnd2]].
      * apply (NoDup_fmap_1 snd). rewrite <- list_fmap_compose.
        exact (sublist_NoDup _ _ Hpl Hsub1).
      * intros key Hk1 Hk2.
        apply list_elem_of_fmap in Hk1 as (perf1 & -> & Hp1).
        apply list_elem_of_fmap in Hk2 as (perf2 & E & Hp2).
        rewrite Forall_forall in Hall1, Hall2.
        destruct (Hall1 _ Hp1) as [E1 _]. destruct (Hall2 _ Hp2) as [E2 _].
        injection E as En _. rewrite E1 in En. rewrite <- En in E2. contradiction.
Qed.

Lemma performances_cover posts :
  if all_summarizable fromisoformat posts
  then
    exists performances,
      summarize_week_performances set_rank fromisoformat posts = Ok performances /\
      sum_list_with post_count performances = length posts /\
      Forall (fun perf => np_niche perf ∈ niche <$> posts /\
                          np_platform perf ∈ platform <$> posts /\
                          (1 <= post_count perf)%nat /\
                          benchmark_status perf ∈ ["ABOVE"; "MEETING"; "BELOW"]) performances /\
      NoDup ((fun perf => (np_niche perf, np_platform perf)) <$> performances)
  else summarize_week_performances set_rank fromisoformat posts = Raise TypeError.
Proof.
  unfold summarize_week_performances, all_summarizable. cbv zeta.
  destruct (dict_fromkeys_spec (niche <$> posts)) as [Hn Hin].
  destruct (dict_fromkeys_spec (platform <$> posts)) as [Hpl Hip].
  pose proof (niche_loop posts _ _ [] Hn Hpl) as H.
  destruct (forallb _ (dict_fromkeys (niche <$> posts))); [|exact H].
  destruct H as (new & Hrun & Hsum & Hall & Hnd).
  exists new. split; [exact Hrun|]. split; [|split; [|exact Hnd]].
  - rewrite Hsum. apply niche_groups_cover; try assumption.
    + intros p Hp. apply Hin. apply list_elem_of_fmap_2. exact Hp.
    + intros p Hp. apply Hip. apply list_elem_of_fmap_2. exact Hp.
  - eapply Forall_impl; [exact Hall|]. intros perf (H1 & H2 & H3).
    split; [apply Hin, H1|]. split; [apply Hip, H2 | exact H3].
Qed.

(** X12. The analysis loop of [summarize_week] returns exactly when
    every group it visits is summarizable, as it is when the posts as a
    whole are; otherwise it raises TypeError.  When it returns, every
    post is filed under exactly one summary: the post counts of the
    summaries add up to the number of posts, no summary is empty, no
    two summaries share niche and platform, and both are taken from the
    posts. *)
Theorem every_post_in_one_summary posts :
  ((exists performances,
      summarize_week_performances set_rank fromisoformat posts = Ok performances) <->
   all_summarizable fromisoformat posts = true) /\
  (all_summarizable fromisoformat posts = false ->
   summarize_week_performances set_rank fromisoformat posts = Raise TypeError) /\
  (summarizable fromisoformat posts = true -> all_summarizable fromisoformat posts = true) /\
  forall performances,
    summarize_week_performances set_rank fromisoformat posts = Ok performances ->
    sum_list_with post_count performances = length posts /\
    Forall (fun perf => np_niche perf ∈ niche <$> posts /\
                        np_platform perf ∈ platform <$> posts /\
                        (1 <= post_count perf)%nat) performances /\
    NoDup ((fun perf => (np_niche perf, np_platform perf)) <$> performances).
Proof.
  pose proof (performances_cover posts) as H.
  split; [|split; [|split; [apply summarizable_all|]]].
  - destruct (all_summarizable fromisoformat posts).
    + destruct H as (performances & Hrun & _). split; [reflexivity|].
      intros _. exists performances. exact Hrun.
    + split; [|discriminate]. intros (performances & Hrun).
      pose proof (eq_trans (eq_sym H) Hrun) as X. discriminate X.
  - intros E. rewrite E in H. exact H.
  - intros performances Hperf.
    destruct (all_summarizable fromisoformat posts).
    2:{ pose proof (eq_trans (eq_sym H) Hperf) as X. discriminate X. }
    destruct H as (performances' & Hrun & Hsum & Hall & Hnd).
    pose proof (eq_trans (eq_sym Hrun) Hperf) as X. injection X as ->.
    split; [exact Hsum|]. split; [|exact Hnd].
    eapply Forall_impl; [exact Hall|]. intros perf (H1 & H2 & H3 & _). auto.
Qed.

(** X13. After the niche and platform filters of [summarize_week]: the
    call stops with a ValueError exactly when no post passes them;
    otherwise the posts kept are posts of the input in their order and
    at least one, and the analysis of them returns when they are
    summarizable.  Whenever the analysis returns, it gives at least one
    summary, every summary carries the niche and the platform asked
    for, and the exit code [main] gives after printing the report is 0
    exactly when no summary is BELOW its benchmark, and 1 otherwise. *)
Theorem filtered_summaries niche_filter platform_filter posts :
  (apply_filters niche_filter platform_filter posts = Raise ValueError <->
   forall p, p ∈ posts ->
     ~ ((niche_filter = "" \/ niche p = niche_filter) /\
        (platform_filter = "" \/ platform p = platform_filter))) /\
  (forall kept, apply_filters niche_filter platform_filter posts = Ok kept ->
     kept `sublist_of` posts /\ kept <> [] /\
     (summarizable fromisoformat kept = true ->
      exists performances,
        summarize_week_performances set_rank fromisoformat kept = Ok performances) /\
     forall performances,
       summarize_week_performances set_rank fromisoformat kept = Ok performances ->
       performances <> [] /\
       Forall (fun perf => (niche_filter <> "" -> np_niche perf = niche_filter) /\
                           (platform_filter <> "" -> np_platform perf = platform_filter))
         performances /\
       (exit_code performances = 0 <->
        Forall (fun perf => benchmark_status perf <> "BELOW") performances) /\
       (exit_code performances = 0 \/ exit_code performances = 1)).
Proof.
  unfold apply_filters.
  set (by_niche := if bool_decide (niche_filter = "") then posts
                   else filter (fun p => niche p = niche_filter) posts).
  set (kept := if bool_decide (platform_filter = "") then by_niche
               else filter (fun p => platform p = platform_filter) by_niche).
  assert (Hkept : forall p, p ∈ kept <->
            p ∈ posts /\ (niche_filter = "" \/ niche p = niche_filter) /\
            (platform_filter = "" \/ platform p = platform_filter)).
  { intros p. unfold kept, by_niche.
    destruct (bool_decide_reflect (platform_filter = "")) as [Hp|Hp];
      destruct (bool_decide_reflect (niche_filter = "")) as [Hn|Hn];
      rewrite ?list_elem_of_filter; tauto. }
  assert (Hsub : kept `sublist_of` posts).
  { unfold kept, by_niche.
    destruct (bool_decide (platform_filter = "")), (bool_decide (niche_filter = ""));
      try reflexivity; try apply sublist_filter.
    etransitivity; apply sublist_filter. }
  clearbody kept. clear by_niche.
  split.
  - split.
    + intros Hraise p Hp Hm. destruct kept as [|k ks]; [|discriminate Hraise].
      assert (Hin : p ∈ @nil PostMetrics) by (apply Hkept; tauto). inversion Hin.
    + intros Hnone. destruct kept as [|k ks]; [reflexivity|]. exfalso.
      assert (Hin : k ∈ k :: ks) by left.
      apply Hkept in Hin as (Hin & Hm). exact (Hnone k Hin Hm).
  - intros kept' Hrun.
    assert (Hne : kept <> [] /\ kept' = kept).
    { destruct kept as [|k ks]; [discriminate Hrun|]. injection Hrun as <-.
      split; [discriminate | reflexivity]. }
    destruct Hne as [Hne ->]. split; [exact Hsub|]. split; [exact Hne|].
    pose proof (performances_cover kept) as Hcov.
    split.
    { intros Hs. rewrite (summarizable_all _ _ Hs) in Hcov.
      destruct Hcov as (performances & Hperf & _). exists performances. exact Hperf. }
    intros performances Hperf.
    destruct (all_summarizable fromisoformat kept).
    2:{ pose proof (eq_trans (eq_sym Hcov) Hperf) as X. discriminate X. }
    destruct Hcov as (performances' & Hperf' & Hsum & Hall & _).
    pose proof (eq_trans (eq_sym Hperf') Hperf) as X. injection X as ->.
    split; [|split; [|split]].
    + intros ->. simpl in Hsum. destruct kept; [congruence | discriminate Hsum].
    + eapply Forall_impl; [exact Hall|]. intros perf (H1 & H2 & _).
      apply list_elem_of_fmap in H1 as (p1 & E1 & Hp1).
      apply list_elem_of_fmap in H2 as (p2 & E2 & Hp2).
      apply Hkept in Hp1 as (_ & Hn1 & _). apply Hkept in Hp2 as (_ & _ & Hpl2).
      split; [intros Hf; rewrite E1; tauto | intros Hf; rewrite E2; tauto].
    + unfold exit_code. split.
      * intros Hz. apply Forall_forall. intros perf Hin Hb.
        assert (Hm : perf ∈ filter (fun p => benchmark_status p = "BELOW") performances)
          by (apply list_elem_of_filter; auto).
        destruct (filter _ performances); [inversion Hm | discriminate Hz].
      * intros Hnone. rewrite filter_none; [reflexivity|].
        rewrite Forall_forall in Hnone. exact Hnone.
    + unfold exit_code. destruct (filter _ performances); auto.
Qed.

End LoopProperties.

Lemma filtered_summaries_witness :
  exists performances,
    summarize_week_performances flat_rank fromisoformat_date [post_likes_10; post_likes_50]
      = Ok performances /\
    performances <> [].
Proof.
  destruct (proj2 (filtered_summaries flat_rank fromisoformat_date "ttbp" ""
                     [post_likes_10; post_likes_50])
              [post_likes_10; post_likes_50]) as (_ & _ & Hex & Hfacts).
  - reflexivity.
  - destruct Hex as (performances & Hrun); [vm_compute; reflexivity|].
    exists performances. split; [exact Hrun|].
    exact (proj1 (Hfacts performances Hrun)).
Defined.

(** ** Period filter, history and recommendations *)

Section PeriodEdges.

Variable fromisoformat : string -> iso_result.

Lemma period_keeps_cases cutoff p :
  (exists keep, period_keeps fromisoformat cutoff p = Ok keep /\
     forall t, parsed_date fromisoformat p <> IsoAware t) \/
  period_keeps fromisoformat cutoff p = Raise TypeError.
Proof.
  unfold period_keeps, parsed_date.
  destruct (fromisoformat (date_part (published_at p))); [left|left|right; reflexivity];
    eexists; (split; [reflexivity | discriminate]).
Qed.

Lemma period_loop_aware cutoff posts acc p t :
  p ∈ posts -> parsed_date fromisoformat p = IsoAware t ->
  for_each (fun acc p => keep ← period_keeps fromisoformat cutoff p;
                         mret (if keep : bool then (acc ++ [p])%list else acc))
           posts acc
  = Raise TypeError.
Proof.
  intros Hin Hp. revert acc. induction posts as [|p0 posts IH]; intros acc; [inversion Hin|].
  rewrite for_each_cons.
  destruct (period_keeps_cases cutoff p0) as [(keep & -> & Hfree)| ->]; [|reflexivity].
  apply elem_of_cons in Hin as [->|Hin]; [exfalso; exact (Hfree t Hp)|].
  rewrite bind_ok.
  destruct keep.
  - change (mret (acc ++ [p0])%list) with (Ok (acc ++ [p0])%list).
    rewrite bind_ok. apply IH, Hin.
  - change (mret acc) with (Ok acc). rewrite bind_ok. apply IH, Hin.
Qed.

(** X14. A single post whose date parses as a timezone-aware datetime
    makes [_filter_by_period] fail for every period but "all": the
    comparison with the naive cutoff raises a TypeError that the
    [except (ValueError, AttributeError)] clause does not catch, and no
    post is returned. *)
Theorem period_filter_aware_raises now posts period p t :
  String.eqb period "all" = false ->
  p ∈ posts -> parsed_date fromisoformat p = IsoAware t ->
  _filter_by_period fromisoformat now posts period = Raise TypeError /\
  _filter_by_period fromisoformat now posts "all" = Ok posts.
Proof.
  intros Hp Hin Ht. split; [|reflexivity].
  unfold _filter_by_period. rewrite Hp. cbv zeta.
  rewrite (period_loop_aware _ posts [] p t Hin Ht). reflexivity.
Qed.

(** X15. Any period other than "all" and "week" is treated as "month".
    When no date is timezone-aware the filter succeeds, keeps the posts
    in their order without repeating any, and never answers a non-empty
    input with an empty list; what it keeps is the posts dated at or
    after the cutoff or undated, or all the posts if there is none. *)
Theorem period_filter_order now posts period :
  (String.eqb period "all" = false -> String.eqb period "week" = false ->
   _filter_by_period fromisoformat now posts period
   = _filter_by_period fromisoformat now posts "month") /\
  (timezone_free fromisoformat posts ->
   exists kept,
     _filter_by_period fromisoformat now posts period = Ok kept /\
     kept `sublist_of` posts /\
     (posts <> [] -> kept <> []) /\
     (String.eqb period "all" = false ->
      kept = list_or (filter (fun p => in_period fromisoformat (period_cutoff now period) p = true)
                        posts) posts)).
Proof.
  split.
  - intros Ha Hw. unfold _filter_by_period, period_cutoff. rewrite Ha, Hw. reflexivity.
  - intros Hfree. destruct (String.eqb period "all") eqn:Ha.
    + exists posts. unfold _filter_by_period. rewrite Ha.
      split; [reflexivity|]. split; [reflexivity|]. split; [auto | discriminate].
    + rewrite (filter_by_period_value fromisoformat now posts period Ha Hfree).
      eexists. split; [reflexivity|].
      set (kept := filter _ posts).
      assert (Hsub : kept `sublist_of` posts) by apply sublist_filter.
      split; [|split; [|reflexivity]].
      * destruct kept; [reflexivity | exact Hsub].
      * intros Hne. destruct kept; [exact Hne | discriminate].
Qed.

End PeriodEdges.

Lemma period_filter_aware_raises_witness :
  _filter_by_period fromisoformat_zoned noon_2024_06_10
    [dated_post "plain" "2024-06-09"; dated_post "zoned" "2024-06-10 09:00:00+00:00"] "week"
  = Raise TypeError.
Proof.
  refine (proj1 (period_filter_aware_raises fromisoformat_zoned noon_2024_06_10 _ "week"
                   (dated_post "zoned" "2024-06-10 09:00:00+00:00") _ _ _ _)).
  - reflexivity.
  - right. left.
  - reflexivity.
Defined.

Lemma period_filter_order_witness :
  exists kept,
    _filter_by_period fromisoformat_date noon_2024_06_10
      [dated_post "older" "2024-05-25"; dated_post "recent" "2024-06-08"] "week" = Ok kept /\
    kept `sublist_of` [dated_post "older" "2024-05-25"; dated_post "recent" "2024-06-08"].
Proof.
  destruct (proj2 (period_filter_order fromisoformat_date noon_2024_06_10
                     [dated_post "older" "2024-05-25"; dated_post "recent" "2024-06-08"] "week"))
    as (kept & Hrun & Hsub & _).
  - repeat constructor; intros t; vm_compute; discriminate.
  - exists kept. split; [exact Hrun | exact Hsub].
Defined.

(** X16. [_save_to_history] only ever appends: the stored entries stay
    a prefix of the file, in their order; every post of the batch has
    its id in the file afterwards; saving the same batch again changes
    nothing; and when neither the file nor the batch repeats an id, the
    file still holds each id once. *)
Theorem history_append_invariants posts file :
  (exists new_posts,
     _save_to_history posts file = Stored (read_history file ++ new_posts)%list /\
     new_posts `sublist_of` posts) /\
  (forall p, p ∈ posts -> post_id p ∈ post_id <$> read_history (_save_to_history posts file)) /\
  _save_to_history posts (_save_to_history posts file) = _save_to_history posts file /\
  (NoDup (post_id <$> read_history file) -> NoDup (post_id <$> posts) ->
   NoDup (post_id <$> read_history (_save_to_history posts file))).
Proof.
  destruct (save_to_history_keeps_entries posts file) as (new_posts & Hrun & Hsub & Hfresh).
  split; [eauto|]. split; [|split].
  - intros p Hp. unfold _save_to_history. simpl read_history.
    rewrite fmap_app, elem_of_app.
    destruct (decide (post_id p ∈ post_id <$> read_history file)) as [Hin|Hout]; [left; exact Hin|].
    right. apply list_elem_of_fmap. exists p. split; [reflexivity|].
    apply list_elem_of_filter. split; [|exact Hp].
    intros Hin. apply Hout. apply elem_of_list_to_set in Hin. exact Hin.
  - apply save_to_history_idempotent.
  - intros Hold Hnew. rewrite Hrun. simpl read_history. rewrite fmap_app.
    apply NoDup_app. split; [exact Hold|]. split.
    + intros id Hid Hid'. apply list_elem_of_fmap in Hid' as (p & -> & Hp).
      rewrite Forall_forall in Hfresh. exact (Hfresh p Hp Hid).
    + exact (sublist_NoDup _ _ Hnew (fmap_sublist post_id _ _ Hsub)).
Qed.

Lemma niche_loop_value (recs acc : list string) (seen : gset string) :
  NoDup acc -> (forall x, x ∈ acc <-> x ∈ seen) ->
  exists new seen',
    foldl (fun '(all_recs, seen_recs) rec =>
             if bool_decide (rec ∈ (seen_recs : gset string)) then (all_recs, seen_recs)
             else ((all_recs ++ [rec])%list, {[rec]} ∪ seen_recs))
          (acc, seen) recs = ((acc ++ new)%list, seen') /\
    NoDup (acc ++ new)%list /\ (forall x, x ∈ (acc ++ new)%list <-> x ∈ seen') /\
    new `sublist_of` recs /\ (forall x, x ∈ recs -> x ∈ (acc ++ new)%list).
Proof.
  revert acc seen. induction recs as [|x recs IH]; intros acc seen Hnd Hseen; simpl.
  - exists [], seen. rewrite app_nil_r.
    split; [reflexivity|]. split; [exact Hnd|]. split; [exact Hseen|].
    split; [constructor|]. intros y Hy. inversion Hy.
  - destruct (bool_decide_reflect (x ∈ seen)) as [Hx|Hx].
    + destruct (IH acc seen Hnd Hseen) as (new & seen' & Hrun & Hnd' & Hseen' & Hsub & Hcov).
      exists new, seen'. split; [exact Hrun|]. split; [exact Hnd'|]. split; [exact Hseen'|].
      split; [apply sublist_cons; exact Hsub|].
      intros y Hy. apply elem_of_cons in Hy as [->|Hy]; [|apply Hcov, Hy].
      apply elem_of_app. left. apply Hseen, Hx.
    + destruct (IH (acc ++ [x])%list ({[x]} ∪ seen)) as (new & seen' & Hrun & Hnd' & Hseen' & Hsub & Hcov).
      * apply NoDup_app. split; [exact Hnd|]. split; [|apply NoDup_singleton].
        intros y Hy Hy'. apply list_elem_of_singleton in Hy'. subst y. apply Hx, Hseen, Hy.
      * intros y. rewrite elem_of_app, list_elem_of_singleton, elem_of_union, elem_of_singleton.
        rewrite Hseen. tauto.
      * exists (x :: new), seen'. rewrite <- app_assoc in Hrun, Hnd', Hseen', Hcov.
        split; [exact Hrun|]. split; [exact Hnd'|]. split; [exact Hseen'|].
        split; [apply sublist_skip; exact Hsub|].
        intros y Hy. apply elem_of_cons in Hy as [->|Hy]; [|apply Hcov, Hy].
        apply elem_of_app. right. left.
Qed.

Lemma competitor_loop_value (responses acc : list string) (seen : gset string) :
  foldl (fun all_recs response =>
           let suggestion := "[competitor] " +:+ response in
           if bool_decide (suggestion ∈ seen) then all_recs
           else (all_recs ++ [suggestion])%list)
        acc responses
  = (acc ++ filter (fun s => s ∉ seen) (competitor_suggestion <$> responses))%list.
Proof.
  revert acc. induction responses as [|r responses IH]; intros acc; simpl.
  - rewrite app_nil_r. reflexivity.
  - rewrite IH. fold (competitor_suggestion r).
    destruct (bool_decide_reflect (competitor_suggestion r ∈ seen)) as [Hr|Hr].
    + rewrite filter_cons_False by (intros H; exact (H Hr)). reflexivity.
    + rewrite filter_cons_True by exact Hr. rewrite <- app_assoc. reflexivity.
Qed.

Lemma niche_loop_first (recs acc : list string) (seen : gset string) :
  fst (foldl (fun '(all_recs, seen_recs) rec =>
                if bool_decide (rec ∈ (seen_recs : gset string)) then (all_recs, seen_recs)
                else ((all_recs ++ [rec])%list, {[rec]} ∪ seen_recs))
             (acc, seen) recs)
  = (acc ++ filter (fun y => y ∉ seen) (first_occurrences recs))%list.
Proof.
  revert acc seen. induction recs as [|x recs IH]; intros acc seen.
  - simpl. rewrite app_nil_r. reflexivity.
  - cbn [foldl first_occurrences].
    destruct (bool_decide_reflect (x ∈ seen)) as [Hx|Hx].
    + rewrite IH. f_equal.
      rewrite filter_cons_False by (intros H; exact (H Hx)).
      rewrite list_filter_filter. apply list_filter_iff.
      intros y. split; [|tauto]. intros Hy. split; [exact Hy|].
      intros ->. exact (Hy Hx).
    + rewrite IH, <- app_assoc. f_equal.
      rewrite filter_cons_True by exact Hx. cbn [app]. f_equal.
      rewrite list_filter_filter. apply list_filter_iff.
      intros y. rewrite elem_of_union, elem_of_singleton. tauto.
Qed.

Lemma filter_all {A} (P : A -> Prop) `{!forall x, Decision (P x)} (l : list A) :
  (forall x, x ∈ l -> P x) -> filter P l = l.
Proof.
  induction l as [|x l IH]; intros Hall; [reflexivity|].
  rewrite filter_cons_True by (apply Hall; left).
  f_equal. apply IH. intros y Hy. apply Hall. right. exact Hy.
Qed.

(** X17. The overall recommendations are the first eight of: the niche
    recommendations de-duplicated, each standing once at the place of
    its first occurrence ([first_occurrences]), followed by those
    competitor suggestions that are not among the niche
    recommendations. *)
Theorem overall_recommendations_shape (perf_recs : list (list string)) (responses : list string) :
  NoDup (first_occurrences (concat perf_recs)) /\
  first_occurrences (concat perf_recs) `sublist_of` concat perf_recs /\
  (forall x, x ∈ concat perf_recs -> x ∈ first_occurrences (concat perf_recs)) /\
  summarize_week_recommendations perf_recs responses
  = take 8 (first_occurrences (concat perf_recs)
            ++ filter (fun s => s ∉ first_occurrences (concat perf_recs))
                      (competitor_suggestion <$> responses))%list /\
  (length (summarize_week_recommendations perf_recs responses) <= 8)%nat.
Proof.
  destruct (niche_loop_value (concat perf_recs) [] ∅ (NoDup_nil_2) ltac:(set_solver))
    as (niche_recs & seen & Hrun & Hnd & Hseen & Hsub & Hcov).
  rewrite app_nil_l in Hrun, Hnd, Hseen, Hcov.
  assert (Hfirst : niche_recs = first_occurrences (concat perf_recs)).
  { pose proof (niche_loop_first (concat perf_recs) [] ∅) as H.
    rewrite Hrun in H. cbn [fst] in H. rewrite app_nil_l in H.
    rewrite H. apply filter_all. intros x _. set_solver. }
  assert (E : summarize_week_recommendations perf_recs responses
              = take 8 (niche_recs ++ filter (fun s => s ∉ niche_recs)
                                        (competitor_suggestion <$> responses))%list).
  { unfold summarize_week_recommendations. rewrite Hrun.
    rewrite competitor_loop_value. do 2 f_equal.
    apply list_filter_iff. intros s. rewrite Hseen. reflexivity. }
  rewrite <- Hfirst.
  split; [exact Hnd|]. split; [exact Hsub|]. split; [exact Hcov|].
  split; [exact E|]. rewrite E, length_take. lia.
Qed.

(** ** Parsers *)

Lemma collect_ok {A B} (f : A -> result B) xs acc posts :
  for_each (fun posts x => p ← f x; mret (posts ++ [p])%list) xs acc = Ok posts <->
  exists new, posts = (acc ++ new)%list /\ Forall2 (fun x p => f x = Ok p) xs new.
Proof.
  revert acc. induction xs as [|x xs IH]; intros acc.
  - rewrite for_each_nil. split.
    + intros H. injection H as <-. exists []. rewrite app_nil_r. split; [reflexivity|constructor].
    + intros (new & -> & H). inversion H. rewrite app_nil_r. reflexivity.
  - rewrite for_each_cons. destruct (f x) as [p|e] eqn:E.
    + rewrite bind_ok. change (mret (acc ++ [p])%list) with (Ok (acc ++ [p])%list).
      rewrite bind_ok, IH. split.
      * intros (new & -> & H). exists (p :: new). rewrite <- app_assoc.
        split; [reflexivity|]. constructor; assumption.
      * intros (new & -> & H). inversion H as [|? q ? new' Hq Hrest]; subst.
        pose proof (eq_trans (eq_sym E) Hq) as X. injection X as <-.
        exists new'. rewrite <- app_assoc. split; [reflexivity | exact Hrest].
    + split; [discriminate|]. intros (new & _ & H).
      inversion H as [|? q ? new' Hq Hrest]; subst.
      pose proof (eq_trans (eq_sym E) Hq) as X. discriminate X.
Qed.

Lemma collect_raise {A B} (f : A -> result B) xs acc x e :
  x ∈ xs -> f x = Raise e ->
  exists e', for_each (fun posts x => p ← f x; mret (posts ++ [p])%list) xs acc = Raise e'.
Proof.
  intros Hin Hx. revert acc. induction xs as [|y xs IH]; intros acc; [inversion Hin|].
  rewrite for_each_cons. destruct (f y) as [p|e0] eqn:E; [|eexists; reflexivity].
  rewrite bind_ok. change (mret (acc ++ [p])%list) with (Ok (acc ++ [p])%list). rewrite bind_ok.
  apply elem_of_cons in Hin as [->|Hin]; [|apply IH, Hin].
  pose proof (eq_trans (eq_sym E) Hx) as X. discriminate X.
Qed.

Section ParserProperties.

Variable _detect_format : string -> string.
Variable py_repr : pyval -> string.

(** X18. [_parse_contentstudio_json] is all or nothing: on a list export
    it returns one post per row, in the order of the rows, each the
    normalisation of its row, and a single row that fails makes the
    whole call fail.  A dict export is read from its "data" key, else
    from "posts", and is empty when it has neither. *)
Theorem contentstudio_rows_all_or_nothing items :
  (forall posts,
     _parse_contentstudio_json _detect_format py_repr (RawList items) = Ok posts <->
     Forall2 (fun item p => parse_contentstudio_item _detect_format py_repr item = Ok p)
       items posts) /\
  (forall item e, item ∈ items ->
     parse_contentstudio_item _detect_format py_repr item = Raise e ->
     exists e', _parse_contentstudio_json _detect_format py_repr (RawList items) = Raise e') /\
  (forall d, d !! "data" = Some items ->
     _parse_contentstudio_json _detect_format py_repr (RawDict d)
     = _parse_contentstudio_json _detect_format py_repr (RawList items)) /\
  (forall d, d !! "data" = None -> d !! "posts" = Some items ->
     _parse_contentstudio_json _detect_format py_repr (RawDict d)
     = _parse_contentstudio_json _detect_format py_repr (RawList items)) /\
  (forall d, d !! "data" = None -> d !! "posts" = None ->
     _parse_contentstudio_json _detect_format py_repr (RawDict d) = Ok []).
Proof.
  split; [|split; [|split; [|split]]].
  - intros posts. unfold _parse_contentstudio_json. cbv zeta. rewrite collect_ok.
    split.
    + intros (new & -> & H). exact H.
    + intros H. exists posts. split; [reflexivity | exact H].
  - intros item e Hin He. exact (collect_raise _ items [] item e Hin He).
  - intros d Hd. unfold _parse_contentstudio_json. rewrite Hd. reflexivity.
  - intros d Hd Hp. unfold _parse_contentstudio_json. rewrite Hd, Hp. reflexivity.
  - intros d Hd Hp. unfold _parse_contentstudio_json. rewrite Hd, Hp. reflexivity.
Qed.

(** X19. In a post normalised from a ContentStudio row, the impressions
    are the reach when the row has no "impressions"; a non-empty niche
    given in the row is kept as it is, known or not; without one the
    niche is detected from the text, so it is one of the five known
    niches; preview and hook have at most 120 characters. *)
Theorem contentstudio_row_fields (item : gmap string pyval) p :
  parse_contentstudio_item _detect_format py_repr item = Ok p ->
  (item !! "impressions" = None -> impressions p = reach p) /\
  (forall n, item !! "niche" = Some (VStr n) -> n <> "" -> niche p = n) /\
  (item !! "niche" = None ->
   exists content, item_content item = VStr content /\ niche p = _detect_niche content) /\
  (String.length (content_preview p) <= 120)%nat /\
  (String.length (hook_words p) <= 120)%nat.
Proof.
  unfold parse_contentstudio_item. cbv zeta. intros H.
  apply bind_inv in H as (niche_name & Hniche & H).
  apply bind_inv in H as (platform_name & _ & H).
  apply bind_inv in H as (content & Hcontent & H).
  apply as_text_inv in Hcontent.
  apply bind_inv in H as (n_impressions & Himp & H).
  apply bind_inv in H as (n_reach & Hreach & H).
  do 5 (apply bind_inv in H as (? & _ & H)).
  apply bind_inv in H as (p1 & Hrates & Hscore).
  apply compute_rates_keeps in Hrates. apply score_post_keeps in Hscore.
  split; [|split; [|split; [|split]]].
  - intros Hnone. rewrite Hscore, Hrates. cbn [set_score set_rates impressions reach].
    rewrite (dict_get_none item "impressions" Hnone) in Himp.
    pose proof (eq_trans (eq_sym Himp) Hreach) as X. injection X as ->. reflexivity.
  - intros n Hn Hne. rewrite Hscore, Hrates. cbn [set_score set_rates niche].
    rewrite (dict_get_some item "niche" _ Hn) in Hniche.
    assert (Ht : truthy (VStr n) = true) by (destruct n; [congruence | reflexivity]).
    rewrite Ht in Hniche. injection Hniche as <-. reflexivity.
  - intros Hnone. rewrite Hscore, Hrates. cbn [set_score set_rates niche].
    rewrite (dict_get_none item "niche" Hnone) in Hniche. simpl truthy in Hniche.
    cbv iota in Hniche. unfold item_content. rewrite Hcontent in Hniche |- *.
    injection Hniche as <-. exists content. split; reflexivity.
  - rewrite Hscore, Hrates. apply substring_length.
  - rewrite Hscore, Hrates. apply extract_hook_length.
Qed.

End ParserProperties.

Lemma contentstudio_rows_all_or_nothing_witness :
  exists e', _parse_contentstudio_json (fun _ => "narrative") (fun _ => "")
               (RawList [tiktok_row; numeric_platform_row]) = Raise e'.
Proof.
  refine (proj1 (proj2 (contentstudio_rows_all_or_nothing (fun _ => "narrative") (fun _ => "")
            [tiktok_row; numeric_platform_row])) numeric_platform_row AttributeError _ _).
  - right. left.
  - reflexivity.
Defined.

Lemma contentstudio_row_fields_witness :
  exists p, parse_contentstudio_item (fun _ => "narrative") (fun _ => "") tiktok_row = Ok p /\
    impressions p = reach p.
Proof.
  eexists. split; [vm_compute; reflexivity|].
  refine (proj1 (contentstudio_row_fields (fun _ => "narrative") (fun _ => "") tiktok_row _ _) _).
  - vm_compute. reflexivity.
  - reflexivity.
Defined.

Lemma caps_without_saves :
  fadd (Fin (65 * one_u)) (Fin 0) = Fin (65 * one_u) /\
  fadd (Fin (65 * one_u)) (Fin (10 * one_u)) = Fin (75 * one_u) /\
  fadd (Fin (75 * one_u)) (Fin (10 * one_u)) = Fin (85 * one_u) /\
  py_round 1 (Fin (85 * one_u)) = Fin (85 * one_u) /\
  of_Z 85 = Fin (85 * one_u).
Proof. vm_compute. repeat split; reflexivity. Qed.

Lemma score_without_saves p q :
  save_rate p = Fin 0 -> _score_post p = Ok q ->
  fleb (composite_score q) (of_Z 85) = true.
Proof.
  intros Hs Hq.
  destruct (bench_targets_pos (niche p)) as (P1 & P2 & P3 & P4).
  destruct cap_values as (_ & V10 & V15 & V50 & _).
  destruct cap_sums as (S1 & _).
  destruct caps_without_saves as (T1 & T2 & T3 & R & V85).
  pose proof one_u_pos as Hu.
  destruct (score_post_unfold p) as (e & c & s & sh & Ee & Ec & Es & Esh & E).
  pose proof (eq_trans (eq_sym E) Hq) as X. injection X as <-.
  cbn [set_score composite_score].
  destruct (component_ok 50 _ (engagement_rate p) _ V50 ltac:(lia) (P4 (platform p)))
    as (e' & Ee' & He & _).
  pose proof (eq_trans (eq_sym Ee) Ee') as X. injection X as <-.
  destruct (component_ok 15 _ (comment_rate p) _ V15 ltac:(lia) P1) as (c' & Ec' & Hc & _).
  pose proof (eq_trans (eq_sym Ec) Ec') as X. injection X as <-.
  destruct (component_ok 10 _ (share_rate p) _ V10 ltac:(lia) P3) as (sh' & Esh' & Hsh & _).
  pose proof (eq_trans (eq_sym Esh) Esh') as X. injection X as <-.
  rewrite Hs, (component_zero 15 _ _ V15 ltac:(lia) P2) in Es. injection Es as <-.
  rewrite V85, <- R. apply py_round_mono; [lia|]. unfold sum5.
  apply (fadd_le_caps _ _ _ _ _ T3); [|apply click_le].
  apply (fadd_le_caps _ _ _ _ _ T2); [|exact Hsh].
  apply (fadd_le_caps _ _ _ _ _ T1); [|apply fleb_fin_refl].
  apply (fadd_le_caps _ _ _ _ _ S1); assumption.
Qed.

Section CsvProperties.

Variable _detect_format : string -> string.

Lemma linkedin_row_fields row p :
  parse_linkedin_row _detect_format row = Ok p ->
  platform p = "linkedin" /\ saves p = 0 /\ save_rate p = of_Z 0 /\
  niche p ∈ known_niches /\ fleb (composite_score p) (of_Z 85) = true.
Proof.
  unfold parse_linkedin_row. cbv zeta. intros H.
  do 6 (apply bind_inv in H as (? & _ & H)).
  apply bind_inv in H as (p1 & Hrates & Hscore).
  assert (Hsave : save_rate p1 = Fin 0).
  { destruct (compute_rates_cases
               (new_post (csv_text row "Post ID" (csv_text row "id" ""))
                  (_detect_niche (csv_text row "Post Content" (csv_text row "content" "")))
                  "linkedin" (csv_text row "Date" (csv_text row "Published Date" ""))
                  (csv_text row "Post Content" (csv_text row "content" ""))
                  (_detect_format (csv_text row "Post Content" (csv_text row "content" "")))
                  (_extract_hook (csv_text row "Post Content" (csv_text row "content" "")))
                  x x0 x1 x2 x3 0 x4 (VList []))) as [E|E];
      pose proof (eq_trans (eq_sym E) Hrates) as X; [|discriminate X].
    injection X as <-. cbn [set_rates save_rate new_post saves].
    apply rate_formula_zero. pose proof (rate_base_pos
      (new_post (csv_text row "Post ID" (csv_text row "id" ""))
                  (_detect_niche (csv_text row "Post Content" (csv_text row "content" "")))
                  "linkedin" (csv_text row "Date" (csv_text row "Published Date" ""))
                  (csv_text row "Post Content" (csv_text row "content" ""))
                  (_detect_format (csv_text row "Post Content" (csv_text row "content" "")))
                  (_extract_hook (csv_text row "Post Content" (csv_text row "content" "")))
                  x x0 x1 x2 x3 0 x4 (VList []))). lia. }
  pose proof (score_without_saves p1 p Hsave Hscore) as Hcap.
  apply compute_rates_keeps in Hrates. pose proof (score_post_keeps _ _ Hscore) as Hp.
  split; [rewrite Hp, Hrates; reflexivity|].
  split; [rewrite Hp, Hrates; reflexivity|].
  split; [rewrite Hp; cbn [set_score save_rate]; rewrite Hsave, of_Z_0; reflexivity|].
  split; [|exact Hcap].
  rewrite Hp, Hrates. cbn [set_score set_rates niche new_post].
  apply detect_niche_in_known.
Qed.

(** X20. A LinkedIn CSV export has no saves column: every post
    [_parse_linkedin_csv] returns is a linkedin post with 0 saves and a
    save rate of 0, filed under one of the five known niches, and so its
    composite score is at most 85, however well it did.  The result has
    one post per row. *)
Theorem linkedin_rows_capped rows posts :
  _parse_linkedin_csv _detect_format rows = Ok posts ->
  length posts = length rows /\
  Forall (fun p => platform p = "linkedin" /\ saves p = 0 /\ save_rate p = of_Z 0 /\
                   niche p ∈ known_niches /\
                   fleb (composite_score p) (of_Z 85) = true) posts.
Proof.
  unfold _parse_linkedin_csv, parse_rows. intros H.
  apply collect_ok in H as (new & -> & H). rewrite app_nil_l.
  split; [symmetry; exact (Forall2_length _ _ _ H)|].
  induction H as [|row p rows posts Hp _ IH]; constructor; [|exact IH].
  exact (linkedin_row_fields row p Hp).
Qed.

Lemma instagram_row_fields row p :
  parse_instagram_row _detect_format row = Ok p -> platform p = "instagram".
Proof.
  unfold parse_instagram_row. cbv zeta. intros H.
  do 7 (apply bind_inv in H as (? & _ & H)).
  apply bind_inv in H as (p1 & Hrates & Hscore).
  apply compute_rates_keeps in Hrates. apply score_post_keeps in Hscore.
  rewrite Hscore, Hrates. reflexivity.
Qed.

Lemma twitter_row_platform row p :
  parse_twitter_row _detect_format row = Ok p -> platform p = "twitter".
Proof.
  unfold parse_twitter_row. cbv zeta. intros H.
  do 7 (apply bind_inv in H as (? & _ & H)).
  apply bind_inv in H as (p1 & Hrates & Hscore).
  apply compute_rates_keeps in Hrates. apply score_post_keeps in Hscore.
  rewrite Hscore, Hrates. reflexivity.
Qed.

Lemma parse_rows_forall (parse_row : gmap string string -> result PostMetrics)
    (P : PostMetrics -> Prop) rows posts :
  (forall row p, parse_row row = Ok p -> P p) ->
  parse_rows parse_row rows = Ok posts ->
  length posts = length rows /\ Forall P posts.
Proof.
  unfold parse_rows. intros HP H.
  apply collect_ok in H as (new & -> & H). rewrite app_nil_l.
  split; [symmetry; exact (Forall2_length _ _ _ H)|].
  induction H as [|row p rows posts Hp _ IH]; constructor; [|exact IH].
  exact (HP row p Hp).
Qed.

(** X21. The posts [load_posts_from_file] reads from a [.csv] file are
    one per row and all carry the same platform, one of linkedin,
    instagram and twitter.  With a source other than "auto" it is the
    lower-cased source when that is "instagram" or "twitter", and
    "linkedin" for every other source name, none being rejected; with
    "auto" a first row under a "Tweet text" or "Tweet id" header makes
    them twitter posts. *)
Theorem csv_posts_platform source rows posts :
  load_csv_posts _detect_format source rows = Ok posts ->
  length posts = length rows /\
  Forall (fun p => platform p ∈ known_platforms) posts /\
  (forall p q, p ∈ posts -> q ∈ posts -> platform p = platform q) /\
  (source <> "auto" ->
   Forall (fun p => platform p =
                    if bool_decide (lower source ∈ ["instagram"; "twitter"])
                    then lower source else "linkedin") posts) /\
  (source = "auto" -> forall row rest, rows = row :: rest ->
   is_Some (row !! "Tweet text") \/ is_Some (row !! "Tweet id") ->
   Forall (fun p => platform p = "twitter") posts).
Proof.
  intros H.
  destruct rows as [|first_row rest].
  { injection H as <-. split; [reflexivity|]. split; [constructor|].
    split; [intros p q Hp; inversion Hp|]. split; [intros _; constructor|].
    intros _ row rest' E. discriminate E. }
  unfold load_csv_posts in H. cbv zeta in H.
  set (src := csv_source source first_row) in *.
  set (pl := if String.eqb src "instagram" then "instagram"
             else if String.eqb src "twitter" then "twitter" else "linkedin").
  assert (Hcore : length posts = length (first_row :: rest) /\
                  Forall (fun p => platform p = pl) posts).
  { unfold pl. destruct (String.eqb src "instagram").
    - exact (parse_rows_forall _ _ _ _ instagram_row_fields H).
    - destruct (String.eqb src "twitter").
      + exact (parse_rows_forall _ _ _ _ twitter_row_platform H).
      + refine (parse_rows_forall _ _ _ _ _ H).
        intros row p Hp. exact (proj1 (linkedin_row_fields row p Hp)). }
  destruct Hcore as [Hlen Hall]. rewrite Forall_forall in Hall.
  split; [exact Hlen|]. split; [|split; [|split]].
  - apply Forall_forall. intros p Hp. rewrite (Hall p Hp). unfold pl, known_platforms.
    destruct (String.eqb src "instagram"); [right; left|].
    destruct (String.eqb src "twitter"); [right; right; left | left].
  - intros p q Hp Hq. rewrite (Hall p Hp), (Hall q Hq). reflexivity.
  - intros Hs. apply Forall_forall. intros p Hp. rewrite (Hall p Hp).
    assert (Esrc : src = lower source).
    { unfold src, csv_source. cbv zeta.
      destruct (String.eqb_spec source "auto") as [E|_]; [contradiction | reflexivity]. }
    unfold pl. rewrite Esrc.
    destruct (String.eqb_spec (lower source) "instagram") as [E|Hi].
    { rewrite bool_decide_eq_true_2 by (rewrite E; left). symmetry. exact E. }
    destruct (String.eqb_spec (lower source) "twitter") as [E|Ht].
    { rewrite bool_decide_eq_true_2 by (rewrite E; right; left). symmetry. exact E. }
    rewrite bool_decide_eq_false_2; [reflexivity|].
    intros Hin. apply elem_of_cons in Hin as [E|Hin]; [exact (Hi E)|].
    apply list_elem_of_singleton in Hin. exact (Ht Hin).
  - intros -> row rest' E Hh. injection E as <- <-.
    apply Forall_forall. intros p Hp. rewrite (Hall p Hp).
    assert (Esrc : src = "twitter").
    { unfold src, csv_source. cbv zeta. simpl negb. cbv iota.
      assert (Eh : bool_decide (is_Some (first_row !! "Tweet text"))
                   || bool_decide (is_Some (first_row !! "Tweet id")) = true).
      { destruct Hh as [Hh|Hh].
        - rewrite (bool_decide_eq_true_2 _ Hh). reflexivity.
        - rewrite (bool_decide_eq_true_2 _ Hh). apply orb_true_r. }
      rewrite Eh. reflexivity. }
    unfold pl. rewrite Esrc. reflexivity.
Qed.

Lemma twitter_row_fields row p :
  parse_twitter_row _detect_format row = Ok p ->
  platform p = "twitter" /\ reach p = impressions p.
Proof.
  unfold parse_twitter_row. cbv zeta. intros H.
  apply bind_inv in H as (n_impressions & Himp & H).
  apply bind_inv in H as (n_reach & Hreach & H).
  do 5 (apply bind_inv in H as (? & _ & H)).
  apply bind_inv in H as (p1 & Hrates & Hscore).
  apply compute_rates_keeps in Hrates. apply score_post_keeps in Hscore.
  pose proof (eq_trans (eq_sym Himp) Hreach) as X. injection X as ->.
  split; rewrite Hscore, Hrates; reflexivity.
Qed.

(** X22. Every post of a Twitter CSV export is a twitter post whose
    reach is its impressions: the export has one column for both, so a
    row without impressions takes 1 for the base of its rates. *)
Theorem twitter_rows_reach rows posts :
  _parse_twitter_csv _detect_format rows = Ok posts ->
  length posts = length rows /\
  Forall (fun p => platform p = "twitter" /\ reach p = impressions p /\
                   (impressions p <= 0 -> rate_base p = 1)) posts.
Proof.
  unfold _parse_twitter_csv, parse_rows. intros H.
  apply collect_ok in H as (new & -> & H). rewrite app_nil_l.
  split; [symmetry; exact (Forall2_length _ _ _ H)|].
  induction H as [|row p rows posts Hp _ IH]; constructor; [|exact IH].
  destruct (twitter_row_fields row p Hp) as [Hpl Hr].
  split; [exact Hpl|]. split; [exact Hr|].
  intros Hi. unfold rate_base. rewrite Hr.
  destruct (Z.ltb_spec 0 (impressions p)); lia.
Qed.

End CsvProperties.

Lemma linkedin_rows_capped_witness :
  exists p, _parse_linkedin_csv (fun _ => "narrative") [busy_linkedin_row] = Ok [p] /\
    fleb (composite_score p) (of_Z 85) = true.
Proof.
  assert (E : exists p, _parse_linkedin_csv (fun _ => "narrative") [busy_linkedin_row] = Ok [p])
    by (eexists; vm_compute; reflexivity).
  destruct E as [p E]. exists p. split; [exact E|].
  destruct (linkedin_rows_capped (fun _ => "narrative") [busy_linkedin_row] [p] E) as [_ HF].
  apply Forall_cons_1 in HF as [(_ & _ & _ & _ & H) _]. exact H.
Defined.

Lemma twitter_rows_reach_witness :
  exists p, _parse_twitter_csv (fun _ => "narrative") [busy_linkedin_row] = Ok [p] /\
    reach p = impressions p.
Proof.
  assert (E : exists p, _parse_twitter_csv (fun _ => "narrative") [busy_linkedin_row] = Ok [p])
    by (eexists; vm_compute; reflexivity).
  destruct E as [p E]. exists p. split; [exact E|].
  destruct (twitter_rows_reach (fun _ => "narrative") [busy_linkedin_row] [p] E) as [_ HF].
  apply Forall_cons_1 in HF as [(_ & H & _) _]. exact H.
Defined.

Lemma csv_posts_platform_witness :
  exists p,
    load_csv_posts (fun _ => "narrative") "contentstudio" [busy_linkedin_row] = Ok [p] /\
    platform p = "linkedin".
Proof.
  assert (E : exists p, load_csv_posts (fun _ => "narrative") "contentstudio" [busy_linkedin_row]
                        = Ok [p])
    by (eexists; vm_compute; reflexivity).
  destruct E as [p E]. exists p. split; [exact E|].
  destruct (csv_posts_platform (fun _ => "narrative") "contentstudio" [busy_linkedin_row] [p] E)
    as (_ & _ & _ & HF & _).
  assert (Hs : "contentstudio" <> "auto") by discriminate.
  apply HF in Hs. apply Forall_cons_1 in Hs as [H _]. exact H.
Defined.

(** ** Reading counters *)

Lemma int_digits_acc (d : Decimal.uint) (acc : positive) :
  int_digits (Z.pos acc) true (NilEmpty.string_of_uint d) = Some (Z.pos (Pos.of_uint_acc d acc)).
Proof.
  revert acc. induction d; intros acc; simpl; try reflexivity;
    rewrite <- IHd; f_equal; lia.
Qed.

Lemma int_digits_uint (d : Decimal.uint) (after_digit : bool) :
  d <> Decimal.Nil \/ after_digit = true ->
  int_digits 0 after_digit (NilEmpty.string_of_uint d) = Some (Z.of_N (Pos.of_uint d)).
Proof.
  revert after_digit. induction d; intros after_digit H; simpl.
  - destruct H as [H| ->]; [congruence | reflexivity].
  - apply IHd. right. reflexivity.
  - exact (int_digits_acc d 1).
  - exact (int_digits_acc d 2).
  - exact (int_digits_acc d 3).
  - exact (int_digits_acc d 4).
  - exact (int_digits_acc d 5).
  - exact (int_digits_acc d 6).
  - exact (int_digits_acc d 7).
  - exact (int_digits_acc d 8).
  - exact (int_digits_acc d 9).
Qed.

Lemma digits_clean (d : Decimal.uint) :
  remove_char "," (NilEmpty.string_of_uint d) = NilEmpty.string_of_uint d /\
  lstrip (NilEmpty.string_of_uint d) = NilEmpty.string_of_uint d /\
  rstrip (NilEmpty.string_of_uint d) = NilEmpty.string_of_uint d.
Proof.
  induction d as [|d (IH1 & IH2 & IH3)|d (IH1 & IH2 & IH3)|d (IH1 & IH2 & IH3)
                 |d (IH1 & IH2 & IH3)|d (IH1 & IH2 & IH3)|d (IH1 & IH2 & IH3)
                 |d (IH1 & IH2 & IH3)|d (IH1 & IH2 & IH3)|d (IH1 & IH2 & IH3)
                 |d (IH1 & IH2 & IH3)];
    [repeat split; reflexivity|..];
    (split; [simpl; rewrite IH1; reflexivity|]; split; [reflexivity|];
     simpl; rewrite IH3; destruct (NilEmpty.string_of_uint d); reflexivity).
Qed.

Lemma digit_count_uint (d : Decimal.uint) :
  digit_count (NilEmpty.string_of_uint d) = Decimal.nb_digits d.
Proof. induction d; simpl; [reflexivity | f_equal; exact IHd ..]. Qed.

Lemma py_int_digits (d : Decimal.uint) :
  d <> Decimal.Nil ->
  Z.of_nat (Decimal.nb_digits d) <= int_max_str_digits ->
  py_int (strip (remove_char "," (NilEmpty.string_of_uint d))) = Ok (Z.of_N (Pos.of_uint d)) /\
  py_int (strip (remove_char "," (String "-" (NilEmpty.string_of_uint d))))
  = Ok (- Z.of_N (Pos.of_uint d)).
Proof.
  intros Hd Hlim. destruct (digits_clean d) as (E1 & E2 & E3).
  pose proof (int_digits_uint d false (or_introl Hd)) as Hn.
  assert (Hc : (Z.of_nat (digit_count (NilEmpty.string_of_uint d)) <=? int_max_str_digits) = true)
    by (rewrite digit_count_uint; apply Z.leb_le; exact Hlim).
  assert (S1 : strip (NilEmpty.string_of_uint d) = NilEmpty.string_of_uint d)
    by (unfold strip; rewrite E2, E3; reflexivity).
  assert (S2 : strip (String "-" (NilEmpty.string_of_uint d))
               = String "-" (NilEmpty.string_of_uint d)).
  { unfold strip. simpl. rewrite E3. destruct (NilEmpty.string_of_uint d); reflexivity. }
  split.
  - rewrite E1, S1. unfold py_int. rewrite S1.
    destruct d; try congruence; simpl NilEmpty.string_of_uint in *; cbv iota beta;
      rewrite Hn, Hc; f_equal; lia.
  - change (remove_char "," (String "-" (NilEmpty.string_of_uint d)))
      with (String "-" (remove_char "," (NilEmpty.string_of_uint d))).
    rewrite E1, S2. unfold py_int. rewrite S2. cbv iota beta.
    rewrite Hn, Hc. f_equal; lia.
Qed.

Lemma remove_char_idem c s : remove_char c (remove_char c s) = remove_char c s.
Proof.
  induction s as [|d s IH]; [reflexivity|]. simpl.
  destruct (Ascii.eqb c d) eqn:E; [exact IH|]. simpl. rewrite E, IH. reflexivity.
Qed.

(** The digits read after an accumulator [acc] extend it by as many
    decimal places as there are digits. *)
Lemma of_uint_acc_bounds (d : Decimal.uint) (acc : positive) :
  Z.pos acc * 10 ^ Z.of_nat (Decimal.nb_digits d) <= Z.pos (Pos.of_uint_acc d acc)
  < (Z.pos acc + 1) * 10 ^ Z.of_nat (Decimal.nb_digits d).
Proof.
  revert acc. induction d; intros acc; cbn [Decimal.nb_digits Pos.of_uint_acc].
  - simpl. lia.
  - rewrite Nat2Z.inj_succ, Z.pow_succ_r by lia.
    pose proof (IHd (Pos.mul 10 acc)) as H.
    assert (0 < 10 ^ Z.of_nat (Decimal.nb_digits d)) by (apply Z.pow_pos_nonneg; lia). nia.
  - rewrite Nat2Z.inj_succ, Z.pow_succ_r by lia.
    pose proof (IHd (Pos.add 1 (Pos.mul 10 acc))) as H.
    assert (0 < 10 ^ Z.of_nat (Decimal.nb_digits d)) by (apply Z.pow_pos_nonneg; lia). nia.
  - rewrite Nat2Z.inj_succ, Z.pow_succ_r by lia.
    pose proof (IHd (Pos.add 2 (Pos.mul 10 acc))) as H.
    assert (0 < 10 ^ Z.of_nat (Decimal.nb_digits d)) by (apply Z.pow_pos_nonneg; lia). nia.
  - rewrite Nat2Z.inj_succ, Z.pow_succ_r by lia.
    pose proof (IHd (Pos.add 3 (Pos.mul 10 acc))) as H.
    assert (0 < 10 ^ Z.of_nat (Decimal.nb_digits d)) by (apply Z.pow_pos_nonneg; lia). nia.
  - rewrite Nat2Z.inj_succ, Z.pow_succ_r by lia.
    pose proof (IHd (Pos.add 4 (Pos.mul 10 acc))) as H.
    assert (0 < 10 ^ Z.of_nat (Decimal.nb_digits d)) by (apply Z.pow_pos_nonneg; lia). nia.
  - rewrite Nat2Z.inj_succ, Z.pow_succ_r by lia.
    pose proof (IHd (Pos.add 5 (Pos.mul 10 acc))) as H.
    assert (0 < 10 ^ Z.of_nat (Decimal.nb_digits d)) by (apply Z.pow_pos_nonneg; lia). nia.
  - rewrite Nat2Z.inj_succ, Z.pow_succ_r by lia.
    pose proof (IHd (Pos.add 6 (Pos.mul 10 acc))) as H.
    assert (0 < 10 ^ Z.of_nat (Decimal.nb_digits d)) by (apply Z.pow_pos_nonneg; lia). nia.
  - rewrite Nat2Z.inj_succ, Z.pow_succ_r by lia.
    pose proof (IHd (Pos.add 7 (Pos.mul 10 acc))) as H.
    assert (0 < 10 ^ Z.of_nat (Decimal.nb_digits d)) by (apply Z.pow_pos_nonneg; lia). nia.
  - rewrite Nat2Z.inj_succ, Z.pow_succ_r by lia.
    pose proof (IHd (Pos.add 8 (Pos.mul 10 acc))) as H.
    assert (0 < 10 ^ Z.of_nat (Decimal.nb_digits d)) by (apply Z.pow_pos_nonneg; lia). nia.
  - rewrite Nat2Z.inj_succ, Z.pow_succ_r by lia.
    pose proof (IHd (Pos.add 9 (Pos.mul 10 acc))) as H.
    assert (0 < 10 ^ Z.of_nat (Decimal.nb_digits d)) by (apply Z.pow_pos_nonneg; lia). nia.
Qed.

(** The decimal text of a positive number has no leading zero. *)
Lemma to_uint_no_leading_zero (p : positive) (d : Decimal.uint) :
  Pos.to_uint p <> Decimal.D0 d.
Proof.
  intros E.
  assert (Hn : Decimal.unorm (Pos.to_uint p) = Pos.to_uint p).
  { rewrite <- (DecimalPos.Unsigned.to_of (Pos.to_uint p)).
    rewrite DecimalPos.Unsigned.of_to. reflexivity. }
  rewrite E in Hn. rewrite DecimalFacts.unorm_D0 in Hn.
  assert (Hd : d = Decimal.Nil \/ d <> Decimal.Nil)
    by (destruct d; [left; reflexivity | right; discriminate ..]).
  destruct Hd as [-> | Hd].
  - exact (DecimalPos.Unsigned.to_uint_nonzero p E).
  - pose proof (DecimalFacts.nb_digits_unorm d Hd) as Hle.
    rewrite Hn in Hle. cbn [Decimal.nb_digits] in Hle. lia.
Qed.

(** A positive number with [k] decimal digits lies in [10^(k-1), 10^k). *)
Lemma to_uint_digits (p : positive) :
  (1 <= Decimal.nb_digits (Pos.to_uint p))%nat /\
  10 ^ (Z.of_nat (Decimal.nb_digits (Pos.to_uint p)) - 1) <= Z.pos p
  < 10 ^ Z.of_nat (Decimal.nb_digits (Pos.to_uint p)).
Proof.
  pose proof (DecimalPos.Unsigned.of_to p) as Hof.
  pose proof (to_uint_no_leading_zero p) as Hz.
  pose proof (DecimalPos.Unsigned.to_uint_nonnil p) as Hnil.
  destruct (Pos.to_uint p) as [|d|d|d|d|d|d|d|d|d|d]; [congruence | exfalso; exact (Hz d eq_refl) | ..];
    cbn [Pos.of_uint] in Hof; injection Hof as <-;
    cbn [Decimal.nb_digits]; (split; [lia|]);
    rewrite Nat2Z.inj_succ; replace (Z.succ (Z.of_nat (Decimal.nb_digits d)) - 1)
      with (Z.of_nat (Decimal.nb_digits d)) by lia;
    rewrite Z.pow_succ_r by lia;
    match goal with |- _ <= Z.pos (Pos.of_uint_acc d ?k) < _ =>
      pose proof (of_uint_acc_bounds d k) as H end;
    assert (0 < 10 ^ Z.of_nat (Decimal.nb_digits d)) by (apply Z.pow_pos_nonneg; lia); nia.
Qed.

(** The digit limit in numbers: the text of [n] has at most
    [int_max_str_digits] digits exactly when [|n| < 10^int_max_str_digits]. *)
Lemma digits_within_limit (p : positive) :
  Z.of_nat (Decimal.nb_digits (Pos.to_uint p)) <= int_max_str_digits <->
  Z.pos p < 10 ^ int_max_str_digits.
Proof.
  destruct (to_uint_digits p) as (H1 & Hlo & Hhi).
  set (k := Z.of_nat (Decimal.nb_digits (Pos.to_uint p))) in *.
  assert (Hk : 1 <= k) by lia. clearbody k.
  split.
  - intros Hle. eapply Z.lt_le_trans; [exact Hhi|].
    apply Z.pow_le_mono_r; [lia | exact Hle].
  - intros Hlt. destruct (Z.le_gt_cases k int_max_str_digits) as [Hle|Hgt]; [exact Hle|].
    exfalso. apply (Z.lt_irrefl (Z.pos p)).
    eapply Z.lt_le_trans; [exact Hlt|]. eapply Z.le_trans; [|exact Hlo].
    apply Z.pow_le_mono_r; [lia | lia].
Qed.

Lemma str_of_Z_pos (p : positive) :
  str_of_Z (Z.pos p) = NilEmpty.string_of_uint (Pos.to_uint p) /\
  str_of_Z (Z.neg p) = String "-" (NilEmpty.string_of_uint (Pos.to_uint p)).
Proof.
  pose proof (DecimalPos.Unsigned.to_uint_nonnil p) as Hne.
  unfold str_of_Z, NilZero.string_of_int, Z.to_int, NilZero.string_of_uint.
  destruct (Pos.to_uint p); [congruence | split; reflexivity ..].
Qed.

Lemma safe_int_pos (p : positive) :
  (Z.pos p < 10 ^ int_max_str_digits ->
   _safe_int (VInt (Z.pos p)) = Ok (Z.pos p) /\ _safe_int (VInt (Z.neg p)) = Ok (Z.neg p)) /\
  (10 ^ int_max_str_digits <= Z.pos p ->
   _safe_int (VInt (Z.pos p)) = Ok 0 /\ _safe_int (VInt (Z.neg p)) = Ok 0).
Proof.
  pose proof (DecimalPos.Unsigned.to_uint_nonnil p) as Hne.
  pose proof (digits_within_limit p) as Hlim.
  destruct (str_of_Z_pos p) as [Ep En].
  unfold _safe_int, int_of_cleaned, py_str_int. cbv zeta.
  rewrite Ep, En. cbn [digit_count digit_val].
  change (digit_val "-") with (@None Z). cbv iota.
  rewrite digit_count_uint.
  split.
  - intros Hlt. apply Hlim in Hlt.
    rewrite (proj2 (Z.leb_le _ _) Hlt), !bind_ok.
    destruct (py_int_digits _ Hne Hlt) as [-> ->].
    rewrite DecimalPos.Unsigned.of_to. split; reflexivity.
  - intros Hge.
    assert (Hgt : (Z.of_nat (Decimal.nb_digits (Pos.to_uint p)) <=? int_max_str_digits) = false).
    { apply Z.leb_gt. apply Z.nle_gt. intros Hle. apply Hlim in Hle.
      exact (Z.lt_irrefl _ (Z.lt_le_trans _ _ _ Hle Hge)). }
    rewrite Hgt. split; reflexivity.
Qed.

(** X23. A counter that is already an int comes back unchanged from
    [_safe_int] when its absolute value is below [10^4300], the digit
    limit of [str] and [int]: the detour through [str], the removal of
    commas and blanks and [int] is then the identity, negative ints
    included.  From [10^4300] on [str] raises ValueError and the
    counter reads as 0.  In a text, commas are dropped wherever they
    stand before the digits are read. *)
Theorem safe_int_of_int (n : Z) (s : string) :
  (Z.abs n < 10 ^ int_max_str_digits -> _safe_int (VInt n) = Ok n) /\
  (10 ^ int_max_str_digits <= Z.abs n -> _safe_int (VInt n) = Ok 0) /\
  _safe_int (VStr s) = _safe_int (VStr (remove_char "," s)).
Proof.
  assert (Hpos : 0 < 10 ^ int_max_str_digits) by (apply Z.pow_pos_nonneg; [lia | discriminate]).
  split; [|split].
  - destruct n as [|p|p]; cbn [Z.abs]; intros Hlt.
    + reflexivity.
    + exact (proj1 (proj1 (safe_int_pos p) Hlt)).
    + exact (proj2 (proj1 (safe_int_pos p) Hlt)).
  - destruct n as [|p|p]; cbn [Z.abs]; intros Hge.
    + exfalso. exact (Z.lt_irrefl _ (Z.lt_le_trans _ _ _ Hpos Hge)).
    + exact (proj1 (proj2 (safe_int_pos p) Hge)).
    + exact (proj2 (proj2 (safe_int_pos p) Hge)).
  - unfold _safe_int, int_of_cleaned. simpl py_str_plain. cbv iota beta.
    rewrite remove_char_idem. reflexivity.
Qed.

Lemma safe_int_of_int_witness :
  _safe_int (VInt 1250) = Ok 1250 /\ _safe_int (VInt (-3)) = Ok (-3).
Proof.
  assert (H1 : Z.abs 1250 < 10 ^ int_max_str_digits).
  { apply Z.lt_le_trans with (10 ^ 4); [reflexivity|].
    apply Z.pow_le_mono_r; [lia | discriminate]. }
  assert (H2 : Z.abs (-3) < 10 ^ int_max_str_digits).
  { apply Z.lt_le_trans with (10 ^ 1); [reflexivity|].
    apply Z.pow_le_mono_r; [lia | discriminate]. }
  split.
  - exact (proj1 (safe_int_of_int 1250 "") H1).
  - exact (proj1 (safe_int_of_int (-3) "") H2).
Defined.

(** ** Top topics *)

Lemma substring_substring n m s :
  (n <= m)%nat -> substring 0 n (substring 0 m s) = substring 0 n s.
Proof.
  revert m s. induction n as [|n IH]; intros m s Hle.
  - destruct (substring 0 m s), s; reflexivity.
  - destruct m as [|m]; [lia|]. destruct s as [|c s]; [reflexivity|].
    simpl. rewrite IH by lia. reflexivity.
Qed.

Lemma topics_loop (candidates : list PostMetrics) (topics : list TopicInsight) (seen : gset string) :
  NoDup (topic_key <$> topics) ->
  (forall k, k ∈ topic_key <$> topics <-> k ∈ seen) ->
  exists new seen',
    foldl (fun '(topics, seen) post =>
             let key := lower (str_take 60 (content_preview post)) in
             if bool_decide (key ∈ (seen : gset string)) then (topics, seen)
             else ((topics ++ [topic_of post])%list, {[key]} ∪ seen))
          (topics, seen) candidates = ((topics ++ new)%list, seen') /\
    NoDup (topic_key <$> (topics ++ new)%list) /\
    new `sublist_of` topic_of <$> candidates.
Proof.
  revert topics seen. induction candidates as [|post candidates IH]; intros topics seen Hnd Hseen.
  - exists [], seen. rewrite app_nil_r. split; [reflexivity|]. split; [exact Hnd | constructor].
  - simpl foldl.
    assert (Hkey : lower (str_take 60 (content_preview post)) = topic_key (topic_of post)).
    { unfold topic_key, topic_of, str_take. cbn [title]. rewrite substring_substring by lia.
      reflexivity. }
    destruct (bool_decide_reflect (lower (str_take 60 (content_preview post)) ∈ seen)) as [Hin|Hout].
    + destruct (IH topics seen Hnd Hseen) as (new & seen' & Hrun & Hnd' & Hsub).
      exists new, seen'. split; [exact Hrun|]. split; [exact Hnd'|].
      rewrite fmap_cons. apply sublist_cons. exact Hsub.
    + destruct (IH (topics ++ [topic_of post])%list
                  ({[lower (str_take 60 (content_preview post))]} ∪ seen))
        as (new & seen' & Hrun & Hnd' & Hsub).
      * rewrite fmap_app. apply NoDup_app. split; [exact Hnd|]. split; [|apply NoDup_singleton].
        intros k Hk Hk'. apply list_elem_of_singleton in Hk'. subst k.
        apply Hout. rewrite Hkey. apply Hseen, Hk.
      * intros k. rewrite fmap_app, elem_of_app, elem_of_union, elem_of_singleton, Hseen.
        simpl. rewrite list_elem_of_singleton, Hkey. tauto.
      * exists (topic_of post :: new), seen'. rewrite <- app_assoc in Hrun, Hnd'.
        split; [exact Hrun|]. split; [exact Hnd'|].
        rewrite fmap_cons. apply sublist_skip. exact Hsub.
Qed.

Lemma elem_of_concat {A} (x : A) (ls : list (list A)) :
  x ∈ concat ls <-> exists l, x ∈ l /\ l ∈ ls.
Proof.
  induction ls as [|l ls IH]; simpl.
  - split; [intros H; inversion H | intros (l & _ & H); inversion H].
  - rewrite elem_of_app, IH. split.
    + intros [H|(l' & H1 & H2)]; [exists l; split; [exact H | left] |].
      exists l'. split; [exact H1 | right; exact H2].
    + intros (l' & H1 & H2). apply elem_of_cons in H2 as [->|H2]; [left; exact H1|].
      right. eauto.
Qed.

Lemma concat_take_length {A} (n : nat) (ls : list (list A)) :
  (length (concat (take n <$> ls)) <= n * length ls)%nat.
Proof.
  induction ls as [|l ls IH]; [simpl; lia|].
  rewrite fmap_cons, length_cons.
  change (concat (take n l :: (take n <$> ls))) with (take n l ++ concat (take n <$> ls))%list.
  rewrite length_app, length_take, Nat.mul_succ_r.
  pose proof (Nat.le_min_l n (length l)). lia.
Qed.

(** X24. [_extract_top_topics] returns at most 6 topics and at most 2
    for each summary; each is made of one of the first two top
    performers of a summary (its id, its engagement rate, the first 80
    characters of its preview, a post count of 1); no two topics agree
    on the lower-cased first 60 characters of their titles; and when no
    engagement rate is NaN they come in descending order of
    engagement. *)
Theorem top_topics_bounds (performances : list NichePerformance) :
  (length (_extract_top_topics performances) <= 6)%nat /\
  (length (_extract_top_topics performances) <= 2 * length performances)%nat /\
  (forall t, t ∈ _extract_top_topics performances ->
     exists perf post, perf ∈ performances /\ post ∈ take 2 (top_performers perf) /\
       t = topic_of post) /\
  NoDup (topic_key <$> _extract_top_topics performances) /\
  (Forall (fun perf => Forall (fun p => engagement_rate p <> NaN) (top_performers perf))
     performances ->
   StronglySorted (fun t u => fleb (avg_engagement u) (avg_engagement t) = true)
     (_extract_top_topics performances)).
Proof.
  unfold _extract_top_topics.
  set (candidates := concat ((fun perf => take 2 (top_performers perf)) <$> performances)).
  destruct (topics_loop candidates [] ∅ (NoDup_nil_2) ltac:(set_solver))
    as (topics & seen & Hrun & Hnd & Hsub).
  rewrite app_nil_l in Hrun, Hnd.
  fold (topic_of) in Hrun.
  change (foldl _ ([], ∅) candidates) with
    (foldl (fun '(topics, seen) post =>
             let key := lower (str_take 60 (content_preview post)) in
             if bool_decide (key ∈ (seen : gset string)) then (topics, seen)
             else ((topics ++ [topic_of post])%list, {[key]} ∪ seen))
          ([], ∅) candidates).
  rewrite Hrun.
  assert (Hperm : sorted_desc avg_engagement topics ≡ₚ topics) by apply sort_by_perm.
  assert (Hcand : forall post, post ∈ candidates ->
            exists perf, perf ∈ performances /\ post ∈ take 2 (top_performers perf)).
  { intros post Hp. unfold candidates in Hp. apply elem_of_concat in Hp as (l & Hp & Hl).
    apply list_elem_of_fmap in Hl as (perf & -> & Hperf). eauto. }
  assert (Hmem : forall t, t ∈ topics ->
            exists perf post, perf ∈ performances /\ post ∈ take 2 (top_performers perf) /\
              t = topic_of post).
  { intros t Ht. pose proof (elem_of_sublist _ _ _ Ht Hsub) as Hin.
    apply list_elem_of_fmap in Hin as (post & -> & Hp).
    destruct (Hcand post Hp) as (perf & Hperf & Hpost). eauto. }
  split; [|split; [|split; [|split]]].
  - rewrite length_take. lia.
  - rewrite length_take.
    assert (Hsl : length (sorted_desc avg_engagement topics) = length topics)
      by apply sort_by_length.
    rewrite Hsl.
    pose proof (sublist_length _ _ Hsub) as Hlen. rewrite length_fmap in Hlen.
    pose proof (concat_take_length 2 (top_performers <$> performances)) as Hc.
    rewrite <- list_fmap_compose, length_fmap in Hc.
    unfold candidates in Hlen. unfold compose in Hc. lia.
  - intros t Ht. apply Hmem. rewrite <- Hperm.
    exact (elem_of_sublist _ _ _ Ht (sublist_take _ _)).
  - apply (sublist_NoDup _ (topic_key <$> sorted_desc avg_engagement topics)).
    + rewrite Hperm. exact Hnd.
    + apply fmap_sublist, sublist_take.
  - intros Hnan.
    assert (Hs : StronglySorted (fun t u => fleb (avg_engagement u) (avg_engagement t) = true)
                   (sorted_desc avg_engagement topics)).
    { apply sorted_desc_sorted. apply Forall_forall. intros t Ht.
      destruct (Hmem t Ht) as (perf & post & Hperf & Hpost & ->). cbn [topic_of avg_engagement].
      rewrite Forall_forall in Hnan. pose proof (Hnan perf Hperf) as Hp.
      rewrite Forall_forall in Hp. apply Hp.
      exact (elem_of_sublist _ _ _ Hpost (sublist_take _ _)). }
    rewrite <- (take_drop 6 (sorted_desc avg_engagement topics)) in Hs.
    exact (StronglySorted_app_1_l _ _ _ Hs).
Qed.

(** X25. [get_top_topics] returns at most [n] of the brief's topics, in
    their order.  Without a niche, or for a niche that has no summary
    in the brief, these are simply the first [n] topics, whatever niche
    they belong to; for a niche that has summaries, every topic
    returned comes from a top performer of one of them. *)
Theorem get_top_topics_bounds top_topics niche_performances niche_name n :
  (length (get_top_topics top_topics niche_performances niche_name n) <= n)%nat /\
  get_top_topics top_topics niche_performances niche_name n `sublist_of` top_topics /\
  (niche_name = "" \/ (forall perf, perf ∈ niche_performances -> np_niche perf <> niche_name) ->
   get_top_topics top_topics niche_performances niche_name n = take n top_topics) /\
  (niche_name <> "" ->
   (exists perf, perf ∈ niche_performances /\ np_niche perf = niche_name) ->
   forall t, t ∈ get_top_topics top_topics niche_performances niche_name n ->
     exists perf post, perf ∈ niche_performances /\ np_niche perf = niche_name /\
       post ∈ top_performers perf /\ best_post_id t = post_id post).
Proof.
  unfold get_top_topics.
  split; [rewrite length_take; lia|]. split; [|split].
  - etransitivity; [apply sublist_take|].
    destruct (bool_decide (niche_name = "")); [reflexivity|].
    destruct (filter _ niche_performances); [reflexivity | apply sublist_filter].
  - intros [-> | Hnone]; [reflexivity|].
    destruct (bool_decide (niche_name = "")); [reflexivity|].
    rewrite filter_none; [reflexivity|]. intros perf Hperf. exact (Hnone perf Hperf).
  - intros Hne (perf0 & Hperf0 & Hn0) t Ht.
    rewrite bool_decide_eq_false_2 in Ht by exact Hne.
    destruct (filter (fun p => np_niche p = niche_name) niche_performances) as [|pf pfs] eqn:E.
    + exfalso.
      assert (Hin : perf0 ∈ filter (fun p => np_niche p = niche_name) niche_performances)
        by (apply list_elem_of_filter; auto).
      rewrite E in Hin. inversion Hin.
    + rewrite <- E in Ht.
      pose proof (elem_of_sublist _ _ _ Ht (sublist_take _ _)) as Hin.
      apply list_elem_of_filter in Hin as [Hid _].
      apply elem_of_list_to_set, list_elem_of_fmap in Hid as (post & Hid & Hpost).
      apply elem_of_concat in Hpost as (l & Hpost & Hl).
      apply list_elem_of_fmap in Hl as (perf & -> & Hperf).
      apply list_elem_of_filter in Hperf as [Hn Hperf].
      exists perf, post. auto.
Qed.

(** ** Formats *)

Lemma setdefault_append_keys k v (d : list (string * list pyfloat)) :
  fst <$> setdefault_append k v d
  = if bool_decide (k ∈ fst <$> d) then fst <$> d else ((fst <$> d) ++ [k])%list.
Proof.
  induction d as [|[k' vs] d IH]; [reflexivity|]. cbn [setdefault_append].
  destruct (String.eqb_spec k k') as [->|Hne].
  - rewrite !fmap_cons. cbn [fst]. rewrite bool_decide_eq_true_2 by left. reflexivity.
  - rewrite !fmap_cons, IH. cbn [fst].
    destruct (bool_decide_reflect (k ∈ fst <$> d)) as [Hin|Hout].
    + rewrite bool_decide_eq_true_2 by (right; exact Hin). reflexivity.
    + rewrite bool_decide_eq_false_2; [reflexivity|].
      intros H. apply elem_of_cons in H as [H|H]; [exact (Hne H) | exact (Hout H)].
Qed.

Lemma format_engagement_keys posts :
  fst <$> format_engagement posts = dict_fromkeys (format_type <$> posts).
Proof.
  unfold format_engagement, dict_fromkeys.
  assert (G : forall d,
            fst <$> foldl (fun d p => setdefault_append (format_type p) (engagement_rate p) d) d posts
            = foldl (fun keys x => if bool_decide (x ∈ keys) then keys else (keys ++ [x])%list)
                    (fst <$> d) (format_type <$> posts)).
  { induction posts as [|p posts IH]; intros d; [reflexivity|]. simpl.
    rewrite IH, setdefault_append_keys. reflexivity. }
  apply (G []).
Qed.

Lemma fltb_trans x y z : fltb x y = true -> fltb y z = true -> fltb x z = true.
Proof.
  destruct x, y, z; simpl; try discriminate; try reflexivity.
  intros H1 H2. apply Z.ltb_lt in H1, H2. apply Z.ltb_lt. lia.
Qed.

Lemma max_by_float_spec {A} (key : A -> pyfloat) (xs : list A) :
  match max_by_float key xs with
  | Some best => best ∈ xs /\ forall y, y ∈ xs -> fltb (key best) (key y) = false
  | None => xs = []
  end.
Proof.
  destruct xs as [|x xs]; [reflexivity|]. simpl.
  assert (G : forall best,
            foldl (fun best y => if fgtb (key y) (key best) then y else best) best xs ∈ best :: xs /\
            fltb (key (foldl (fun best y => if fgtb (key y) (key best) then y else best) best xs))
                 (key best) = false /\
            (forall z, fltb (key best) (key z) = false ->
               fltb (key (foldl (fun best y => if fgtb (key y) (key best) then y else best) best xs))
                    (key z) = false) /\
            forall y, y ∈ xs ->
              fltb (key (foldl (fun best y => if fgtb (key y) (key best) then y else best) best xs))
                   (key y) = false).
  { induction xs as [|y xs IH]; intros best; simpl.
    - split; [left|]. split; [destruct (key best); simpl; try reflexivity; apply Z.ltb_irrefl|].
      split; [auto|]. intros y Hy. inversion Hy.
    - change (fgtb (key y) (key best)) with (fltb (key best) (key y)).
      destruct (fltb (key best) (key y)) eqn:E.
      + destruct (IH y) as (H1 & H2 & H3 & H4). split; [right; exact H1|].
        assert (Hb : forall z, fltb (key best) (key z) = false ->
                  fltb (key (foldl (fun best y => if fgtb (key y) (key best) then y else best) y xs))
                       (key z) = false).
        { intros z Hz.
          destruct (fltb (key (foldl (fun best y => if fgtb (key y) (key best) then y else best) y xs))
                      (key z)) eqn:F; [|reflexivity].
          destruct (fltb (key y) (key z)) eqn:F2.
          - rewrite (fltb_trans _ _ _ E F2) in Hz. discriminate Hz.
          - rewrite (H3 z F2) in F. discriminate F. }
        split; [apply Hb; destruct (key best); simpl; try reflexivity; apply Z.ltb_irrefl|].
        split; [exact Hb|].
        intros z Hz. apply elem_of_cons in Hz as [->|Hz]; [exact H2 | exact (H4 z Hz)].
      + destruct (IH best) as (H1 & H2 & H3 & H4).
        split; [apply elem_of_cons in H1 as [->|H1]; [left | right; right; exact H1]|].
        split; [exact H2|]. split; [exact H3|].
        intros z Hz. apply elem_of_cons in Hz as [->|Hz]; [exact (H3 y E) | exact (H4 z Hz)]. }
  destruct (G x) as (H1 & H2 & _ & H4). split; [exact H1|].
  intros y Hy. apply elem_of_cons in Hy as [->|Hy]; [exact H2 | exact (H4 y Hy)].
Qed.

Lemma min_by_float_spec {A} (key : A -> pyfloat) (xs : list A) :
  match min_by_float key xs with
  | Some worst => worst ∈ xs /\ forall y, y ∈ xs -> fltb (key y) (key worst) = false
  | None => xs = []
  end.
Proof.
  destruct xs as [|x xs]; [reflexivity|]. simpl.
  assert (G : forall best,
            foldl (fun best y => if fltb (key y) (key best) then y else best) best xs ∈ best :: xs /\
            fltb (key best)
                 (key (foldl (fun best y => if fltb (key y) (key best) then y else best) best xs))
              = false /\
            (forall z, fltb (key z) (key best) = false ->
               fltb (key z)
                    (key (foldl (fun best y => if fltb (key y) (key best) then y else best) best xs))
               = false) /\
            forall y, y ∈ xs ->
              fltb (key y)
                   (key (foldl (fun best y => if fltb (key y) (key best) then y else best) best xs))
              = false).
  { induction xs as [|y xs IH]; intros best; simpl.
    - split; [left|]. split; [destruct (key best); simpl; try reflexivity; apply Z.ltb_irrefl|].
      split; [auto|]. intros y Hy. inversion Hy.
    - destruct (fltb (key y) (key best)) eqn:E.
      + destruct (IH y) as (H1 & H2 & H3 & H4). split; [right; exact H1|].
        assert (Hb : forall z, fltb (key z) (key best) = false ->
                  fltb (key z)
                       (key (foldl (fun best y => if fltb (key y) (key best) then y else best) y xs))
                  = false).
        { intros z Hz.
          destruct (fltb (key z)
                      (key (foldl (fun best y => if fltb (key y) (key best) then y else best) y xs)))
            eqn:F; [|reflexivity].
          destruct (fltb (key z) (key y)) eqn:F2.
          - rewrite (fltb_trans _ _ _ F2 E) in Hz. discriminate Hz.
          - rewrite (H3 z F2) in F. discriminate F. }
        split; [apply Hb; destruct (key best); simpl; try reflexivity; apply Z.ltb_irrefl|].
        split; [exact Hb|].
        intros z Hz. apply elem_of_cons in Hz as [->|Hz]; [exact H2 | exact (H4 z Hz)].
      + destruct (IH best) as (H1 & H2 & H3 & H4).
        split; [apply elem_of_cons in H1 as [->|H1]; [left | right; right; exact H1]|].
        split; [exact H2|]. split; [exact H3|].
        intros z Hz. apply elem_of_cons in Hz as [->|Hz]; [exact (H3 y E) | exact (H4 z Hz)]. }
  destruct (G x) as (H1 & H2 & _ & H4). split; [exact H1|].
  intros y Hy. apply elem_of_cons in Hy as [->|Hy]; [exact H2 | exact (H4 y Hy)].
Qed.

(** X26. [_analyze_formats] never fails.  Without posts it answers
    with an empty breakdown and "unknown" twice; otherwise the breakdown
    has one entry for each format of the posts, in the order of first
    appearance, the best and the worst format are entries of it, no
    entry has a higher average than the best and none a lower one than
    the worst. *)
Theorem analyze_formats_value posts :
  exists breakdown best worst,
    _analyze_formats posts = Ok (breakdown, best, worst) /\
    (posts = [] -> breakdown = [] /\ best = "unknown" /\ worst = "unknown") /\
    (posts <> [] ->
     fst <$> breakdown = dict_fromkeys (format_type <$> posts) /\
     exists best_avg worst_avg,
       (best, best_avg) ∈ breakdown /\ (worst, worst_avg) ∈ breakdown /\
       forall fmt avg, (fmt, avg) ∈ breakdown ->
         fltb best_avg avg = false /\ fltb avg worst_avg = false).
Proof.
  unfold _analyze_formats. cbv zeta.
  destruct (breakdown_loop (format_engagement posts) [] (format_engagement_nonempty posts))
    as (breakdown & Hrun & Hkeys).
  rewrite app_nil_l in Hrun. rewrite Hrun, bind_ok.
  rewrite format_engagement_keys in Hkeys.
  pose proof (max_by_float_spec snd breakdown) as Hmax.
  pose proof (min_by_float_spec snd breakdown) as Hmin.
  destruct (max_by_float snd breakdown) as [[best best_avg]|].
  - destruct (min_by_float snd breakdown) as [[worst worst_avg]|].
    + exists breakdown, best, worst. split; [reflexivity|].
      destruct Hmax as [Hb Hmax]. destruct Hmin as [Hw Hmin]. split.
      * intros ->. simpl in Hkeys. destruct breakdown; [inversion Hb | discriminate Hkeys].
      * intros _. split; [exact Hkeys|]. exists best_avg, worst_avg.
        split; [exact Hb|]. split; [exact Hw|].
        intros fmt avg Hin. split; [exact (Hmax _ Hin) | exact (Hmin _ Hin)].
    + destruct Hmax as [Hb _]. rewrite Hmin in Hb. inversion Hb.
  - exists [], "unknown", "unknown". split; [reflexivity|]. split; [auto|].
    intros Hne. exfalso. rewrite Hmax in Hkeys. simpl in Hkeys.
    destruct posts as [|p posts]; [congruence|].
    assert (Hin : format_type p ∈ dict_fromkeys (format_type <$> p :: posts))
      by (apply dict_fromkeys_spec; left).
    rewrite <- Hkeys in Hin. inversion Hin.
Qed.

(** ** Patterns in a group of one format *)

Lemma format_engagement_single posts fmt :
  posts <> [] -> Forall (fun p => format_type p = fmt) posts ->
  format_engagement posts = [(fmt, engagement_rate <$> posts)].
Proof.
  intros Hne Hall. unfold format_engagement.
  assert (G : forall posts rs, Forall (fun p => format_type p = fmt) posts ->
            foldl (fun d p => setdefault_append (format_type p) (engagement_rate p) d)
                  [(fmt, rs)] posts
            = [(fmt, (rs ++ (engagement_rate <$> posts))%list)]).
  { clear. induction posts as [|p posts IH]; intros rs Hall.
    - simpl. rewrite app_nil_r. reflexivity.
    - apply Forall_cons_1 in Hall as [Hp Hall]. simpl foldl. rewrite Hp.
      cbn [setdefault_append]. rewrite String.eqb_refl, IH by exact Hall.
      rewrite fmap_cons, <- app_assoc. reflexivity. }
  destruct posts as [|p posts]; [congruence|].
  apply Forall_cons_1 in Hall as [Hp Hall]. simpl foldl. rewrite Hp.
  cbn [setdefault_append]. rewrite G by exact Hall. reflexivity.
Qed.

Section SingleFormat.

Variable set_rank : list string -> string -> Z.

Lemma detect_patterns_tail posts gaps :
  posts <> [] ->
  for_each (format_gap (format_engagement posts)) (format_engagement posts) [] = Ok gaps ->
  exists hs hc lo,
    _detect_patterns set_rank posts = Ok (take 5 (gaps ++ hs ++ hc ++ lo))%list /\
    (hs = [] \/ exists d, hs = [HighSave d]) /\
    (hc = [] \/ exists d, hc = [HighComment d]) /\
    (lo = [] \/ exists d, lo = [LowPerformers d]).
Proof.
  intros Hne Hgaps. unfold _detect_patterns. destruct posts as [|p0 posts0]; [congruence|].
  set (posts := p0 :: posts0) in *.
  rewrite Hgaps, bind_ok.
  set (high_save := filter (fun p => fgtb (save_rate p) (lit 5 10) = true) posts).
  set (high_comment := filter (fun p => fgtb (comment_rate p) (lit 5 10) = true) posts).
  set (low := filter (fun p => fltb (benchmark_delta p) (lit (-15) 10) = true) posts).
  assert (Hs : exists hs, (if (2 <=? length high_save)%nat
                then dominant_format set_rank (format_type <$> high_save) ≫=
                       (fun dominant => mret (gaps ++ [HighSave dominant])%list)
                else mret gaps) = Ok (gaps ++ hs)%list /\
                (hs = [] \/ exists d, hs = [HighSave d])).
  { destruct (Nat.leb_spec 2 (length high_save)) as [Hlen|Hlen].
    - destruct (dominant_ok set_rank (format_type <$> high_save)) as (d & ->).
      { destruct high_save; [simpl in Hlen; lia | discriminate]. }
      exists [HighSave d]. split; [reflexivity|]. right. exists d. reflexivity.
    - exists []. rewrite app_nil_r. split; [reflexivity|]. left. reflexivity. }
  destruct Hs as (hs & -> & Hhs). rewrite bind_ok. exists hs.
  assert (Hc : exists hc, (match high_comment with
                | [] => mret (gaps ++ hs)%list
                | _ => dominant_format set_rank (format_type <$> high_comment) ≫=
                         (fun dominant => mret ((gaps ++ hs) ++ [HighComment dominant])%list)
                end) = Ok ((gaps ++ hs) ++ hc)%list /\
                (hc = [] \/ exists d, hc = [HighComment d])).
  { destruct high_comment as [|h hcs] eqn:E.
    - exists []. rewrite app_nil_r. split; [reflexivity|]. left. reflexivity.
    - destruct (dominant_ok set_rank (format_type <$> (h :: hcs))) as (d & ->); [discriminate|].
      exists [HighComment d]. split; [reflexivity|]. right. exists d. reflexivity. }
  destruct Hc as (hc & -> & Hhc). rewrite bind_ok. exists hc.
  assert (Hl : exists lo, (if (2 <=? length low)%nat
                then dominant_format set_rank (format_type <$> low) ≫=
                       (fun dominant => mret (((gaps ++ hs) ++ hc) ++ [LowPerformers dominant])%list)
                else mret ((gaps ++ hs) ++ hc)%list) = Ok (((gaps ++ hs) ++ hc) ++ lo)%list /\
                (lo = [] \/ exists d, lo = [LowPerformers d])).
  { destruct (Nat.leb_spec 2 (length low)) as [Hlen|Hlen].
    - destruct (dominant_ok set_rank (format_type <$> low)) as (d & ->).
      { destruct low; [simpl in Hlen; lia | discriminate]. }
      exists [LowPerformers d]. split; [reflexivity|]. right. exists d. reflexivity.
    - exists []. rewrite app_nil_r. split; [reflexivity|]. left. reflexivity. }
  destruct Hl as (lo & -> & Hlo). rewrite bind_ok. exists lo.
  split.
  { rewrite <- !app_assoc. reflexivity. }
  split; [exact Hhs|]. split; [exact Hhc | exact Hlo].
Qed.

(** X27. A format gap needs two formats: when every post of the group
    has the same format, [_detect_patterns] reports no finding about a
    format over- or underperforming, so at most the three findings on
    saves, comments and low performers. *)
Theorem single_format_no_gap posts fmt :
  Forall (fun p => format_type p = fmt) posts ->
  exists found,
    _detect_patterns set_rank posts = Ok found /\
    Forall (fun f => gap_format f = None) found /\
    (length found <= 3)%nat.
Proof.
  intros Hall. destruct posts as [|p0 posts0].
  { exists []. split; [reflexivity|]. split; [constructor | simpl; lia]. }
  set (posts := p0 :: posts0) in *.
  assert (Hne : posts <> []) by discriminate.
  pose proof (format_engagement_single posts fmt Hne Hall) as Hfe.
  assert (Hgaps : for_each (format_gap (format_engagement posts)) (format_engagement posts) []
                  = Ok []).
  { rewrite Hfe, for_each_cons.
    assert (Hstep : format_gap [(fmt, engagement_rate <$> posts)] []
                      (fmt, engagement_rate <$> posts) = Ok []).
    { unfold format_gap.
      assert (Hr : engagement_rate <$> posts <> []) by (unfold posts; discriminate).
      destruct (mean_ok (engagement_rate <$> posts) Hr) as (avg & ->).
      rewrite bind_ok. rewrite fmap_cons. cbn [fst snd]. rewrite String.eqb_refl.
      reflexivity. }
    rewrite Hstep, bind_ok. apply for_each_nil. }
  destruct (detect_patterns_tail posts [] Hne Hgaps) as (hs & hc & lo & Hrun & Hhs & Hhc & Hlo).
  rewrite app_nil_l in Hrun.
  eexists. split; [exact Hrun|]. split.
  - apply Forall_forall. intros f Hf.
    pose proof (elem_of_sublist _ _ _ Hf (sublist_take _ _)) as Hin.
    rewrite !elem_of_app in Hin.
    destruct Hin as [Hin|[Hin|Hin]];
      [destruct Hhs as [->|(d & ->)] | destruct Hhc as [->|(d & ->)] |
       destruct Hlo as [->|(d & ->)]];
      try (inversion Hin; fail);
      apply list_elem_of_singleton in Hin; subst f; reflexivity.
  - rewrite length_take, !length_app.
    destruct Hhs as [->|(d & ->)], Hhc as [->|(d' & ->)], Hlo as [->|(d'' & ->)]; simpl; lia.
Qed.

End SingleFormat.

Lemma single_format_no_gap_witness :
  exists found,
    _detect_patterns flat_rank [post_likes_10; post_likes_50] = Ok found /\
    Forall (fun f => gap_format f = None) found /\
    (length found <= 3)%nat.
Proof.
  apply (single_format_no_gap flat_rank [post_likes_10; post_likes_50] "unknown").
  repeat constructor.
Defined.
